(** * StockFlow: ledger reconciliation, import modes, restore/reset, login

    A shallow embedding of the bookkeeping logic of the StockFlow
    single-page application (App.tsx, Dashboard, TransactionReport,
    ImportModal, LoginScreen) together with the properties its
    specification states about it.

    Modelling conventions.
    - The amount of a posting or of an imported entry is written as an exact
      rational ([Q]), the decimal that was entered or stored.  The ledger
      totals of the dashboard and of the transaction report are stated in
      exact arithmetic; equalities between amounts are stated with [==].
    - Where the code decides by comparing numbers (the tolerances of the
      audit and of the usage import, the sign test of the provider chart) the
      numbers are IEEE 754 binary64 values, as JavaScript has them: an amount
      [q] is held as [toDouble q], the binary64 value nearest to it, and sums
      and differences are rounded as the code computes them, in inventory
      order.  The arithmetic is the reference implementation of the standard
      library ([SpecFloat]).
    - The manual-import parser, where NaN decides whether a line is kept,
      uses the three-way type [JsNumber].
    - [createdAt] is a millisecond timestamp ([Z]).
    - A JavaScript [Map] is a [gmap string _].  A plain object used as a
      dictionary is a [gmap string _] for the properties it owns; where the
      code reads such an object under a key taken from imported data, the
      members inherited from [Object.prototype] are part of the model
      ([objectPrototypeKeys]).  The codes of the inventory itself are
      assumed not to name such a member.
    - Strings are ASCII strings; whitespace is the ASCII part of the
      ECMAScript WhiteSpace and LineTerminator classes.
    - The Firestore client is an external collaborator.  Its model keeps what
      the code relies on: a collection is a finite map from document ids to
      documents, and a write batch collects operations, applies them on
      commit and refuses any use after commit. *)

From stdpp Require Import gmap strings list pretty.
From Stdlib Require Import Ascii QArith Qround Qabs Lqa Permutation Sorted.
From Stdlib Require Floats.SpecFloat.

Local Open Scope Q_scope.

(** ** JavaScript numbers (IEEE 754 binary64) *)

Definition double : Type := SpecFloat.spec_float.

Definition prec : Z := 53.
Definition emax : Z := 1024.

Definition fadd : double -> double -> double := SpecFloat.SFadd prec emax.
Definition fsub : double -> double -> double := SpecFloat.SFsub prec emax.
Definition fopp : double -> double := SpecFloat.SFopp.
(** [Math.abs] *)
Definition fabs : double -> double := SpecFloat.SFabs.
(** [x < y]; false when either side is NaN. *)
Definition fltb : double -> double -> bool := SpecFloat.SFltb.

Definition zero : double := SpecFloat.S754_zero false.

(** The binary64 value of a decimal, as a numeric literal, [JSON.parse] and
    [parseFloat] produce it: the nearest value, ties to even, 0 on underflow
    and Infinity on overflow.  The quotient is taken with at least 56
    significant bits and a sticky bit, which [binary_normalize] then rounds
    once. *)
Definition toDouble (q : Q) : double :=
  let n := Qnum q in
  let d := Z.pos (Qden q) in
  if (n =? 0)%Z then zero
  else
    let k := Z.max 0 (Z.log2 d + 56 - Z.log2 (Z.abs n)) in
    let a := (Z.abs n * 2 ^ k)%Z in
    let m := (2 * (a / d) + (if (a mod d =? 0)%Z then 0 else 1))%Z in
    SpecFloat.binary_normalize prec emax (if (n <? 0)%Z then - m else m)%Z (- k - 1) false.

(** The exact value of a finite binary64 number.  An infinity is given the
    value [2 ^ 1024] with its sign, the least magnitude that [toDouble] reads
    as that infinity; NaN has no value and is given 0. *)
Definition valueOf (x : double) : Q :=
  match x with
  | SpecFloat.S754_zero _ | SpecFloat.S754_nan => 0
  | SpecFloat.S754_infinity s =>
      if s then - inject_Z (2 ^ 1024) else inject_Z (2 ^ 1024)
  | SpecFloat.S754_finite s m e =>
      let v := if (0 <=? e)%Z then inject_Z (Z.pos m * 2 ^ e)
               else Z.pos m # (2 ^ Z.to_pos (- e)) in
      if s then - v else v
  end.

(** [x || 0] on a number that may be missing: [undefined], NaN and both
    zeros read as 0. *)
Definition orZero (o : option double) : double :=
  match o with
  | None | Some (SpecFloat.S754_zero _) | Some SpecFloat.S754_nan => zero
  | Some x => x
  end.

(** The own properties of [Object.prototype], which every plain object
    inherits.  Read through a plain object each of them is a function or an
    object: truthy, and no number and no string. *)
Definition objectPrototypeKeys : list string :=
  ["constructor"; "__defineGetter__"; "__defineSetter__"; "hasOwnProperty";
   "__lookupGetter__"; "__lookupSetter__"; "isPrototypeOf";
   "propertyIsEnumerable"; "toString"; "valueOf"; "__proto__";
   "toLocaleString"].

(** ** Entities (types.ts) *)

Inductive TxType := IN | OUT | TEMP_USE.

#[global] Instance TxType_eq_dec : EqDecision TxType.
Proof. solve_decision. Defined.

Record StockItem := {
  id : string;
  date : string;
  code : string;
  provider : string;
  phoneNumber : string;
  amount : Q;
  type : TxType;
  orderNumber : option string;
  createdAt : Z;
  createdBy : option string
}.

Inductive ImportMode := ADD_STOCK | CALCULATE_USAGE | AUDIT_SYSTEM.

Inductive AccountStatus := OPEN | CLOSED.

Inductive MatchStatus := MATCH | MISMATCH.

Record AuditResult := {
  ar_code : string;
  ar_provider : string;
  ar_phoneNumber : string;
  systemBalance : double;
  appBalance : double;
  difference : double;
  status : MatchStatus
}.

(** [Omit<StockItem, 'id' | 'createdAt' | 'type'>]: what an import hands to
    [handleImport]. *)
Record ImportedItem := {
  imp_date : string;
  imp_code : string;
  imp_provider : string;
  imp_phoneNumber : string;
  imp_amount : Q;
  imp_orderNumber : option string;
  imp_createdBy : option string
}.

(** ** Dashboard (stats) *)







(** A posting of type [t] and amount [a] on code [c], created at [ts]; the
    fields that play no part in the ledger arithmetic are fixed. *)
Definition posting (c : string) (t : TxType) (a : Q) (ts : Z) : StockItem :=
  {| id := "tx" +:+ pretty ts; date := "30-Nov-2025"; code := c;
     provider := "Celcom"; phoneNumber := "0138456954";
     amount := a; type := t; orderNumber := None; createdAt := ts;
     createdBy := None |}.

(** An imported entry for code [c] with amount [a]. *)
Definition importedEntry (c : string) (a : Q) : ImportedItem :=
  {| imp_date := "30-Nov-2025"; imp_code := c; imp_provider := "Celcom";
     imp_phoneNumber := "0138456954"; imp_amount := a;
     imp_orderNumber := None; imp_createdBy := None |}.

(** ** Per-code ledgers (App.tsx, TransactionReport.tsx) *)

(** The postings of one stock code, in list order. *)
Definition ledger (c : string) (items : list StockItem) : list StockItem :=
  List.filter (fun i => bool_decide (code i = c)) items.



(** [if (!transactionsByCode[item.code]) transactionsByCode[item.code] = [];
    transactionsByCode[item.code].push(item)]; the report's [grouped] is
    built the same way. *)
Definition groupStep (m : gmap string (list StockItem)) (item : StockItem)
  : gmap string (list StockItem) :=
  <[code item := default [] (m !! code item) ++ [item]]> m.

Definition transactionsByCode (items : list StockItem) : gmap string (list StockItem) :=
  foldl groupStep ∅ items.

(** [Array.prototype.sort((a, b) => a.createdAt - b.createdAt)]: a stable
    sort by creation time, here by insertion. *)
Fixpoint insertByCreatedAt (x : StockItem) (l : list StockItem) : list StockItem :=
  match l with
  | [] => [x]
  | y :: rest =>
      if (createdAt x <=? createdAt y)%Z then x :: y :: rest
      else y :: insertByCreatedAt x rest
  end.

Fixpoint sortByCreatedAt (l : list StockItem) : list StockItem :=
  match l with
  | [] => []
  | x :: rest => insertByCreatedAt x (sortByCreatedAt rest)
  end.

Definition statusOfType (t : TxType) : AccountStatus :=
  match t with
  | IN | TEMP_USE => OPEN
  | OUT => CLOSED
  end.

(** [lastTx = txs[txs.length - 1]] of the sorted group; every group holds at
    least one posting, so the [None] branch is never taken. *)
Definition lastTx (group : list StockItem) : option StockItem :=
  last (sortByCreatedAt group).

Definition statusOfGroup (group : list StockItem) : option AccountStatus :=
  (fun tx => statusOfType (type tx)) <$> lastTx group.

Definition accountStatusMap (items : list StockItem) : gmap string AccountStatus :=
  omap statusOfGroup (transactionsByCode items).

(** [o || d] on an optional string: an absent or empty string reads as [d]. *)
Definition orElse (o : option string) (d : string) : string :=
  match o with
  | Some s => if bool_decide (s = "") then d else s
  | None => d
  end.

(** [a] was created no later than [b]. *)
Definition olderEq (a b : StockItem) : Prop := (createdAt a <= createdAt b)%Z.

(** *** TransactionReport: running balance of one account *)

Record ReportRow := {
  rr_id : string;
  rr_date : string;
  rr_orderNumber : string;
  rr_code : string;
  rr_amount : Q;
  balanceBefore : Q;
  balanceAfter : Q;
  rr_createdAt : Z;
  rr_createdBy : string
}.

Definition reportStep (st : Q * list ReportRow) (item : StockItem) : Q * list ReportRow :=
  let '(currentBalance, results) := st in
  match type item with
  | IN => (currentBalance + amount item, results)
  | OUT => (currentBalance - amount item, results)
  | TEMP_USE =>
      let before := currentBalance in
      let after := currentBalance - amount item in
      (after,
       results ++ [{| rr_id := id item; rr_date := date item;
                      rr_orderNumber := orElse (orderNumber item) "N/A";
                      rr_code := code item; rr_amount := amount item;
                      balanceBefore := before; balanceAfter := after;
                      rr_createdAt := createdAt item;
                      rr_createdBy := orElse (createdBy item) "System" |}])
  end.

(** One account of [calculatedTransactions]: the closing balance and the
    rows pushed for its TEMP_USE postings. *)
Definition accountRun (group : list StockItem) : Q * list ReportRow :=
  foldl reportStep (0, []) (sortByCreatedAt group).

(** ** handleImport (App.tsx) *)

(** The numeric literals of the import. *)
Definition tolerance_audit : double := toDouble (5 # 100).
Definition tolerance_usage : double := toDouble (1 # 100).

(** [officialInventoryMap] as the import holds it: a [Map<string, number>]
    filled by one pass over [items], every sum and difference rounded to
    binary64.  ([officialInventoryMap] above is the same pass in exact
    arithmetic.) *)
Definition officialStep64 (m : gmap string double) (item : StockItem)
  : gmap string double :=
  let currentOfficial := orZero (m !! code item) in
  match type item with
  | IN => <[code item := fadd currentOfficial (toDouble (amount item))]> m
  | OUT => <[code item := fsub currentOfficial (toDouble (amount item))]> m
  | TEMP_USE => m
  end.

Definition officialInventoryMap64 (items : list StockItem) : gmap string double :=
  foldl officialStep64 ∅ items.

(** The same sum over the postings of one code: what the map holds for the
    code after each of its postings, nothing before the first IN or OUT. *)
Definition balanceStep64 (acc : option double) (item : StockItem) : option double :=
  match type item with
  | IN => Some (fadd (orZero acc) (toDouble (amount item)))
  | OUT => Some (fsub (orZero acc) (toDouble (amount item)))
  | TEMP_USE => acc
  end.

(** The official balance of code [c] in binary64: IN amounts added and OUT
    amounts subtracted in inventory order, 0 for a code without such
    postings. *)
Definition officialBalance64 (c : string) (items : list StockItem) : double :=
  orZero (foldl balanceStep64 None (ledger c items)).

(** [parseFloat(x.toFixed(2))] as a decimal.  Below [10 ^ 21] [toFixed]
    prints the multiple of 1/100 nearest to the exact value of [x], the
    larger one on a tie; from [10 ^ 21] on it prints [x] itself, and Infinity
    as Infinity ([valueOf]).  [parseFloat] reads the printed decimal back,
    which is the [toDouble] of the result.  NaN prints no decimal; the guard
    of the usage import keeps it away. *)
Definition nearestHundredth (v : Q) : Q := Qfloor (v * 100 + (1 # 2)) # 100.

Definition toFixed2 (x : double) : Q :=
  let v := valueOf x in
  if Qle_bool (inject_Z (10 ^ 21)) (Qabs v) then v
  else if Qle_bool 0 v then nearestHundredth v
  else - nearestHundredth (- v).

Definition auditEntry (officialMap : gmap string double) (item : ImportedItem)
  : AuditResult :=
  let app := orZero (officialMap !! imp_code item) in
  let diff := fsub app (toDouble (imp_amount item)) in
  {| ar_code := imp_code item;
     ar_provider := imp_provider item;
     ar_phoneNumber := imp_phoneNumber item;
     appBalance := app;
     systemBalance := toDouble (imp_amount item);
     difference := diff;
     status := if fltb (fabs diff) tolerance_audit then MATCH else MISMATCH |}.

(** [{ ...item, id: newId, createdAt: timestamp, amount, type }] *)
Definition newItem (item : ImportedItem) (newId : string) (timestamp : Z)
    (a : Q) (t : TxType) : StockItem :=
  {| id := newId; date := imp_date item; code := imp_code item;
     provider := imp_provider item; phoneNumber := imp_phoneNumber item;
     amount := a; type := t; orderNumber := imp_orderNumber item;
     createdAt := timestamp; createdBy := imp_createdBy item |}.

Inductive ImportOutcome :=
| AuditGenerated (results : list AuditResult)
| Synced (written : list StockItem)
| NoNewRecords.

Section HandleImport.
(** [uuidv4 k] is the k-th identifier drawn during the call, [timestamp]
    the value of [Date.now()] at entry, [items] the inventory state. *)
Variable uuidv4 : nat -> string.
Variable timestamp : Z.
Variable items : list StockItem.

(** [accountStatusMap[item.code] || 'CLOSED'].  [accountStatusMap] is a
    plain object: a code for which it owns no status but which names a
    member of [Object.prototype] reads as that member, which is neither
    ['OPEN'] nor ['CLOSED'] ([None]). *)
Definition currentStatus (item : ImportedItem) : option AccountStatus :=
  match accountStatusMap items !! imp_code item with
  | Some s => Some s
  | None =>
      if bool_decide (imp_code item ∈ objectPrototypeKeys) then None
      else Some CLOSED
  end.

(** [officialInventoryMap.get(item.code) || 0] *)
Definition currentBalance (item : ImportedItem) : double :=
  orZero (officialInventoryMap64 items !! imp_code item).

Definition addStockEntry (newId : string) (item : ImportedItem) : option StockItem :=
  match currentStatus item with
  | Some CLOSED => Some (newItem item newId timestamp (imp_amount item) IN)
  | Some OPEN | None => None
  end.

Definition usageEntry (newId : string) (item : ImportedItem) : option StockItem :=
  match currentStatus item with
  | Some OPEN =>
      let diff := fsub (currentBalance item) (toDouble (imp_amount item)) in
      if fltb tolerance_usage (fabs diff) then
        let t := if fltb zero diff then OUT else IN in
        Some (newItem item newId timestamp (toFixed2 (fabs diff)) t)
      else None
  | Some CLOSED | None => None
  end.

Definition importEntry (mode : ImportMode) (newId : string) (item : ImportedItem)
  : option StockItem :=
  match mode with
  | ADD_STOCK => addStockEntry newId item
  | CALCULATE_USAGE => usageEntry newId item
  | AUDIT_SYSTEM => None
  end.

(** The [forEach] over the imported entries: the writes queued in the
    batch, in order; [k] counts the entries already visited. *)
Fixpoint batchWrites (mode : ImportMode) (k : nat) (imported : list ImportedItem)
  : list StockItem :=
  match imported with
  | [] => []
  | item :: rest =>
      match importEntry mode (uuidv4 k) item with
      | Some tx => tx :: batchWrites mode (S k) rest
      | None => batchWrites mode (S k) rest
      end
  end.

Definition handleImport (imported : list ImportedItem) (mode : ImportMode)
  : ImportOutcome :=
  match mode with
  | AUDIT_SYSTEM =>
      AuditGenerated (map (auditEntry (officialInventoryMap64 items)) imported)
  | _ =>
      let written := batchWrites mode 0 imported in
      if (0 <? length written)%nat then Synced written else NoNewRecords
  end.
End HandleImport.

(** The transactions a call of [handleImport] commits. *)
Definition writtenBy (o : ImportOutcome) : list StockItem :=
  match o with
  | Synced written => written
  | AuditGenerated _ | NoNewRecords => []
  end.


(** ** Remaining entities (types.ts) *)

Record EmployeeRequest := {
  req_id : string;
  req_day : string;
  req_shift : string
}.

Record Employee := {
  emp_id : string;
  emp_name : string;
  primaryShift : option string;
  requests : option (list EmployeeRequest)
}.

Inductive ShiftType := Morning | Noon_1 | Noon_2 | Night | OFF | AL.

Record Assignment := {
  employeeId : string;
  employeeName : string;
  shift : ShiftType
}.

Record DaySchedule := {
  day : string;
  assignments : list Assignment
}.

Record Note := {
  note_id : string;
  content : string;
  author : string;
  color : string;
  note_createdAt : Z;
  imageUrl : option string
}.

Inductive UserRole := admin | staff.

Inductive ViewType :=
| view_dashboard | view_list | view_reports | view_transaction_entry
| view_transaction_report | view_schedule | view_notes | view_users.

Record User := {
  user_id : string;
  username : string;
  password : string;
  name : string;
  role : UserRole;
  permissions : option (list ViewType)
}.

(** The React state of [App]. *)
Record AppState := {
  st_users : list User;
  st_items : list StockItem;
  st_employees : list Employee;
  st_schedule : list DaySchedule;
  st_notes : list Note
}.

(** ** The document store (firebase/firestore, external) *)

(** A stored document is one of the entities. *)
Inductive Doc :=
| StockDoc (i : StockItem)
| EmployeeDoc (e : Employee)
| ScheduleDoc (d : DaySchedule)
| NoteDoc (n : Note)
| UserDoc (u : User).

(** [item.id] and [item.day], where the entity has the field. *)
Definition docId (d : Doc) : option string :=
  match d with
  | StockDoc i => Some (id i)
  | EmployeeDoc e => Some (emp_id e)
  | ScheduleDoc _ => None
  | NoteDoc n => Some (note_id n)
  | UserDoc u => Some (user_id u)
  end.

Definition docDay (d : Doc) : option string :=
  match d with
  | ScheduleDoc s => Some (day s)
  | _ => None
  end.

Definition nonEmpty (o : option string) : option string :=
  match o with
  | Some s => if bool_decide (s = "") then None else Some s
  | None => None
  end.

(** [item.id || item.day]; [None] stands for a key on which [doc(db, coll, key)]
    throws (undefined or empty).  [doc] splits a key at its slashes into path
    segments; a key is taken to be a plain identifier ([isPlainKey]). *)
Definition docKey (d : Doc) : option string :=
  match nonEmpty (docId d) with
  | Some k => Some k
  | None => nonEmpty (docDay d)
  end.

(** The record has a key and the key has no slash: [doc(db, coll, key)] is
    then the document [key] of the collection [coll]. *)
Definition isPlainKey (d : Doc) : bool :=
  match docKey d with
  | Some k => negb (existsb (Ascii.eqb "/") (String.list_ascii_of_string k))
  | None => false
  end.

Inductive WriteOp :=
| OpSet (coll key : string) (d : Doc)
| OpDelete (coll key : string).

(** Documents are addressed by collection name and document id; [commits]
    records the batches committed so far, oldest first. *)
Record Store := {
  db : gmap (string * string) Doc;
  commits : list (list WriteOp)
}.

Definition applyOp (m : gmap (string * string) Doc) (op : WriteOp)
  : gmap (string * string) Doc :=
  match op with
  | OpSet c k d => <[(c, k) := d]> m
  | OpDelete c k => delete (c, k) m
  end.

(** A write batch: the SDK checks on [set], [delete] and [commit] that the
    batch has not been committed and throws otherwise. *)
Record WriteBatch := {
  mutations : list WriteOp;
  committed : bool
}.

Definition writeBatch : WriteBatch := {| mutations := []; committed := false |}.

Inductive Result (A : Type) :=
| Ok (a : A)
| Threw.
Arguments Ok {A} a.
Arguments Threw {A}.

(** Store-passing computations that may throw; a throw keeps the store as it
    stands at that point. *)
Definition Fire (A : Type) : Type := Store -> Result A * Store.

#[global] Instance Fire_ret : MRet Fire := fun A a s => (Ok a, s).

#[global] Instance Fire_bind : MBind Fire := fun A B f m s =>
  match m s with
  | (Ok a, s') => f a s'
  | (Threw, s') => (Threw, s')
  end.

Definition throw {A : Type} : Fire A := fun s => (Threw, s).

Definition batchSet (b : WriteBatch) (collName : string) (item : Doc) : Fire WriteBatch :=
  match docKey item with
  | None => throw
  | Some k =>
      if committed b then throw
      else mret {| mutations := mutations b ++ [OpSet collName k item];
                   committed := false |}
  end.

Definition batchDelete (b : WriteBatch) (collName key : string) : Fire WriteBatch :=
  if committed b then throw
  else mret {| mutations := mutations b ++ [OpDelete collName key];
               committed := false |}.

Definition batchCommit (b : WriteBatch) : Fire WriteBatch := fun s =>
  if committed b then (Threw, s)
  else (Ok {| mutations := mutations b; committed := true |},
        {| db := foldl applyOp (db s) (mutations b);
           commits := commits s ++ [mutations b] |}).

(** [getDocs(collection(db, collName))]: the ids of the collection's documents. *)
Definition getDocs (collName : string) : Fire (list string) := fun s =>
  (Ok (omap (fun '((c, k), _) => if bool_decide (c = collName) then Some k else None)
            (map_to_list (db s))), s).

(** ** handleRestoreData (App.tsx) *)

(** The parsed backup file; a missing collection is [None]. *)
Record BackupFile := {
  bk_items : option (list Doc);
  bk_employees : option (list Doc);
  bk_schedule : option (list Doc);
  bk_notes : option (list Doc);
  bk_users : option (list Doc)
}.

(** The [for ... of] loop of [uploadCollection]; the one [batch] made before
    the loop is the only batch it ever uses. *)
Fixpoint uploadLoop (collName : string) (data : list Doc) (batch : WriteBatch)
    (opCount : nat) : Fire (WriteBatch * nat) :=
  match data with
  | [] => mret (batch, opCount)
  | item :: rest =>
      batch ← batchSet batch collName item;
      let opCount := S opCount in
      if (450 <=? opCount)%nat then
        batch ← batchCommit batch;
        uploadLoop collName rest batch 0
      else uploadLoop collName rest batch opCount
  end.

Definition uploadCollection (collName : string) (data : option (list Doc)) : Fire unit :=
  match data with
  | None | Some [] => mret tt
  | Some data =>
      '(batch, opCount) ← uploadLoop collName data writeBatch 0;
      if (0 <? opCount)%nat then _ ← batchCommit batch; mret tt
      else mret tt
  end.

Inductive RestoreOutcome := RestoreComplete | RestoreError | RestoreDeclined.

(** [parsed = None] stands for a file on which [JSON.parse] throws. *)
Definition handleRestoreData (parsed : option BackupFile) (confirmed : bool)
  : Store -> RestoreOutcome * Store := fun s =>
  match parsed with
  | None => (RestoreError, s)
  | Some parsed =>
      if confirmed then
        let upload : Fire unit :=
          _ ← uploadCollection "inventory" (bk_items parsed);
          _ ← uploadCollection "employees" (bk_employees parsed);
          _ ← uploadCollection "schedule" (bk_schedule parsed);
          _ ← uploadCollection "notes" (bk_notes parsed);
          match bk_users parsed with
          | Some _ => uploadCollection "users" (bk_users parsed)
          | None => mret tt
          end in
        match upload s with
        | (Ok _, s') => (RestoreComplete, s')
        | (Threw, s') => (RestoreError, s')
        end
      else (RestoreDeclined, s)
  end.

(** ** handleResetData (App.tsx) *)

Fixpoint deleteAll (b : WriteBatch) (collName : string) (keys : list string)
  : Fire WriteBatch :=
  match keys with
  | [] => mret b
  | k :: rest => b ← batchDelete b collName k; deleteAll b collName rest
  end.

Definition clearColl (collName : string) : Fire unit :=
  snap ← getDocs collName;
  batch ← deleteAll writeBatch collName snap;
  _ ← batchCommit batch;
  mret tt.

Definition handleResetData (confirmed : bool) : Fire unit :=
  if confirmed then
    _ ← clearColl "inventory";
    _ ← clearColl "schedule";
    _ ← clearColl "notes";
    clearColl "employees"
  else mret tt.

(** ** handleExportData (App.tsx) *)

(** [{ items, employees, schedule, notes, users }]: the object handed to
    [JSON.stringify], as its key/value pairs in order. *)
Definition exportData (st : AppState) : list (string * list Doc) :=
  [ ("items", StockDoc <$> st_items st);
    ("employees", EmployeeDoc <$> st_employees st);
    ("schedule", ScheduleDoc <$> st_schedule st);
    ("notes", NoteDoc <$> st_notes st);
    ("users", UserDoc <$> st_users st) ].

(** The [set] operations queued for a list of records with usable keys. *)
Definition setOps (collName : string) (data : list Doc) : list WriteOp :=
  omap (fun d => (fun k => OpSet collName k d) <$> docKey d) data.

(** A backup record: the [k]-th inventory posting, with id [tx<k>]. *)
Definition backupRecord (k : nat) : Doc :=
  StockDoc (posting "C105" IN 1 (Z.of_nat k)).

Definition emptyStore : Store := {| db := ∅; commits := [] |}.

(** ** LoginScreen.handleLogin *)

Definition lowerAscii (a : ascii) : ascii :=
  let n := N_of_ascii a in
  if ((65 <=? n) && (n <=? 90))%N then ascii_of_N (n + 32) else a.

Fixpoint toLowerCase (s : string) : string :=
  match s with
  | EmptyString => EmptyString
  | String a rest => String (lowerAscii a) (toLowerCase rest)
  end.

(** The component state: the two input fields and the error banner. *)
Record LoginForm := {
  form_username : string;
  form_password : string;
  form_error : option string
}.

Definition sameUsername (entered : string) (u : User) : bool :=
  bool_decide (toLowerCase (username u) = toLowerCase entered).

(** [setError("Invalid username or password."); setPassword('')] *)
Definition rejected (form : LoginForm) : LoginForm :=
  {| form_username := form_username form;
     form_password := "";
     form_error := Some "Invalid username or password." |}.

(** The first component is the user handed to [onLogin], if it is called. *)
Definition handleLogin (users : list User) (form : LoginForm)
  : option User * LoginForm :=
  match List.find (sameUsername (form_username form)) users with
  | Some user =>
      if bool_decide (password user = form_password form) then (Some user, form)
      else (None, rejected form)
  | None => (None, rejected form)
  end.

(** ** ImportModal.handleManualParse *)

(** What [parseFloat] can return.  [JsFinite q] carries the decimal that was
    read; the number the code holds is [toDouble q], so a decimal too small
    or too large for binary64 is held as 0 or as Infinity. *)
Inductive JsNumber :=
| JsNaN
| JsInfinity (negative : bool)
| JsFinite (q : Q).

Definition isNaN (x : JsNumber) : bool :=
  match x with
  | JsNaN => true
  | _ => false
  end.

Definition isWhiteSpace (a : ascii) : bool :=
  let n := N_of_ascii a in
  ((n =? 9) || (n =? 10) || (n =? 11) || (n =? 12) || (n =? 13) || (n =? 32))%N.

Definition isDigit (a : ascii) : bool :=
  let n := N_of_ascii a in ((48 <=? n) && (n <=? 57))%N.

Definition digitValue (a : ascii) : Z := Z.of_N (N_of_ascii a) - 48.

Fixpoint trimStart (s : list ascii) : list ascii :=
  match s with
  | [] => []
  | c :: rest => if isWhiteSpace c then trimStart rest else s
  end.

Fixpoint trimEnd (s : list ascii) : list ascii :=
  match s with
  | [] => []
  | c :: rest =>
      match trimEnd rest with
      | [] => if isWhiteSpace c then [] else [c]
      | kept => c :: kept
      end
  end.

Definition trim (s : list ascii) : list ascii := trimEnd (trimStart s).

(** The last character of [s], if any, is not a blank. *)
Definition noTrailingWs (s : list ascii) : Prop :=
  match last s with
  | Some a => isWhiteSpace a = false
  | None => True
  end.

(** Puts [c] in front of the first piece of a split. *)
Definition consFirst (c : ascii) (pieces : list (list ascii)) : list (list ascii) :=
  match pieces with
  | [] => [[c]]
  | first :: others => (c :: first) :: others
  end.

(** [s.split('\n')] *)
Fixpoint splitLines (s : list ascii) : list (list ascii) :=
  match s with
  | [] => [[]]
  | c :: rest =>
      if bool_decide (c = "010"%char) then [] :: splitLines rest
      else consFirst c (splitLines rest)
  end.

(** [s.split(/\s+/)]; [inWs] tells that the previous character was part of
    a separator. *)
Fixpoint splitWs (inWs : bool) (s : list ascii) : list (list ascii) :=
  match s with
  | [] => [[]]
  | c :: rest =>
      if isWhiteSpace c then
        if inWs then splitWs true rest else [] :: splitWs true rest
      else consFirst c (splitWs false rest)
  end.

(** [s.replace('-', '')]: the first hyphen only. *)
Fixpoint dropFirstHyphen (s : list ascii) : list ascii :=
  match s with
  | [] => []
  | c :: rest => if bool_decide (c = "-"%char) then rest else c :: dropFirstHyphen rest
  end.

(** [s.replace(/,/g, '')] *)
Definition dropCommas (s : list ascii) : list ascii :=
  List.filter (fun c => negb (bool_decide (c = ","%char))) s.

Fixpoint spanDigits (s : list ascii) : list ascii * list ascii :=
  match s with
  | [] => ([], [])
  | c :: rest =>
      if isDigit c then let '(ds, r) := spanDigits rest in (c :: ds, r)
      else ([], s)
  end.

Definition digitsValue (ds : list ascii) : Z :=
  foldl (fun acc d => 10 * acc + digitValue d)%Z 0%Z ds.

Fixpoint startsWith (pre s : list ascii) : bool :=
  match pre, s with
  | [], _ => true
  | p :: pre', c :: s' => bool_decide (p = c) && startsWith pre' s'
  | _ :: _, [] => false
  end.

(** The exponent part [e[+-]digits] at the front of [s], 0 when there is none. *)
Definition exponentOf (s : list ascii) : Z :=
  match s with
  | c :: rest =>
      if bool_decide (c = "e"%char) || bool_decide (c = "E"%char) then
        let '(negative, rest') :=
          match rest with
          | sign :: r =>
              if bool_decide (sign = "-"%char) then (true, r)
              else if bool_decide (sign = "+"%char) then (false, r)
              else (false, rest)
          | [] => (false, rest)
          end in
        match fst (spanDigits rest') with
        | [] => 0%Z
        | ds => if negative then (- digitsValue ds)%Z else digitsValue ds
        end
      else 0%Z
  | [] => 0%Z
  end.

(** [parseFloat]: the value of the longest prefix that is a decimal literal,
    [NaN] when there is none.  The value is the exact decimal. *)
Definition parseFloat (s : list ascii) : JsNumber :=
  let s := trimStart s in
  let '(negative, body) :=
    match s with
    | c :: rest =>
        if bool_decide (c = "-"%char) then (true, rest)
        else if bool_decide (c = "+"%char) then (false, rest)
        else (false, s)
    | [] => (false, s)
    end in
  if startsWith (String.list_ascii_of_string "Infinity") body then JsInfinity negative
  else
    let '(intPart, r1) := spanDigits body in
    let '(fracPart, r2) :=
      match r1 with
      | c :: rest => if bool_decide (c = "."%char) then spanDigits rest else ([], r1)
      | [] => ([], r1)
      end in
    match intPart ++ fracPart with
    | [] => JsNaN
    | ds =>
        let mantissa := inject_Z (digitsValue ds) / (10 ^ Z.of_nat (length fracPart)) in
        let magnitude := mantissa * 10 ^ exponentOf r2 in
        JsFinite (if negative then - magnitude else magnitude)
    end.

(** An entry as the manual parser builds it; [phoneNumber] is [undefined]
    when the usage format finds no third field. *)
Record ParsedItem := {
  p_date : string;
  p_code : string;
  p_provider : string;
  p_phoneNumber : option string;
  p_amount : JsNumber
}.

Inductive ParseOutcome :=
| ParseError (message : string)
| Imported (parsed : list ParsedItem) (mode : ImportMode).

Section ManualParse.
(** [formatDateForDisplay(selectedDate)] *)
Variable displayDate : string.
Variable mode : ImportMode.

Definition str (s : list ascii) : string := String.string_of_list_ascii s.

(** The fields of a line: [line.trim().split(/\s+/)]. *)
Definition fieldsOf (line : list ascii) : list (list ascii) :=
  splitWs false (trim line).

Definition parseAuditLine (parts : list (list ascii)) : option ParsedItem :=
  if (length parts <? 3)%nat then None
  else
    let code := trim (dropFirstHyphen (default [] (parts !! 1%nat))) in
    let lastPart := default [] (last parts) in
    let amount := parseFloat (dropCommas lastPart) in
    let code :=
      if bool_decide (code = []) && (2 <? length parts)%nat
      then default [] (parts !! 2%nat) else code in
    let provider :=
      if (4 <? length parts)%nat then default [] (parts !! 3%nat)
      else String.list_ascii_of_string "System" in
    (* [parts.length > 4 ? parts[2] : (parts[2] || '')]: the same field *)
    let phone := default [] (parts !! 2%nat) in
    if isNaN amount then None
    else Some {| p_date := displayDate; p_code := str code;
                 p_provider := str provider;
                 p_phoneNumber := Some (str phone);
                 p_amount := amount |}.

Definition parseUsageLine (parts : list (list ascii)) : option ParsedItem :=
  let code := parts !! 0%nat in
  let provider := parts !! 1%nat in
  let phone := parts !! 2%nat in
  let amount :=
    if (4 <=? length parts)%nat then
      let val := parseFloat (default [] (last parts)) in
      if isNaN val then JsFinite 0 else val
    else JsFinite 0 in
  match code, provider with
  | Some (c :: cs), Some (p :: ps) =>
      Some {| p_date := displayDate; p_code := str (c :: cs);
              p_provider := str (p :: ps);
              p_phoneNumber := str <$> phone;
              p_amount := amount |}
  | _, _ => None
  end.

Definition parseStockLine (parts : list (list ascii)) : option ParsedItem :=
  if (length parts <? 5)%nat then None
  else Some {| p_date := str (default [] (parts !! 0%nat));
               p_code := str (default [] (parts !! 1%nat));
               p_provider := str (default [] (parts !! 2%nat));
               p_phoneNumber := Some (str (default [] (parts !! 3%nat)));
               p_amount := parseFloat (default [] (parts !! 4%nat)) |}.

(** The callback of [lines.map]: [None] is [null]. *)
Definition parseLine (line : list ascii) : option ParsedItem :=
  let cleanLine := trim line in
  match cleanLine with
  | [] => None
  | _ :: _ =>
      let parts := splitWs false cleanLine in
      match mode with
      | AUDIT_SYSTEM => parseAuditLine parts
      | CALCULATE_USAGE => parseUsageLine parts
      | ADD_STOCK => parseStockLine parts
      end
  end.

Definition handleManualParse (inputText : list ascii) : ParseOutcome :=
  let lines := splitLines (trim inputText) in
  let parsed := omap parseLine lines in
  match parsed with
  | [] => ParseError "Could not parse text. Please check the format or use Smart Import."
  | _ :: _ => Imported parsed mode
  end.
End ManualParse.

(** * Further code of the application *)

(** ** StockList: the status shown beside a code *)


(** ** uniqueCodes (App.tsx) *)

(** [codes.add(item.code)] over the items: the codes in order of first
    appearance. *)
Definition addCode (codes : list string) (item : StockItem) : list string :=
  if bool_decide (code item ∈ codes) then codes else codes ++ [code item].

Definition codesOf (items : list StockItem) : list string := foldl addCode [] items.

(** [Array.from(codes).sort()]: ascending in code-unit order. *)
Fixpoint insertCode (c : string) (l : list string) : list string :=
  match l with
  | [] => [c]
  | d :: rest => if String.leb c d then c :: d :: rest else d :: insertCode c rest
  end.

Definition sortCodes (l : list string) : list string := foldr insertCode [] l.

Definition uniqueCodes (items : list StockItem) : list string := sortCodes (codesOf items).

(** ** handleTransactionSubmit (App.tsx) *)

Record TransactionData := {
  td_date : string;
  td_code : string;
  td_orderNumber : string;
  td_amount : Q
}.

(** The record written to the inventory collection; [now] is [Date.now()]. *)
Definition handleTransactionSubmit (newId : string) (now : Z) (currentUser : option User)
    (data : TransactionData) : StockItem :=
  {| id := newId; date := td_date data; code := td_code data;
     provider := "Temp Use"; phoneNumber := "";
     orderNumber := Some (td_orderNumber data);
     amount := td_amount data; type := TEMP_USE; createdAt := now;
     createdBy := Some (orElse (username <$> currentUser) "Unknown") |}.


(** ** Reading the store back *)

(** The last record of [data] whose key is [k]. *)
Definition lastWithKey (k : string) (data : list Doc) : option Doc :=
  last (List.filter (fun d => bool_decide (docKey d = Some k)) data).

(** The ids of the documents of one collection, as [getDocs] lists them. *)
Definition docIds (collName : string) (m : gmap (string * string) Doc) : list string :=
  omap (fun '((c, k), _) => if bool_decide (c = collName) then Some k else None)
       (map_to_list m).






(** ** Dashboard: the two charts *)

(** [item.provider === 'Temp Use' ? 'Temporary' : item.provider] *)
Definition providerKey (item : StockItem) : string :=
  if bool_decide (provider item = "Temp Use") then "Temporary" else provider item.

(** [val]: the amount for IN, its negative for OUT and TEMP_USE, as the
    binary64 number the code holds. *)
Definition signedAmount (item : StockItem) : double :=
  match type item with
  | IN => toDouble (amount item)
  | OUT | TEMP_USE => fopp (toDouble (amount item))
  end.

(** [acc[key] = (acc[key] || 0) + val] on the plain object [acc].  Under a
    key that names a member of [Object.prototype] the object yields that
    member, the sum is a string, and what the object then holds under the key
    (nothing at all under [__proto__]) is never a number.  The map holds the
    numeric entries. *)
Definition providerStep (acc : gmap string double) (item : StockItem)
  : gmap string double :=
  let key := providerKey item in
  if bool_decide (key ∈ objectPrototypeKeys) then acc
  else <[key := fadd (orZero (acc !! key)) (signedAmount item)]> acc.

Definition providerMap (data : list StockItem) : gmap string double :=
  foldl providerStep ∅ data.

(** [Math.max(0, value)] *)
Definition max0 (value : double) : double :=
  match value with
  | SpecFloat.S754_nan => SpecFloat.S754_nan
  | _ => if fltb zero value then value else zero
  end.

(** [providerChartData], as the map from slice name to slice value; the
    order of the slices is not modelled.  An entry that is no number gives
    NaN under [Math.max] and is filtered out like every value that is not
    above 0. *)
Definition providerChartData (data : list StockItem) : gmap string double :=
  omap (fun value => if fltb zero (max0 value) then Some (max0 value) else None)
       (providerMap data).

(** The net stock value of the postings filed under provider key [p], summed
    in binary64 in inventory order. *)
Definition netStep (acc : option double) (item : StockItem) : option double :=
  Some (fadd (orZero acc) (signedAmount item)).

Definition netOfProvider (p : string) (data : list StockItem) : double :=
  orZero (foldl netStep None
            (List.filter (fun i => bool_decide (providerKey i = p)) data)).









(** ** TransactionReport: the rows of one account *)



(** ** TransactionReport: the whole report *)






(** ** ImportModal: the AI path and what counts as a number *)

(** An entry as the AI service returns it: [date] and [amount] may be
    [null], [provider] may be missing. *)
Record RawItem := {
  raw_date : option string;
  raw_code : list ascii;
  raw_provider : option string;
  raw_phoneNumber : string;
  raw_amount : option JsNumber
}.

Record ProcessedItem := {
  pr_date : string;
  pr_code : list ascii;
  pr_provider : option string;
  pr_phoneNumber : string;
  pr_amount : JsNumber
}.

(** [s.replace(/-$/, '')]: a hyphen at the very end. *)
Fixpoint dropTrailingHyphen (s : list ascii) : list ascii :=
  match s with
  | [] => []
  | c :: rest =>
      match rest with
      | [] => if bool_decide (c = "-"%char) then [] else [c]
      | _ :: _ => c :: dropTrailingHyphen rest
      end
  end.

Section ProcessParsedData.
(** [formatDateForDisplay(selectedDate)] *)
Variable displayDate : string.

Definition processItem (item : RawItem) : ProcessedItem :=
  {| pr_date := orElse (raw_date item) displayDate;
     pr_code := trim (dropTrailingHyphen (raw_code item));
     pr_provider := raw_provider item;
     pr_phoneNumber := raw_phoneNumber item;
     pr_amount :=
       match raw_amount item with
       | None => JsFinite 0
       | Some a => if isNaN a then JsFinite 0 else a
       end |}.

Definition processParsedData (data : list RawItem) : list ProcessedItem :=
  map processItem data.
End ProcessParsedData.

(** The text after an optional sign. *)
Definition afterSign (s : list ascii) : list ascii :=
  match s with
  | c :: rest =>
      if bool_decide (c = "-"%char) || bool_decide (c = "+"%char) then rest else s
  | [] => s
  end.

(** The text starts like an unsigned number: a digit, a dot followed by a
    digit, or the word Infinity. *)
Definition startsNumber (s : list ascii) : bool :=
  startsWith (String.list_ascii_of_string "Infinity") s ||
  match s with
  | c :: rest =>
      isDigit c ||
      (bool_decide (c = "."%char) &&
       match rest with
       | d :: _ => isDigit d
       | [] => false
       end)
  | [] => false
  end.

(** [lines.join('\n')] *)
Fixpoint joinLines (lines : list (list ascii)) : list ascii :=
  match lines with
  | [] => []
  | [line] => line
  | line :: rest => line ++ "010"%char :: joinLines rest
  end.

Definition notBlank (c : ascii) : bool := negb (isWhiteSpace c).

(** The entries a manual import hands over; none after an error. *)
Definition importedItems (o : ParseOutcome) : list ParsedItem :=
  match o with
  | Imported parsed _ => parsed
  | ParseError _ => []
  end.

(** [parseFloat] once blanks and sign are read: [negative] is the sign,
    [body] the rest of the text. *)
Definition parseUnsigned (negative : bool) (body : list ascii) : JsNumber :=
  if startsWith (String.list_ascii_of_string "Infinity") body then JsInfinity negative
  else
    let '(intPart, r1) := spanDigits body in
    let '(fracPart, r2) :=
      match r1 with
      | c :: rest => if bool_decide (c = "."%char) then spanDigits rest else ([], r1)
      | [] => ([], r1)
      end in
    match intPart ++ fracPart with
    | [] => JsNaN
    | ds =>
        let mantissa := inject_Z (digitsValue ds) / (10 ^ Z.of_nat (length fracPart)) in
        let magnitude := mantissa * 10 ^ exponentOf r2 in
        JsFinite (if negative then - magnitude else magnitude)
    end.

Definition isNegative (s : list ascii) : bool :=
  match s with
  | c :: _ => bool_decide (c = "-"%char)
  | [] => false
  end.


(** ** UserManagement *)

#[global] Instance ViewType_eq_dec : EqDecision ViewType.
Proof. solve_decision. Defined.

#[global] Instance UserRole_eq_dec : EqDecision UserRole.
Proof. solve_decision. Defined.

(** [s.trim()] on a string. *)
Definition trimString (s : string) : string :=
  str (trim (String.list_ascii_of_string s)).

(** The state of the "create account" form. *)
Record NewUserForm := {
  newUsername : string;
  newPassword : string;
  newName : string;
  newRole : UserRole;
  selectedPermissions : list ViewType;
  nu_error : option string
}.

Definition defaultPermissions : list ViewType :=
  [view_dashboard; view_list; view_schedule; view_notes].

Definition withError (form : NewUserForm) (message : string) : NewUserForm :=
  {| newUsername := newUsername form; newPassword := newPassword form;
     newName := newName form; newRole := newRole form;
     selectedPermissions := selectedPermissions form;
     nu_error := Some message |}.

(** [users.some(u => u.username.toLowerCase() === newUsername.trim().toLowerCase())] *)
Definition usernameTaken (users : list User) (entered : string) : bool :=
  existsb (fun u => bool_decide (toLowerCase (username u) = toLowerCase (trimString entered)))
          users.

(** The first component is the user handed to [onAddUser], if it is called. *)
Definition handleAddSubmit (newId : string) (users : list User) (form : NewUserForm)
  : option User * NewUserForm :=
  if bool_decide (trimString (newUsername form) = "")
     || bool_decide (trimString (newPassword form) = "")
     || bool_decide (trimString (newName form) = "")
  then (None, withError form "All fields are required.")
  else if usernameTaken users (newUsername form)
  then (None, withError form "Username already exists.")
  else
    (Some {| user_id := newId;
             username := trimString (newUsername form);
             password := trimString (newPassword form);
             name := trimString (newName form);
             role := newRole form;
             permissions := if bool_decide (newRole form = admin) then None
                            else Some (selectedPermissions form) |},
     {| newUsername := ""; newPassword := ""; newName := ""; newRole := staff;
        selectedPermissions := defaultPermissions; nu_error := None |}).

(** [prev.includes(viewId) ? prev.filter(p => p !== viewId) : [...prev, viewId]] *)
Definition togglePermission (viewId : ViewType) (prev : list ViewType) : list ViewType :=
  if bool_decide (viewId ∈ prev)
  then List.filter (fun p => negb (bool_decide (p = viewId))) prev
  else prev ++ [viewId].

(** [deleteDoc(doc(db, collName, key))] *)
Definition deleteDoc (collName key : string) : Fire unit := fun s =>
  (Ok tt, {| db := delete (collName, key) (db s); commits := commits s |}).

(** [handleDeleteUser] of App, the [onDeleteUser] of the user table. *)
Definition handleDeleteUser (userId : string) : Fire unit := deleteDoc "users" userId.

(** [handleDelete] of the user table; [confirmed] is the answer to the
    confirmation dialog. *)
Definition handleDelete (currentUser : option User) (confirmed : bool) (userId : string)
  : Fire unit :=
  if bool_decide (user_id <$> currentUser = Some userId) then mret tt
  else if confirmed then handleDeleteUser userId
  else mret tt.

(** Usernames are pairwise different, letter case aside. *)
Definition uniqueUsernames (users : list User) : Prop :=
  NoDup (map (fun u => toLowerCase (username u)) users).

(** ** Sidebar.canAccess and the permission check of App *)

Definition canAccess (currentUser : option User) (itemId : ViewType) (adminOnly : bool)
  : bool :=
  match currentUser with
  | None => false
  | Some u =>
      if bool_decide (role u = admin) then true
      else if adminOnly then false
      else bool_decide (itemId ∈ default [] (permissions u))
  end.

(** The navigation entries with their [adminOnly] flag. *)
Definition navItems : list (ViewType * bool) :=
  [ (view_dashboard, false); (view_list, false); (view_reports, false);
    (view_transaction_entry, false); (view_transaction_report, false);
    (view_schedule, false); (view_notes, false); (view_users, true) ].

(** The effect that runs when the view or the user changes: the view shown
    afterwards and the notification, if any. *)
Definition enforceView (currentUser : option User) (view : ViewType)
  : ViewType * option string :=
  match currentUser with
  | Some u =>
      if negb (bool_decide (role u = admin)) && negb (bool_decide (view = view_dashboard))
      then
        if bool_decide (view ∈ default [] (permissions u)) then (view, None)
        else (view_dashboard,
              Some "Access Denied: You do not have permission for that page.")
      else (view, None)
  | None => (view, None)
  end.

(** ** TransactionForm.handleSubmit *)

Definition upperAscii (a : ascii) : ascii :=
  let n := N_of_ascii a in
  if ((97 <=? n) && (n <=? 122))%N then ascii_of_N (n - 32) else a.

Fixpoint toUpperCase (s : string) : string :=
  match s with
  | EmptyString => EmptyString
  | String a rest => String (upperAscii a) (toUpperCase rest)
  end.

Record TxForm := {
  tf_code : string;
  tf_orderNumber : string;
  tf_amount : string;
  tf_date : string;
  tf_error : option string
}.

Record SubmittedTx := {
  sub_date : string;
  sub_code : string;
  sub_orderNumber : string;
  sub_amount : JsNumber
}.

(** [x <= 0] on a number that is not NaN. *)
Definition leZero (x : JsNumber) : bool :=
  match x with
  | JsNaN => false
  | JsInfinity negative => negative
  | JsFinite q => Qle_bool q 0
  end.

Definition txError (form : TxForm) (message : string) : TxForm :=
  {| tf_code := tf_code form; tf_orderNumber := tf_orderNumber form;
     tf_amount := tf_amount form; tf_date := tf_date form;
     tf_error := Some message |}.

Section TransactionForm.
(** [new Date(date).toLocaleDateString('en-GB', ...).replace(/ /g, '-')] *)
Variable formatDate : string -> string.

(** The first component is the data handed to [onSubmit], if it is called. *)
Definition submitTransaction (form : TxForm) : option SubmittedTx * TxForm :=
  let formattedCode := toUpperCase (trimString (tf_code form)) in
  if bool_decide (formattedCode = "") || bool_decide (tf_orderNumber form = "")
     || bool_decide (tf_amount form = "")
  then (None, txError form "All fields are required.")
  else
    let numAmount := parseFloat (String.list_ascii_of_string (tf_amount form)) in
    if isNaN numAmount || leZero numAmount
    then (None, txError form "Please enter a valid amount greater than 0.")
    else
      (Some {| sub_date := formatDate (tf_date form); sub_code := formattedCode;
               sub_orderNumber := tf_orderNumber form; sub_amount := numAmount |},
       {| tf_code := ""; tf_orderNumber := ""; tf_amount := "";
          tf_date := tf_date form; tf_error := None |}).
End TransactionForm.

Definition isLowerLetter (a : ascii) : bool :=
  let n := N_of_ascii a in ((97 <=? n) && (n <=? 122))%N.

(** ** ScheduleView: one cell of the roster *)

#[global] Instance ShiftType_eq_dec : EqDecision ShiftType.
Proof. solve_decision. Defined.

Definition findDay (schedule : list DaySchedule) (dateStr : string) : option DaySchedule :=
  List.find (fun d => bool_decide (day d = dateStr)) schedule.

Definition findAssignment (assigned : list Assignment) (empId : string) : option Assignment :=
  List.find (fun a => bool_decide (employeeId a = empId)) assigned.

(** [getShiftFor] *)
Definition getShiftFor (schedule : list DaySchedule) (dateStr empId : string)
  : option ShiftType :=
  d ← findDay schedule dateStr; shift <$> findAssignment (assignments d) empId.

Definition withShift (a : Assignment) (newShift : ShiftType) : Assignment :=
  {| employeeId := employeeId a; employeeName := employeeName a; shift := newShift |}.

(** [handleShiftChange]: the day handed to [onUpdateSchedule]. *)
Definition handleShiftChange (schedule : list DaySchedule) (employees : list Employee)
    (dateStr empId : string) (newShift : ShiftType) : DaySchedule :=
  let empName :=
    orElse (emp_name <$> List.find (fun e => bool_decide (emp_id e = empId)) employees)
           "Unknown" in
  let fresh := {| employeeId := empId; employeeName := empName; shift := newShift |} in
  match findDay schedule dateStr with
  | None => {| day := dateStr; assignments := [fresh] |}
  | Some dayData =>
      let updatedAssignments :=
        match findAssignment (assignments dayData) empId with
        | Some _ =>
            map (fun a => if bool_decide (employeeId a = empId) then withShift a newShift
                          else a)
                (assignments dayData)
        | None => assignments dayData ++ [fresh]
        end in
      {| day := day dayData; assignments := updatedAssignments |}
  end.

(** The merge of [handleImageUpload]: an imported assignment replaces the
    first one of the same employee, or is appended. *)
Fixpoint replaceFirst (imp : Assignment) (l : list Assignment) : option (list Assignment) :=
  match l with
  | [] => None
  | a :: rest =>
      if bool_decide (employeeId a = employeeId imp) then Some (imp :: rest)
      else (fun rest' => a :: rest') <$> replaceFirst imp rest
  end.

Definition mergeStep (newAssignments : list Assignment) (impAssign : Assignment)
  : list Assignment :=
  match replaceFirst impAssign newAssignments with
  | Some replaced => replaced
  | None => newAssignments ++ [impAssign]
  end.

Definition mergeAssignments (existing imported : list Assignment) : list Assignment :=
  foldl mergeStep existing imported.


(** ** ReportsView: the summary cards *)


Definition matches (results : list AuditResult) : list AuditResult :=
  List.filter (fun r => match status r with MATCH => true | MISMATCH => false end) results.



(** ** ScheduleView: shift requests *)

Section ShiftRequests.
(** The [fullDate] entries of [monthDays], the dates the roster shows for
    the selected month.  They are read off [Date], in the time zone of the
    browser, and are taken as given. *)
Variable monthDays : list string.

(** [handleAddRequest]: the employee handed to [onUpdateEmployee], if any. *)
Definition handleAddRequest (newId : string) (employees : list Employee)
    (reqDate reqType empId : string) : option Employee :=
  if bool_decide (reqDate = "") then None
  else if negb (existsb (fun d => bool_decide (d = reqDate)) monthDays) then None
  else
    (fun emp =>
       {| emp_id := emp_id emp; emp_name := emp_name emp;
          primaryShift := primaryShift emp;
          requests := Some (default [] (requests emp)
                            ++ [{| req_id := newId; req_day := reqDate;
                                   req_shift := reqType |}]) |})
    <$> List.find (fun e => bool_decide (emp_id e = empId)) employees.
End ShiftRequests.

(** [handleRemoveRequest] *)
Definition handleRemoveRequest (employees : list Employee) (empId reqId : string)
  : option Employee :=
  (fun emp =>
     {| emp_id := emp_id emp; emp_name := emp_name emp;
        primaryShift := primaryShift emp;
        requests := Some (List.filter (fun r => negb (bool_decide (req_id r = reqId)))
                                      (default [] (requests emp))) |})
  <$> List.find (fun e => bool_decide (emp_id e = empId)) employees.


(** ** Snapshots of a collection *)

(** [interleaving old new l]: [l] holds the elements of [old] and of [new],
    each list in its own order.  A snapshot lists the documents of a
    collection in store order, so the documents that were there before a
    write keep their relative order and the new ones fall in between. *)
Inductive interleaving {A : Type} : list A -> list A -> list A -> Prop :=
| interleaving_nil : interleaving [] [] []
| interleaving_old x old new l :
    interleaving old new l -> interleaving (x :: old) new (x :: l)
| interleaving_new x old new l :
    interleaving old new l -> interleaving old (x :: new) (x :: l).

(** * Properties *)

(** ** Dashboard totals *)



(** ** Sorting by creation time *)

Lemma insertByCreatedAt_perm x l : Permutation (insertByCreatedAt x l) (x :: l).
Proof.
  induction l as [|y l IH]; simpl; [reflexivity|].
  destruct (createdAt x <=? createdAt y)%Z; [reflexivity|].
  rewrite IH. apply perm_swap.
Qed.

Lemma sortByCreatedAt_perm l : Permutation (sortByCreatedAt l) l.
Proof.
  induction l as [|x l IH]; simpl; [reflexivity|].
  rewrite insertByCreatedAt_perm. now constructor.
Qed.

Lemma insertByCreatedAt_sorted x l :
  StronglySorted olderEq l -> StronglySorted olderEq (insertByCreatedAt x l).
Proof.
  induction 1 as [|y l Hs IH Hall]; simpl.
  - repeat constructor.
  - destruct (Z.leb_spec (createdAt x) (createdAt y)) as [Hle|Hgt].
    + constructor; [now constructor|].
      constructor; [exact Hle|].
      eapply Forall_impl; [exact Hall|].
      intros z Hz. unfold olderEq in *. lia.
    + constructor; [exact IH|].
      apply (Permutation_Forall (Permutation_sym (insertByCreatedAt_perm x l))).
      constructor; [unfold olderEq; lia | exact Hall].
Qed.

Lemma sortByCreatedAt_sorted l : StronglySorted olderEq (sortByCreatedAt l).
Proof.
  induction l; simpl; [constructor | now apply insertByCreatedAt_sorted].
Qed.

Lemma last_sorted_newest l z :
  StronglySorted olderEq l -> last l = Some z -> Forall (fun y => olderEq y z) l.
Proof.
  induction 1 as [|y l Hs IH Hall]; intros Hlast; [constructor|].
  destruct l as [|y' l'].
  - simpl in Hlast. injection Hlast as <-. repeat constructor. unfold olderEq; lia.
  - rewrite last_cons_cons in Hlast. specialize (IH Hlast).
    constructor; [|exact IH].
    rewrite Forall_forall in Hall. apply Hall, last_Some_elem_of, Hlast.
Qed.

Lemma lastTx_is_Some group : group <> [] -> is_Some (lastTx group).
Proof.
  intros Hne. unfold lastTx. apply last_is_Some.
  intros Hnil. apply Hne.
  apply Permutation_nil. rewrite <- Hnil. apply sortByCreatedAt_perm.
Qed.

Lemma lastTx_newest group tx :
  lastTx group = Some tx ->
  In tx group /\ forall y, In y group -> (createdAt y <= createdAt tx)%Z.
Proof.
  unfold lastTx. intros Hlast. split.
  - apply (Permutation_in _ (sortByCreatedAt_perm group)).
    apply list_elem_of_In, last_Some_elem_of, Hlast.
  - intros y Hy.
    pose proof (last_sorted_newest _ _ (sortByCreatedAt_sorted group) Hlast) as Hall.
    rewrite Forall_forall in Hall. apply Hall, list_elem_of_In.
    apply (Permutation_in _ (Permutation_sym (sortByCreatedAt_perm group))), Hy.
Qed.

(** Stability: among postings created at the same instant the later one in
    list order stays last. *)
Lemma last_insertByCreatedAt x l :
  StronglySorted olderEq l ->
  last (insertByCreatedAt x l) =
    match last l with
    | None => Some x
    | Some z => if (createdAt z <? createdAt x)%Z then Some x else Some z
    end.
Proof.
  induction 1 as [|y l Hs IH Hall]; simpl; [reflexivity|].
  destruct (Z.leb_spec (createdAt x) (createdAt y)) as [Hle|Hgt].
  - rewrite last_cons_cons.
    destruct (last (y :: l)) as [z|] eqn:Hz.
    + assert (olderEq y z) as Hyz.
      { pose proof (last_sorted_newest (y :: l) z) as Hn.
        rewrite Forall_forall in Hn. apply Hn; [now constructor|exact Hz|left]. }
      destruct (Z.ltb_spec (createdAt z) (createdAt x)); [unfold olderEq in Hyz; lia|].
      reflexivity.
    + apply last_None in Hz. discriminate.
  - destruct l as [|y' l'].
    + simpl. destruct (Z.ltb_spec (createdAt y) (createdAt x)); [reflexivity|lia].
    + rewrite last_cons_cons in *.
      destruct (insertByCreatedAt x (y' :: l')) as [|w ws] eqn:Hins.
      { simpl in Hins. destruct (createdAt x <=? createdAt y')%Z; discriminate. }
      rewrite last_cons_cons. exact IH.
Qed.

Lemma lastTx_cons x rest :
  lastTx (x :: rest) =
    match lastTx rest with
    | None => Some x
    | Some z => if (createdAt z <? createdAt x)%Z then Some x else Some z
    end.
Proof.
  unfold lastTx. simpl. apply last_insertByCreatedAt, sortByCreatedAt_sorted.
Qed.

(** ** Grouping by code *)

Lemma foldl_groupStep_lookup (items : list StockItem) (m : gmap string (list StockItem)) c :
  foldl groupStep m items !! c =
    match ledger c items with
    | [] => m !! c
    | _ :: _ => Some (default [] (m !! c) ++ ledger c items)
    end.
Proof.
  revert m. induction items as [|i items IH]; intros m; [reflexivity|].
  simpl. rewrite IH. unfold groupStep at 1 2.
  destruct (decide (code i = c)) as [->|Hne].
  - rewrite bool_decide_eq_true_2 by reflexivity.
    rewrite !lookup_insert_eq. simpl.
    destruct (ledger c items); [reflexivity|].
    now rewrite <- app_assoc.
  - rewrite bool_decide_eq_false_2 by exact Hne.
    now rewrite !lookup_insert_ne by exact Hne.
Qed.

Lemma transactionsByCode_lookup items c :
  transactionsByCode items !! c =
    match ledger c items with
    | [] => None
    | _ :: _ => Some (ledger c items)
    end.
Proof.
  unfold transactionsByCode. rewrite foldl_groupStep_lookup, lookup_empty.
  reflexivity.
Qed.

Lemma accountStatusMap_lookup items c :
  accountStatusMap items !! c = statusOfGroup (ledger c items).
Proof.
  unfold accountStatusMap. rewrite lookup_omap, transactionsByCode_lookup.
  destruct (ledger c items); reflexivity.
Qed.

Lemma ledger_In c items tx : In tx (ledger c items) <-> In tx items /\ code tx = c.
Proof.
  unfold ledger. rewrite filter_In, bool_decide_eq_true. reflexivity.
Qed.

Lemma ledger_nonempty c items tx : In tx items -> code tx = c -> ledger c items <> [].
Proof.
  intros Hin Hc Hnil.
  assert (In tx (ledger c items)) as H by now apply ledger_In.
  rewrite Hnil in H. exact H.
Qed.

(** ** The official balance map *)



(** ** Running balance of the transaction report *)





(** ** handleImport: what reaches the batch *)

Lemma batchWrites_In uuidv4 ts items mode (imported : list ImportedItem) k tx :
  In tx (batchWrites uuidv4 ts items mode k imported) <->
  exists j e, imported !! j = Some e /\
              importEntry ts items mode (uuidv4 (k + j)%nat) e = Some tx.
Proof.
  revert k. induction imported as [|e rest IH]; intros k; simpl.
  - split; [intros []|]. intros (j & e & Hj & _). now rewrite lookup_nil in Hj.
  - assert (In tx (batchWrites uuidv4 ts items mode (S k) rest) <->
            exists j e', (e :: rest) !! S j = Some e' /\
              importEntry ts items mode (uuidv4 (k + S j)%nat) e' = Some tx) as Hrest.
    { rewrite IH. split; intros (j & e' & Hj & He'); exists j, e';
        (split; [exact Hj|]); now replace (k + S j)%nat with (S k + j)%nat in * by lia. }
    destruct (importEntry ts items mode (uuidv4 k) e) as [tx0|] eqn:He.
    + simpl. rewrite Hrest. split.
      * intros [<-|(j & e' & Hj & He')].
        -- exists 0%nat, e. split; [reflexivity|]. now rewrite Nat.add_0_r.
        -- now exists (S j), e'.
      * intros (j & e' & Hj & He'). destruct j as [|j].
        -- injection Hj as <-. rewrite Nat.add_0_r, He in He'. left. congruence.
        -- right. now exists j, e'.
    + rewrite Hrest. split.
      * intros (j & e' & Hj & He'). now exists (S j), e'.
      * intros (j & e' & Hj & He'). destruct j as [|j].
        -- injection Hj as <-. rewrite Nat.add_0_r, He in He'. discriminate.
        -- now exists j, e'.
Qed.

Lemma handleImport_written uuidv4 ts items imported mode :
  writtenBy (handleImport uuidv4 ts items imported mode)
  = batchWrites uuidv4 ts items mode 0 imported.
Proof.
  destruct mode; simpl.
  - destruct (batchWrites uuidv4 ts items ADD_STOCK 0 imported); reflexivity.
  - destruct (batchWrites uuidv4 ts items CALCULATE_USAGE 0 imported); reflexivity.
  - induction imported as [|e rest IH] using rev_ind; [reflexivity|].
    clear IH. generalize 0%nat. induction (rest ++ [e]); intros k; simpl; auto.
Qed.

Lemma handleImport_In uuidv4 ts items imported mode tx :
  In tx (writtenBy (handleImport uuidv4 ts items imported mode)) <->
  exists j e, imported !! j = Some e /\
              importEntry ts items mode (uuidv4 j) e = Some tx.
Proof.
  rewrite handleImport_written, batchWrites_In. reflexivity.
Qed.

Lemma ledger_unknown c items :
  (forall tx, In tx items -> code tx <> c) -> ledger c items = [].
Proof.
  intros Hno. destruct (ledger c items) as [|tx l] eqn:Hl; [reflexivity|].
  assert (In tx (ledger c items)) as Hin by (rewrite Hl; now left).
  apply ledger_In in Hin as [Hin Hc]. now apply Hno in Hin.
Qed.

Lemma accountStatusMap_unknown items c :
  (forall tx, In tx items -> code tx <> c) -> accountStatusMap items !! c = None.
Proof.
  intros Hno. rewrite accountStatusMap_lookup. now rewrite (ledger_unknown c items Hno).
Qed.

Lemma currentStatus_unknown items e :
  (forall tx, In tx items -> code tx <> imp_code e) ->
  currentStatus items e
  = if bool_decide (imp_code e ∈ objectPrototypeKeys) then None else Some CLOSED.
Proof.
  intros Hno. unfold currentStatus. now rewrite (accountStatusMap_unknown _ _ Hno).
Qed.

(** The transaction that [newItem] builds, field by field. *)
Lemma newItem_fields e newId ts a t tx :
  tx = newItem e newId ts a t <->
  id tx = newId /\ createdAt tx = ts /\ type tx = t /\ amount tx = a /\
  date tx = imp_date e /\ code tx = imp_code e /\ provider tx = imp_provider e /\
  phoneNumber tx = imp_phoneNumber e /\ orderNumber tx = imp_orderNumber e /\
  createdBy tx = imp_createdBy e.
Proof.
  split.
  - intros ->. repeat split.
  - intros (? & ? & ? & ? & ? & ? & ? & ? & ? & ?). destruct tx. simpl in *.
    subst. reflexivity.
Qed.

(** C5.  In ADD_STOCK mode an imported entry yields a record exactly when
    the status read for its code is CLOSED, and the record is an IN
    transaction that carries the entry's fields, the drawn id and the
    timestamp of the call; an entry whose code is OPEN yields nothing, and the
    batch holds only the records so produced.  A code without postings reads
    as CLOSED unless it names a member of [Object.prototype]: for such a
    code (the entry "constructor" on an empty inventory) the lookup returns
    the inherited member, which is not ['CLOSED'], and nothing is written
    although the code has no prior transaction. *)
Theorem C5_add_stock_only_when_closed uuidv4 ts items :
  (forall newId e tx,
     addStockEntry ts items newId e = Some tx <->
     currentStatus items e = Some CLOSED /\
     id tx = newId /\ createdAt tx = ts /\ type tx = IN /\ amount tx = imp_amount e /\
     date tx = imp_date e /\ code tx = imp_code e /\ provider tx = imp_provider e /\
     phoneNumber tx = imp_phoneNumber e /\ orderNumber tx = imp_orderNumber e /\
     createdBy tx = imp_createdBy e) /\
  (forall newId e, currentStatus items e = Some OPEN ->
     addStockEntry ts items newId e = None) /\
  (forall e, (forall tx, In tx items -> code tx <> imp_code e) ->
     imp_code e ∉ objectPrototypeKeys ->
     currentStatus items e = Some CLOSED) /\
  (forall imported tx,
     In tx (writtenBy (handleImport uuidv4 ts items imported ADD_STOCK)) <->
     exists j e, imported !! j = Some e /\ currentStatus items e = Some CLOSED /\
       id tx = uuidv4 j /\ createdAt tx = ts /\ type tx = IN /\
       amount tx = imp_amount e /\ date tx = imp_date e /\ code tx = imp_code e /\
       provider tx = imp_provider e /\ phoneNumber tx = imp_phoneNumber e /\
       orderNumber tx = imp_orderNumber e /\ createdBy tx = imp_createdBy e) /\
  (forall e, (forall tx, In tx items -> code tx <> imp_code e) ->
     imp_code e ∈ objectPrototypeKeys ->
     currentStatus items e = None /\
     forall newId, addStockEntry ts items newId e = None) /\
  handleImport uuidv4 ts [] [importedEntry "constructor" 50] ADD_STOCK = NoNewRecords.
Proof.
  assert (forall newId e tx,
     addStockEntry ts items newId e = Some tx <->
     currentStatus items e = Some CLOSED /\
     tx = newItem e newId ts (imp_amount e) IN) as Hentry.
  { intros newId e tx. unfold addStockEntry.
    destruct (currentStatus items e) as [[|]|]; split.
    - discriminate.
    - intros [? _]. discriminate.
    - intros [= <-]. now split.
    - intros [_ ->]. reflexivity.
    - discriminate.
    - intros [? _]. discriminate. }
  split; [|split; [|split; [|split; [|split]]]].
  - intros newId e tx. rewrite Hentry, newItem_fields. reflexivity.
  - intros newId e Hopen. unfold addStockEntry. now rewrite Hopen.
  - intros e Hno Hkey. rewrite (currentStatus_unknown _ _ Hno).
    now rewrite bool_decide_eq_false_2.
  - intros imported tx. rewrite handleImport_In.
    split; intros (j & e & Hj & He); exists j, e; (split; [exact Hj|]).
    + apply Hentry in He. now rewrite newItem_fields in He.
    + apply Hentry. now rewrite newItem_fields.
  - intros e Hno Hkey.
    assert (currentStatus items e = None) as Hread.
    { rewrite (currentStatus_unknown _ _ Hno). now rewrite bool_decide_eq_true_2. }
    split; [exact Hread|]. intros newId. unfold addStockEntry. now rewrite Hread.
  - reflexivity.
Qed.



(** ** The official balance in binary64 *)

Lemma foldl_officialStep64_lookup (items : list StockItem) (m : gmap string double) c :
  foldl officialStep64 m items !! c = foldl balanceStep64 (m !! c) (ledger c items).
Proof.
  revert m. induction items as [|i items IH]; intros m; [reflexivity|].
  cbn [foldl ledger List.filter]. fold (ledger c items). rewrite IH.
  case_bool_decide as Hc.
  - cbn [foldl]. f_equal. unfold officialStep64, balanceStep64. rewrite Hc.
    destruct (type i); [now rewrite lookup_insert_eq..|reflexivity].
  - f_equal. unfold officialStep64.
    destruct (type i); [now rewrite lookup_insert_ne..|reflexivity].
Qed.

Lemma officialInventoryMap64_balance items c :
  orZero (officialInventoryMap64 items !! c) = officialBalance64 c items.
Proof.
  unfold officialInventoryMap64, officialBalance64.
  now rewrite foldl_officialStep64_lookup, lookup_empty.
Qed.

Lemma officialBalance64_unknown items c :
  (forall tx, In tx items -> code tx <> c) -> officialBalance64 c items = zero.
Proof.
  intros Hno. unfold officialBalance64. now rewrite (ledger_unknown c items Hno).
Qed.

(** ** Audit mode *)

Lemma auditEntry_status m e :
  (status (auditEntry m e) = MATCH <->
   fltb (fabs (difference (auditEntry m e))) tolerance_audit = true) /\
  (status (auditEntry m e) = MISMATCH <->
   fltb (fabs (difference (auditEntry m e))) tolerance_audit = false).
Proof.
  unfold auditEntry. cbn [status difference].
  destruct (fltb _ tolerance_audit); split; split; congruence.
Qed.

(** C3, as the code has it.  In AUDIT_SYSTEM mode nothing is written and every
    imported entry gets one result: its app balance is the per-code sum of
    IN minus OUT amounts, taken in binary64 in inventory order (0 for an
    unknown code), its system balance is the supplied balance, its difference
    is the binary64 difference app balance minus system balance, and it is
    flagged MISMATCH if and only if the absolute value of that difference is
    not strictly below the tolerance 0.05; it is MATCH if and only if it is
    strictly below. *)
Theorem C3_audit_flags_from_tolerance uuidv4 ts items imported :
  exists results,
    handleImport uuidv4 ts items imported AUDIT_SYSTEM = AuditGenerated results /\
    length results = length imported /\
    forall k e, imported !! k = Some e ->
      exists r, results !! k = Some r /\
        ar_code r = imp_code e /\
        appBalance r = officialBalance64 (imp_code e) items /\
        ((forall tx, In tx items -> code tx <> imp_code e) -> appBalance r = zero) /\
        systemBalance r = toDouble (imp_amount e) /\
        difference r = fsub (appBalance r) (systemBalance r) /\
        (status r = MISMATCH <-> fltb (fabs (difference r)) tolerance_audit = false) /\
        (status r = MATCH <-> fltb (fabs (difference r)) tolerance_audit = true).
Proof.
  eexists. split; [reflexivity|]. split; [apply length_map|].
  intros k e Hk. exists (auditEntry (officialInventoryMap64 items) e).
  split; [now rewrite list_lookup_fmap, Hk|].
  split; [reflexivity|].
  split; [apply officialInventoryMap64_balance|].
  split.
  { intros Hno. cbn [auditEntry appBalance].
    rewrite officialInventoryMap64_balance. now apply officialBalance64_unknown. }
  split; [reflexivity|]. split; [reflexivity|].
  split; apply auditEntry_status.
Qed.

(** C3, as the specification words it, fails on the boundary: for an unknown
    code and a supplied system balance of 0.05 the absolute difference is
    exactly the tolerance, which it does not exceed, yet the entry is
    flagged MISMATCH. *)
Lemma C3_boundary_counterexample :
  exists r,
    handleImport (fun _ => "id") 0 [] [importedEntry "C105" (5 # 100)] AUDIT_SYSTEM
      = AuditGenerated [r] /\
    fabs (difference r) = tolerance_audit /\
    fltb tolerance_audit (fabs (difference r)) = false /\
    ~ (5 # 100 < Qabs (0 - (5 # 100))) /\
    status r = MISMATCH.
Proof.
  eexists. split; [reflexivity|]. split; [reflexivity|].
  split; [reflexivity|].
  split; [|reflexivity]. intros H. discriminate H.
Qed.

(** ** Usage mode *)

Lemma Qmake_100 (n : Z) : n # 100 == inject_Z n * (1 # 100).
Proof. unfold Qeq. simpl. lia. Qed.

Lemma nearestHundredth_hundredths x :
  nearestHundredth x == inject_Z (Qfloor (x * 100 + (1 # 2))) * (1 # 100).
Proof. unfold nearestHundredth. apply Qmake_100. Qed.

Lemma nearestHundredth_nearest x : Qabs (nearestHundredth x - x) <= 1 # 200.
Proof.
  rewrite nearestHundredth_hundredths.
  pose proof (Qfloor_le (x * 100 + (1 # 2))) as Hlo.
  pose proof (Qlt_floor (x * 100 + (1 # 2))) as Hhi.
  rewrite inject_Z_plus in Hhi.
  set (n := inject_Z (Qfloor (x * 100 + (1 # 2)))) in *.
  clearbody n. change (inject_Z 1) with 1 in Hhi.
  apply Qabs_Qle_condition. split; lra.
Qed.

(** Ties go upwards, as [toFixed] picks the larger candidate. *)
Lemma nearestHundredth_tie_up x : x - (1 # 200) < nearestHundredth x.
Proof.
  rewrite nearestHundredth_hundredths.
  pose proof (Qlt_floor (x * 100 + (1 # 2))) as Hhi.
  rewrite inject_Z_plus in Hhi.
  set (n := inject_Z (Qfloor (x * 100 + (1 # 2)))) in *.
  clearbody n. change (inject_Z 1) with 1 in Hhi. lra.
Qed.

Lemma valueOf_fabs_nonneg d : 0 <= valueOf (fabs d).
Proof.
  destruct d as [s|s| |s m e]; cbn [fabs SpecFloat.SFabs valueOf]; try discriminate.
  destruct (0 <=? e)%Z.
  - change 0 with (inject_Z 0). rewrite <- Zle_Qle.
    apply Z.mul_nonneg_nonneg; [lia|]. apply Z.pow_nonneg. lia.
  - discriminate.
Qed.

(** Below [10 ^ 21] the printed decimal of an absolute value is the nearest
    hundredth of its exact value. *)
Lemma toFixed2_fabs d :
  Qabs (valueOf (fabs d)) < inject_Z (10 ^ 21) ->
  toFixed2 (fabs d) = nearestHundredth (valueOf (fabs d)).
Proof.
  intros Hlt. unfold toFixed2. cbv zeta.
  destruct (Qle_bool (inject_Z (10 ^ 21)) (Qabs (valueOf (fabs d)))) eqn:Hbig.
  - apply Qle_bool_iff in Hbig. exfalso. exact (Qlt_not_le _ _ Hlt Hbig).
  - pose proof (valueOf_fabs_nonneg d) as Hnn. apply Qle_bool_iff in Hnn.
    now rewrite Hnn.
Qed.

(** A number whose absolute value exceeds the tolerance is positive or
    negative, and not both: it is neither a zero nor NaN. *)
Lemma fltb_fabs_sign d :
  fltb tolerance_usage (fabs d) = true ->
  (fltb zero d = true \/ fltb d zero = true) /\
  (fltb zero d = true -> fltb d zero = false) /\
  (fltb d zero = true -> fltb zero d = false).
Proof.
  destruct d as [s|s| |s m e]; try discriminate; intros _; destruct s;
    cbn; intuition discriminate.
Qed.

Lemma usageEntry_Some ts items newId e tx :
  usageEntry ts items newId e = Some tx <->
  currentStatus items e = Some OPEN /\
  fltb tolerance_usage (fabs (fsub (currentBalance items e) (toDouble (imp_amount e)))) = true /\
  tx = newItem e newId ts
         (toFixed2 (fabs (fsub (currentBalance items e) (toDouble (imp_amount e)))))
         (if fltb zero (fsub (currentBalance items e) (toDouble (imp_amount e)))
          then OUT else IN).
Proof.
  unfold usageEntry.
  set (diff := fsub (currentBalance items e) (toDouble (imp_amount e))).
  destruct (currentStatus items e) as [[|]|].
  - destruct (fltb tolerance_usage (fabs diff)) eqn:Hgt.
    + split.
      * intros [= <-]. repeat split.
      * intros (_ & _ & ->). reflexivity.
    + split; [discriminate|]. intros (_ & Hlt & _). discriminate.
  - split; [discriminate|]. intros (H & _). discriminate H.
  - split; [discriminate|]. intros (H & _). discriminate H.
Qed.

(** C2, as the code has it.  In CALCULATE_USAGE mode, for an imported entry
    whose code is OPEN, a transaction is posted exactly when the absolute
    value of the difference between the code's official balance and the
    imported ending balance, both in binary64 as the code holds them,
    strictly exceeds the tolerance 0.01; a difference equal to the tolerance
    or below it is skipped.  The difference of a posted entry is positive or
    negative; the posted type is OUT when it is positive and IN when it is
    negative, and the posted amount is the absolute difference as
    [toFixed(2)] prints it: below [10 ^ 21] a multiple of 0.01 within 0.005
    of its exact value, ties upwards.  Entries whose code is not OPEN are
    never posted, and the batch holds only the transactions so produced. *)
Theorem C2_usage_posting uuidv4 ts items :
  (forall e, currentBalance items e = officialBalance64 (imp_code e) items) /\
  (forall newId e,
     let diff := fsub (currentBalance items e) (toDouble (imp_amount e)) in
     (currentStatus items e = Some OPEN ->
        (is_Some (usageEntry ts items newId e) <->
         fltb tolerance_usage (fabs diff) = true)) /\
     (fltb tolerance_usage (fabs diff) = false -> usageEntry ts items newId e = None) /\
     (currentStatus items e <> Some OPEN -> usageEntry ts items newId e = None) /\
     (forall tx, usageEntry ts items newId e = Some tx ->
        (fltb zero diff = true \/ fltb diff zero = true) /\
        (fltb zero diff = true -> type tx = OUT) /\
        (fltb diff zero = true -> type tx = IN) /\
        amount tx = toFixed2 (fabs diff) /\
        (Qabs (valueOf (fabs diff)) < inject_Z (10 ^ 21) ->
           (exists n : Z, amount tx == inject_Z n * (1 # 100)) /\
           Qabs (amount tx - valueOf (fabs diff)) <= 1 # 200 /\
           valueOf (fabs diff) - (1 # 200) < amount tx) /\
        id tx = newId /\ createdAt tx = ts /\ code tx = imp_code e /\
        date tx = imp_date e /\ provider tx = imp_provider e /\
        phoneNumber tx = imp_phoneNumber e /\ orderNumber tx = imp_orderNumber e /\
        createdBy tx = imp_createdBy e)) /\
  (forall imported tx,
     In tx (writtenBy (handleImport uuidv4 ts items imported CALCULATE_USAGE)) <->
     exists j e, imported !! j = Some e /\
                 usageEntry ts items (uuidv4 j) e = Some tx).
Proof.
  split; [|split].
  - intros e. apply officialInventoryMap64_balance.
  - intros newId e diff. split; [|split; [|split]].
    + intros Hopen. split.
      * intros [tx Htx]. now apply usageEntry_Some in Htx as (_ & Hgt & _).
      * intros Hgt. eexists. apply usageEntry_Some. repeat split; assumption.
    + intros Hle. destruct (usageEntry ts items newId e) as [tx|] eqn:Htx; [|reflexivity].
      apply usageEntry_Some in Htx as (_ & Hgt & _). fold diff in Hgt. congruence.
    + intros Hnot. destruct (usageEntry ts items newId e) as [tx|] eqn:Htx; [|reflexivity].
      apply usageEntry_Some in Htx as (Hopen & _). contradiction.
    + intros tx Htx. apply usageEntry_Some in Htx as (_ & Hgt & ->).
      fold diff in Hgt |- *. cbn [type amount id createdAt code newItem date provider
                                  phoneNumber orderNumber createdBy].
      destruct (fltb_fabs_sign diff Hgt) as (Hsign & Hpos & Hneg).
      split; [exact Hsign|].
      split; [intros H; now rewrite H|].
      split; [intros H; now rewrite (Hneg H)|].
      split; [reflexivity|].
      split; [|repeat split].
      intros Hsmall. rewrite (toFixed2_fabs diff Hsmall).
      split; [eexists; apply nearestHundredth_hundredths|].
      split; [apply nearestHundredth_nearest|apply nearestHundredth_tie_up].
  - intros imported tx. apply handleImport_In.
Qed.

(** C2, as the specification words it, fails on the boundary: a code that is
    OPEN with official balance 0.01 and an imported ending balance of 0 has
    an absolute difference of exactly the tolerance, which is not below the
    tolerance, yet nothing is posted. *)
Lemma C2_boundary_counterexample :
  let items := [posting "C105" IN (1 # 100) 1] in
  let e := importedEntry "C105" 0 in
  let diff := fsub (currentBalance items e) (toDouble (imp_amount e)) in
  currentStatus items e = Some OPEN /\
  fabs diff = tolerance_usage /\
  fltb (fabs diff) tolerance_usage = false /\
  ~ (Qabs ((1 # 100) - imp_amount e) < 1 # 100) /\
  usageEntry 2 items "id0" e = None /\
  handleImport (fun _ => "id0") 2 items [e] CALCULATE_USAGE = NoNewRecords.
Proof.
  vm_compute. repeat split. intros H. discriminate H.
Qed.

(** ** The write batch and the store *)

Ltac fire_unfold := unfold mbind, Fire_bind, mret, Fire_ret, throw.

Lemma batchSet_committed b c item s :
  committed b = true -> batchSet b c item s = (Threw, s).
Proof.
  intros Hc. unfold batchSet. destruct (docKey item); [|reflexivity].
  now rewrite Hc.
Qed.

Lemma batchSet_fresh b c item k s :
  committed b = false -> docKey item = Some k ->
  batchSet b c item s
  = (Ok {| mutations := mutations b ++ [OpSet c k item]; committed := false |}, s).
Proof.
  intros Hc Hk. unfold batchSet. now rewrite Hk, Hc.
Qed.

Lemma uploadLoop_below c data : forall b n s,
  committed b = false ->
  Forall (fun d => is_Some (docKey d)) data ->
  (n + length data < 450)%nat ->
  uploadLoop c data b n s
  = (Ok ({| mutations := mutations b ++ setOps c data; committed := false |},
         (n + length data)%nat), s).
Proof.
  induction data as [|item rest IH]; intros b n s Hc Hkeys Hlen.
  - simpl. fire_unfold. rewrite app_nil_r, Nat.add_0_r.
    destruct b as [ms cm]. simpl in Hc. now rewrite Hc.
  - apply Forall_cons in Hkeys as [[k Hk] Hrest].
    cbn [uploadLoop]. fire_unfold. rewrite (batchSet_fresh _ _ _ k) by assumption.
    cbn [length] in Hlen.
    destruct (Nat.leb_spec 450 (S n)) as [Hge|_]; [lia|].
    rewrite IH; [|reflexivity|assumption|simpl; lia].
    cbn [mutations length setOps omap list_omap]. rewrite Hk. simpl.
    rewrite <- app_assoc. simpl. repeat f_equal. lia.
Qed.

Lemma uploadLoop_fill c rest data : forall b n s,
  committed b = false ->
  Forall (fun d => is_Some (docKey d)) data ->
  data <> [] ->
  (n + length data = 450)%nat ->
  uploadLoop c (data ++ rest) b n s
  = uploadLoop c rest
      {| mutations := mutations b ++ setOps c data; committed := true |} 0
      {| db := foldl applyOp (db s) (mutations b ++ setOps c data);
         commits := commits s ++ [mutations b ++ setOps c data] |}.
Proof.
  induction data as [|item data' IH]; intros b n s Hc Hkeys Hne Hlen; [done|].
  apply Forall_cons in Hkeys as [[k Hk] Hrest].
  cbn [uploadLoop app]. fire_unfold. rewrite (batchSet_fresh _ _ _ k) by assumption.
  cbn [length] in Hlen.
  assert (setOps c (item :: data') = OpSet c k item :: setOps c data') as Hops.
  { unfold setOps. cbn [omap list_omap]. now rewrite Hk. }
  rewrite Hops.
  destruct data' as [|item' data''].
  - simpl in Hlen. destruct (Nat.leb_spec 450 (S n)) as [_|Hlt]; [|lia].
    unfold batchCommit at 1. cbn [committed mutations]. reflexivity.
  - cbn [length] in Hlen. destruct (Nat.leb_spec 450 (S n)) as [Hge|_]; [lia|].
    rewrite IH; [|reflexivity|assumption|done|cbn [length]; lia].
    cbn [mutations]. now rewrite <- !app_assoc.
Qed.

(** Up to 450 records: one commit that holds every record once. *)
Lemma uploadCollection_upto_450 c data s :
  data <> [] -> (length data <= 450)%nat ->
  Forall (fun d => is_Some (docKey d)) data ->
  uploadCollection c (Some data) s
  = (Ok tt, {| db := foldl applyOp (db s) (setOps c data);
               commits := commits s ++ [setOps c data] |}).
Proof.
  intros Hne Hlen Hkeys. unfold uploadCollection.
  destruct data as [|d0 data0] eqn:Hdata; [done|]. rewrite <- Hdata in *.
  fire_unfold.
  destruct (decide (length data = 450)%nat) as [Heq|Hneq].
  - pose proof (uploadLoop_fill c [] data writeBatch 0 s eq_refl Hkeys Hne Heq) as Hfill.
    rewrite app_nil_r in Hfill. rewrite Hfill. reflexivity.
  - rewrite uploadLoop_below; [|reflexivity|assumption|simpl; lia].
    simpl (0 + _)%nat.
    destruct (Nat.ltb_spec 0 (length data)) as [_|Hz].
    + reflexivity.
    + destruct data; [done|simpl in Hz; lia].
Qed.

(** More than 450 records: the first 450 are committed, then the next
    [batch.set] meets the committed batch and throws. *)
Lemma uploadCollection_over_450 c data s :
  (450 < length data)%nat ->
  Forall (fun d => is_Some (docKey d)) (take 450 data) ->
  uploadCollection c (Some data) s
  = (Threw, {| db := foldl applyOp (db s) (setOps c (take 450 data));
               commits := commits s ++ [setOps c (take 450 data)] |}).
Proof.
  intros Hlen Hkeys. unfold uploadCollection.
  destruct data as [|d0 data0] eqn:Hdata; [simpl in Hlen; lia|]. rewrite <- Hdata in *.
  fire_unfold.
  rewrite <- (take_drop 450 data) at 1.
  rewrite (uploadLoop_fill c (drop 450 data) (take 450 data) writeBatch 0 s);
    [|reflexivity|assumption| |rewrite length_take; lia].
  - destruct (drop 450 data) as [|item rest] eqn:Hdrop.
    + apply (f_equal length) in Hdrop. rewrite length_drop in Hdrop.
      cbn [length] in Hdrop. lia.
    + cbn [uploadLoop]. fire_unfold. rewrite batchSet_committed by reflexivity.
      reflexivity.
  - intros Hnil. apply (f_equal length) in Hnil. rewrite length_take in Hnil.
    cbn [length] in Hnil. lia.
Qed.

Lemma backupRecord_key k :
  docKey (backupRecord k) = Some ("tx" +:+ pretty (Z.of_nat k)).
Proof. reflexivity. Qed.

(** C7 at 451 records.  The restore commits the first 450 records in one
    batch; the write for record 451 meets the batch that was already
    committed and throws, so that record reaches no committed batch and the
    restore ends with an error. *)
Theorem C7_restore_loses_records_beyond_450 :
  let data := backupRecord <$> seq 0 451 in
  let file := {| bk_items := Some data; bk_employees := Some [];
                 bk_schedule := Some []; bk_notes := Some [];
                 bk_users := Some [] |} in
  exists s',
    uploadCollection "inventory" (Some data) emptyStore = (Threw, s') /\
    handleRestoreData (Some file) true emptyStore = (RestoreError, s') /\
    commits s' = [setOps "inventory" (take 450 data)] /\
    length (setOps "inventory" (take 450 data)) = 450%nat /\
    data !! 450%nat = Some (backupRecord 450) /\
    docKey (backupRecord 450) = Some "tx450" /\
    db s' !! ("inventory", "tx450") = None.
Proof.
  intros data file.
  assert (uploadCollection "inventory" (Some data) emptyStore
          = (Threw, {| db := foldl applyOp ∅ (setOps "inventory" (take 450 data));
                       commits := [setOps "inventory" (take 450 data)] |})) as Hup.
  { apply (uploadCollection_over_450 "inventory" data emptyStore).
    - unfold data. rewrite length_fmap, length_seq. lia.
    - apply Forall_forall. intros d Hd.
      apply elem_of_take in Hd as (i & Hd & _).
      unfold data in Hd. apply list_lookup_fmap_Some in Hd as (k & -> & _).
      rewrite backupRecord_key. eauto. }
  eexists. split; [exact Hup|]. split; [|split; [|split; [|split; [|split]]]].
  - unfold handleRestoreData. fire_unfold. cbn [bk_items file]. now rewrite Hup.
  - reflexivity.
  - vm_compute. reflexivity.
  - reflexivity.
  - reflexivity.
  - vm_compute. reflexivity.
Qed.

(** ** Reset *)

Lemma deleteAll_fresh c keys : forall b s,
  committed b = false ->
  deleteAll b c keys s
  = (Ok {| mutations := mutations b ++ (OpDelete c <$> keys); committed := false |}, s).
Proof.
  induction keys as [|k keys IH]; intros b s Hc.
  - simpl. fire_unfold. rewrite app_nil_r. destruct b as [ms cm].
    simpl in Hc. now rewrite Hc.
  - cbn [deleteAll]. fire_unfold. unfold batchDelete. rewrite Hc. fire_unfold.
    rewrite IH by reflexivity. cbn [mutations fmap list_fmap].
    now rewrite <- app_assoc.
Qed.

Lemma foldl_delete_lookup c keys : forall (m : gmap (string * string) Doc) c' k',
  foldl applyOp m (OpDelete c <$> keys) !! (c', k')
  = if bool_decide (c' = c /\ k' ∈ keys) then None else m !! (c', k').
Proof.
  induction keys as [|k keys IH]; intros m c' k'.
  - simpl. rewrite bool_decide_eq_false_2; [reflexivity|].
    intros [_ H]. now apply not_elem_of_nil in H.
  - cbn [fmap list_fmap foldl]. rewrite IH. cbn [applyOp].
    destruct (decide (c' = c /\ k' ∈ keys)) as [Hin|Hnin].
    + rewrite !bool_decide_eq_true_2; [reflexivity| |exact Hin].
      destruct Hin as [-> Hin]. split; [reflexivity|now right].
    + rewrite (bool_decide_eq_false_2 _ Hnin).
      destruct (decide ((c, k) = (c', k'))) as [[= <- <-]|Hne].
      * rewrite lookup_delete_eq. rewrite bool_decide_eq_true_2; [reflexivity|].
        split; [reflexivity|left].
      * rewrite lookup_delete_ne by exact Hne.
        rewrite bool_decide_eq_false_2; [reflexivity|].
        intros [-> Hin]. apply elem_of_cons in Hin as [->|Hin]; [now apply Hne|].
        apply Hnin. now split.
Qed.

Lemma getDocs_complete c s k d :
  db s !! (c, k) = Some d ->
  k ∈ omap (fun '((c', k'), _) => if bool_decide (c' = c) then Some k' else None)
        (map_to_list (db s)).
Proof.
  intros Hk. apply list_elem_of_omap. exists ((c, k), d). split.
  - now apply elem_of_map_to_list.
  - simpl. now rewrite bool_decide_eq_true_2.
Qed.

Lemma clearColl_spec c s :
  exists s',
    clearColl c s = (Ok tt, s') /\
    forall c' k',
      db s' !! (c', k') = if bool_decide (c' = c) then None else db s !! (c', k').
Proof.
  unfold clearColl, getDocs. fire_unfold.
  rewrite deleteAll_fresh by reflexivity.
  unfold batchCommit. cbn [committed mutations app].
  eexists. split; [reflexivity|].
  intros c' k'. cbn [db]. change (mutations writeBatch) with (@nil WriteOp).
  rewrite app_nil_l, foldl_delete_lookup.
  destruct (decide (c' = c)) as [->|Hne].
  - rewrite (bool_decide_eq_true_2 (c = c)) by reflexivity.
    destruct (db s !! (c, k')) as [d|] eqn:Hd.
    + rewrite bool_decide_eq_true_2; [reflexivity|].
      split; [reflexivity|]. now apply (getDocs_complete c s k' d).
    + now destruct (bool_decide _).
  - rewrite (bool_decide_eq_false_2 (c' = c)) by exact Hne.
    rewrite bool_decide_eq_false_2; [reflexivity|]. now intros [? _].
Qed.

(** C8. A confirmed reset runs to completion and leaves no document in the
    inventory, schedule, notes and employees collections, while every
    document of the users collection (and of any other collection) is left
    as it was; a declined reset changes nothing. *)
Theorem C8_reset_clears_all_but_users s :
  (exists s',
     handleResetData true s = (Ok tt, s') /\
     (forall k, db s' !! ("inventory", k) = None) /\
     (forall k, db s' !! ("schedule", k) = None) /\
     (forall k, db s' !! ("notes", k) = None) /\
     (forall k, db s' !! ("employees", k) = None) /\
     (forall k, db s' !! ("users", k) = db s !! ("users", k)) /\
     (forall c k, c ∉ ["inventory"; "schedule"; "notes"; "employees"] ->
        db s' !! (c, k) = db s !! (c, k))) /\
  handleResetData false s = (Ok tt, s).
Proof.
  split; [|reflexivity].
  unfold handleResetData. fire_unfold.
  destruct (clearColl_spec "inventory" s) as (s1 & -> & H1).
  destruct (clearColl_spec "schedule" s1) as (s2 & -> & H2).
  destruct (clearColl_spec "notes" s2) as (s3 & -> & H3).
  destruct (clearColl_spec "employees" s3) as (s4 & -> & H4).
  exists s4. split; [reflexivity|].
  assert (forall c k, db s4 !! (c, k)
            = if bool_decide (c ∈ ["inventory"; "schedule"; "notes"; "employees"])
              then None else db s !! (c, k)) as Hall.
  { intros c k. rewrite H4, H3, H2, H1.
    destruct (decide (c ∈ ["inventory"; "schedule"; "notes"; "employees"]))
      as [Hin|Hin].
    - rewrite (bool_decide_eq_true_2 _ Hin).
      rewrite !elem_of_cons, elem_of_nil in Hin.
      destruct Hin as [->|[->|[->|[->|[]]]]]; reflexivity.
    - rewrite (bool_decide_eq_false_2 _ Hin).
      rewrite !elem_of_cons in Hin.
      rewrite !bool_decide_eq_false_2; [reflexivity|..]; intros ->; apply Hin; tauto. }
  repeat split; intros; rewrite Hall.
  - reflexivity.
  - reflexivity.
  - reflexivity.
  - reflexivity.
  - reflexivity.
  - now rewrite bool_decide_eq_false_2.
Qed.

(** ** Export *)

(** C10. The exported object has exactly the five keys items, employees,
    schedule, notes and users, in that order and each once, and each holds
    the current collection of the application state. *)
Theorem C10_export_bundles_all_collections st :
  (exportData st).*1 = ["items"; "employees"; "schedule"; "notes"; "users"] /\
  NoDup ((exportData st).*1) /\
  (forall key docs, (key, docs) ∈ exportData st <->
     (key = "items" /\ docs = StockDoc <$> st_items st) \/
     (key = "employees" /\ docs = EmployeeDoc <$> st_employees st) \/
     (key = "schedule" /\ docs = ScheduleDoc <$> st_schedule st) \/
     (key = "notes" /\ docs = NoteDoc <$> st_notes st) \/
     (key = "users" /\ docs = UserDoc <$> st_users st)).
Proof.
  split; [reflexivity|]. split.
  - cbn [exportData fmap list_fmap fst].
    repeat (apply NoDup_cons; split;
            [rewrite ?elem_of_cons, elem_of_nil; intros H;
             repeat (destruct H as [H|H]; [discriminate H|]); exact H|]).
    apply NoDup_nil_2.
  - intros key docs. unfold exportData. rewrite !elem_of_cons, elem_of_nil.
    split.
    + intros [[= -> ->]|[[= -> ->]|[[= -> ->]|[[= -> ->]|[[= -> ->]|[]]]]]]; tauto.
    + intros [[-> ->]|[[-> ->]|[[-> ->]|[[-> ->]|[-> ->]]]]]; tauto.
Qed.

(** ** Login *)

Lemma find_first {A : Type} (f : A -> bool) (l : list A) (x : A) :
  List.find f l = Some x <->
  exists before after,
    l = before ++ x :: after /\ Forall (fun y => f y = false) before /\ f x = true.
Proof.
  induction l as [|y l IH]; simpl.
  - split; [discriminate|]. intros (before & after & Heq & _).
    now destruct before.
  - destruct (f y) eqn:Hy.
    + split.
      * intros [= <-]. exists [], l. now repeat split.
      * intros (before & after & Heq & Hbefore & Hx).
        destruct before as [|b before]; simpl in Heq.
        -- now injection Heq as ->.
        -- injection Heq as <- _. apply Forall_cons in Hbefore as [Hb _]. congruence.
    + rewrite IH. split.
      * intros (before & after & -> & Hbefore & Hx).
        exists (y :: before), after. repeat split; [|exact Hx]. now constructor.
      * intros (before & after & Heq & Hbefore & Hx).
        destruct before as [|b before]; simpl in Heq.
        -- injection Heq as -> _. congruence.
        -- injection Heq as <- ->. apply Forall_cons in Hbefore as [_ Hbefore].
           now exists before, after.
Qed.

(** C9. [onLogin] is called with a user if and only if that user is the first
    one in the list whose username equals the entered one up to letter case
    and its stored password equals the entered password exactly; in every
    other case the error is shown and the password field is cleared, and a
    successful login leaves the form as it is. *)
Theorem C9_login_first_match_exact_password users form :
  let matches u := toLowerCase (username u) = toLowerCase (form_username form) in
  (forall u,
     fst (handleLogin users form) = Some u <->
     exists before after,
       users = before ++ u :: after /\
       Forall (fun v => ~ matches v) before /\
       matches u /\
       password u = form_password form) /\
  (fst (handleLogin users form) = None ->
     snd (handleLogin users form) = rejected form /\
     form_error (snd (handleLogin users form)) = Some "Invalid username or password." /\
     form_password (snd (handleLogin users form)) = "") /\
  (is_Some (fst (handleLogin users form)) -> snd (handleLogin users form) = form).
Proof.
  intros matches.
  set (found := List.find (sameUsername (form_username form)) users).
  assert (forall u, found = Some u <->
            exists before after,
              users = before ++ u :: after /\
              Forall (fun v => ~ matches v) before /\ matches u) as Hfirst.
  { intros u. unfold found. rewrite find_first. unfold sameUsername, matches.
    split; intros (before & after & Heq & Hbefore & Hu);
      exists before, after; (split; [exact Heq|]); split.
    - eapply Forall_impl; [exact Hbefore|]. intros v. apply bool_decide_eq_false.
    - now apply bool_decide_eq_true in Hu.
    - eapply Forall_impl; [exact Hbefore|]. intros v Hv. now apply bool_decide_eq_false.
    - now apply bool_decide_eq_true. }
  assert (forall u, (exists before after,
              users = before ++ u :: after /\
              Forall (fun v => ~ matches v) before /\ matches u /\
              password u = form_password form) <->
            found = Some u /\ password u = form_password form) as Hclaim.
  { intros u. rewrite Hfirst. split.
    - intros (before & after & ? & ? & ? & ?). eauto 6.
    - intros [(before & after & ? & ? & ?) ?]. eauto 7. }
  unfold handleLogin. fold found. clearbody found.
  destruct found as [user|].
  - destruct (decide (password user = form_password form)) as [Hpw|Hpw].
    + rewrite (bool_decide_eq_true_2 _ Hpw). cbn [fst snd]. split; [|split].
      * intros u. rewrite Hclaim. split; [now intros [= <-]|now intros [? _]].
      * discriminate.
      * reflexivity.
    + rewrite (bool_decide_eq_false_2 _ Hpw). cbn [fst snd]. split; [|split].
      * intros u. rewrite Hclaim. split; [discriminate|].
        intros [[= <-] Hpw']. contradiction.
      * now intros _.
      * intros [? H]. discriminate H.
  - cbn [fst snd]. split; [|split].
    + intros u. rewrite Hclaim. split; [discriminate|]. now intros [? _].
    + now intros _.
    + intros [? H]. discriminate H.
Qed.

(** ** Manual import: trimming and splitting *)

Lemma noTrailingWs_tail c s : noTrailingWs (c :: s) -> noTrailingWs s.
Proof.
  unfold noTrailingWs. destruct s as [|d s]; [done|]. now rewrite last_cons_cons.
Qed.

Lemma trimEnd_noTrailingWs s : noTrailingWs (trimEnd s).
Proof.
  induction s as [|c s IH]; simpl; [done|].
  destruct (trimEnd s) as [|k ks].
  - destruct (isWhiteSpace c) eqn:Hc; [done|exact Hc].
  - unfold noTrailingWs in *. now rewrite last_cons_cons.
Qed.

Lemma trimStart_head s :
  match trimStart s with
  | [] => True
  | c :: _ => isWhiteSpace c = false
  end.
Proof.
  induction s as [|c s IH]; simpl; [done|].
  destruct (isWhiteSpace c) eqn:Hc; [exact IH|exact Hc].
Qed.

Lemma trimEnd_head c s :
  isWhiteSpace c = false -> exists t, trimEnd (c :: s) = c :: t.
Proof.
  intros Hc. simpl. destruct (trimEnd s) as [|k ks]; rewrite ?Hc; eauto.
Qed.

(** A trimmed line is empty or starts and ends with a non-blank character. *)
Lemma trim_shape s :
  trim s = [] \/
  exists c t, trim s = c :: t /\ isWhiteSpace c = false /\ noTrailingWs (c :: t).
Proof.
  unfold trim. pose proof (trimStart_head s) as Hhead.
  pose proof (trimEnd_noTrailingWs (trimStart s)) as Hlast.
  destruct (trimStart s) as [|c rest]; [now left|].
  destruct (trimEnd_head c rest Hhead) as [t Ht].
  right. exists c, t. rewrite Ht in *. now repeat split.
Qed.

Lemma splitWs_not_nil b s : splitWs b s <> [].
Proof.
  revert b. induction s as [|c s IH]; intros b; simpl; [done|].
  destruct (isWhiteSpace c).
  - destruct b; [apply IH|done].
  - unfold consFirst. now destruct (splitWs false s).
Qed.

Lemma splitWs_pieces s :
  noTrailingWs s ->
  (forall h r, splitWs false s = h :: r -> Forall (fun f => f <> []) r) /\
  (s <> [] -> Forall (fun f => f <> []) (splitWs true s)).
Proof.
  induction s as [|c s IH]; intros Hlast.
  - split; [|done]. intros h r [= _ <-]. constructor.
  - specialize (IH (noTrailingWs_tail _ _ Hlast)) as [IHfalse IHtrue].
    simpl. destruct (isWhiteSpace c) eqn:Hc.
    + assert (s <> []) as Hne.
      { intros ->. unfold noTrailingWs in Hlast. simpl in Hlast. congruence. }
      split.
      * intros h r [= _ <-]. now apply IHtrue.
      * intros _. now apply IHtrue.
    + destruct (splitWs false s) as [|h' r'] eqn:Hsplit.
      { now apply splitWs_not_nil in Hsplit. }
      simpl. split.
      * intros h r [= _ <-]. now apply (IHfalse h').
      * intros _. constructor; [done|]. now apply (IHfalse h').
Qed.

(** No field of a non-blank line is empty. *)
Lemma fieldsOf_nonempty line :
  trim line <> [] -> Forall (fun f => f <> []) (fieldsOf line).
Proof.
  intros Hne. unfold fieldsOf.
  destruct (trim_shape line) as [Hnil|(c & t & -> & Hc & Hlast)]; [done|].
  simpl. rewrite Hc.
  destruct (splitWs false t) as [|h r] eqn:Hsplit.
  { now apply splitWs_not_nil in Hsplit. }
  simpl. constructor; [done|].
  now apply (proj1 (splitWs_pieces t (noTrailingWs_tail _ _ Hlast)) h).
Qed.

Lemma fieldsOf_not_nil line : fieldsOf line <> [].
Proof. apply splitWs_not_nil. Qed.

Lemma parseLine_fields displayDate mode line :
  trim line <> [] ->
  parseLine displayDate mode line =
    match mode with
    | AUDIT_SYSTEM => parseAuditLine displayDate (fieldsOf line)
    | CALCULATE_USAGE => parseUsageLine displayDate (fieldsOf line)
    | ADD_STOCK => parseStockLine (fieldsOf line)
    end.
Proof.
  intros Hne. unfold parseLine, fieldsOf. now destruct (trim line).
Qed.

Lemma parseLine_blank displayDate mode line :
  trim line = [] -> parseLine displayDate mode line = None.
Proof. intros Hnil. unfold parseLine. now rewrite Hnil. Qed.

Lemma isNaN_true x : isNaN x = true <-> x = JsNaN.
Proof. destruct x; simpl; split; congruence. Qed.

Lemma parseAuditLine_None displayDate parts :
  parseAuditLine displayDate parts = None <->
  (length parts < 3)%nat \/ parseFloat (dropCommas (default [] (last parts))) = JsNaN.
Proof.
  unfold parseAuditLine.
  destruct (Nat.ltb_spec (length parts) 3) as [Hlt|Hge].
  - split; [now left|done].
  - destruct (isNaN (parseFloat (dropCommas (default [] (last parts))))) eqn:Hnan.
    + apply isNaN_true in Hnan. split; [now right|done].
    + split; [discriminate|]. intros [Hlt|Hn]; [lia|].
      apply isNaN_true in Hn. congruence.
Qed.

Lemma parseStockLine_short parts :
  (length parts < 5)%nat -> parseStockLine parts = None.
Proof.
  intros Hlt. unfold parseStockLine.
  destruct (Nat.ltb_spec (length parts) 5) as [_|Hge]; [reflexivity|lia].
Qed.

Lemma parseStockLine_numeric parts :
  (5 <= length parts)%nat ->
  exists item, parseStockLine parts = Some item /\
               p_amount item = parseFloat (default [] (parts !! 4%nat)).
Proof.
  intros Hge. unfold parseStockLine.
  destruct (Nat.ltb_spec (length parts) 5) as [Hlt|_]; [lia|].
  eexists. split; reflexivity.
Qed.

Lemma parseUsageLine_None displayDate parts :
  Forall (fun f => f <> []) parts -> parts <> [] ->
  parseUsageLine displayDate parts = None <-> (length parts < 2)%nat.
Proof.
  intros Hall Hne. unfold parseUsageLine.
  destruct parts as [|a [|b rest]]; [done| |].
  - simpl. destruct a; (split; [simpl; lia|done]).
  - apply Forall_cons in Hall as [Ha Hall]. apply Forall_cons in Hall as [Hb _].
    cbn [lookup list_lookup]. destruct a as [|a0 a]; [done|]. destruct b as [|b0 b]; [done|].
    split; [discriminate|]. cbn [length]. lia.
Qed.

Lemma parseUsageLine_amount displayDate parts item :
  parseUsageLine displayDate parts = Some item ->
  p_amount item =
    if (4 <=? length parts)%nat then
      match parseFloat (default [] (last parts)) with
      | JsNaN => JsFinite 0
      | val => val
      end
    else JsFinite 0.
Proof.
  unfold parseUsageLine.
  destruct (parts !! 0%nat) as [[|c cs]|]; try discriminate.
  destruct (parts !! 1%nat) as [[|p ps]|]; try discriminate.
  intros [= <-]. cbn [p_amount].
  change (match length parts with S (S (S (S _))) => true | _ => false end)
    with (4 <=? length parts)%nat.
  destruct (4 <=? length parts)%nat; [|reflexivity].
  now destruct (parseFloat (default [] (last parts))).
Qed.

Lemma omap_nil_iff {A B : Type} (f : A -> option B) (l : list A) :
  omap f l = [] <-> Forall (fun x => f x = None) l.
Proof.
  induction l as [|x l IH]; simpl.
  - split; [constructor|reflexivity].
  - destruct (f x) eqn:Hx.
    + split; [discriminate|]. intros H. apply Forall_cons in H as [H _]. congruence.
    + rewrite IH. split; [now constructor|]. now intros [_ ?]%Forall_cons.
Qed.

(** C6, as the code has it.  A blank line yields no item.  For a non-blank
    line, whose whitespace-separated fields are all non-empty: in
    AUDIT_SYSTEM mode it yields no item exactly when it has fewer than three
    fields or its last field, commas removed, does not start with a number;
    in ADD_STOCK mode it yields no item when it has fewer than five fields
    and yields one when it has at least five and the fifth starts with a
    number; in CALCULATE_USAGE mode it yields no item exactly when it has
    fewer than two fields, and a line with at least a code and a provider
    yields an item whose amount is 0 when there are fewer than four fields
    or the last field does not start with a number.  The lines that yield an
    item are imported, in order, whatever the other lines are; the error is
    reported exactly when no line yields an item. *)
Theorem C6_manual_parse_skips displayDate mode :
  (forall line, trim line = [] -> parseLine displayDate mode line = None) /\
  (forall line, trim line <> [] ->
     Forall (fun f => f <> []) (fieldsOf line) /\
     match mode with
     | AUDIT_SYSTEM =>
         parseLine displayDate mode line = None <->
         (length (fieldsOf line) < 3)%nat \/
         parseFloat (dropCommas (default [] (last (fieldsOf line)))) = JsNaN
     | ADD_STOCK =>
         ((length (fieldsOf line) < 5)%nat -> parseLine displayDate mode line = None) /\
         ((5 <= length (fieldsOf line))%nat ->
          parseFloat (default [] (fieldsOf line !! 4%nat)) <> JsNaN ->
          exists item, parseLine displayDate mode line = Some item /\
                       p_amount item = parseFloat (default [] (fieldsOf line !! 4%nat)))
     | CALCULATE_USAGE =>
         (parseLine displayDate mode line = None <-> (length (fieldsOf line) < 2)%nat) /\
         (forall item, parseLine displayDate mode line = Some item ->
            p_amount item =
              if (4 <=? length (fieldsOf line))%nat then
                match parseFloat (default [] (last (fieldsOf line))) with
                | JsNaN => JsFinite 0
                | val => val
                end
              else JsFinite 0)
     end) /\
  (forall inputText,
     let lines := splitLines (trim inputText) in
     (Forall (fun line => parseLine displayDate mode line = None) lines <->
        exists message, handleManualParse displayDate mode inputText = ParseError message) /\
     (~ Forall (fun line => parseLine displayDate mode line = None) lines <->
        handleManualParse displayDate mode inputText
        = Imported (omap (parseLine displayDate mode) lines) mode)).
Proof.
  split; [|split].
  - intros line. apply parseLine_blank.
  - intros line Hne. split; [now apply fieldsOf_nonempty|].
    rewrite (parseLine_fields displayDate mode line Hne). destruct mode.
    + split; [apply parseStockLine_short|].
      intros Hge _. now apply parseStockLine_numeric.
    + split.
      * apply parseUsageLine_None; [now apply fieldsOf_nonempty|apply fieldsOf_not_nil].
      * apply parseUsageLine_amount.
    + apply parseAuditLine_None.
  - intros inputText lines. unfold handleManualParse. fold lines.
    rewrite <- (omap_nil_iff (parseLine displayDate mode) lines).
    destruct (omap (parseLine displayDate mode) lines) as [|item rest]; split; split.
    + intros _. eauto.
    + reflexivity.
    + intros H. now contradiction H.
    + discriminate.
    + discriminate.
    + intros [message H]. discriminate H.
    + reflexivity.
    + intros _. discriminate.
Qed.

(** C6, as the specification words it, fails in CALCULATE_USAGE mode, whose
    format is "Code | Provider | Phone | Ending Balance": a line with only
    two fields, and a line whose amount field is not numeric, each yield an
    item with amount 0, and no error is reported although every line is
    malformed. *)
Lemma C6_usage_defaults_counterexample :
  let short := String.list_ascii_of_string "C105 Celcom" in
  let nonNumeric := String.list_ascii_of_string "C105 Celcom 0138456954 abc" in
  length (fieldsOf short) = 2%nat /\
  parseFloat (default [] (last (fieldsOf nonNumeric))) = JsNaN /\
  handleManualParse "30-Nov-2025" CALCULATE_USAGE short
    = Imported [{| p_date := "30-Nov-2025"; p_code := "C105"; p_provider := "Celcom";
                   p_phoneNumber := None; p_amount := JsFinite 0 |}] CALCULATE_USAGE /\
  handleManualParse "30-Nov-2025" CALCULATE_USAGE nonNumeric
    = Imported [{| p_date := "30-Nov-2025"; p_code := "C105"; p_provider := "Celcom";
                   p_phoneNumber := Some "0138456954"; p_amount := JsFinite 0 |}]
        CALCULATE_USAGE.
Proof. repeat split. Qed.

(** In ADD_STOCK mode the amount field is not checked: a five-field line
    whose amount is not numeric is imported with amount NaN, where the audit
    format drops such a line. *)
Remark stock_line_keeps_NaN_amount :
  handleManualParse "30-Nov-2025" ADD_STOCK
    (String.list_ascii_of_string "30-Nov-2025 C105 Celcom 0138456954 abc")
  = Imported [{| p_date := "30-Nov-2025"; p_code := "C105"; p_provider := "Celcom";
                 p_phoneNumber := Some "0138456954"; p_amount := JsNaN |}] ADD_STOCK.
Proof. reflexivity. Qed.

(** ** The theorems at concrete inputs *)

(** Code C105 is OPEN with official balance 100; an imported ending balance
    of 70.25 posts an OUT of 29.75. *)
Lemma C2_usage_posting_witness :
  let items := [posting "C105" IN 100 1] in
  let e := importedEntry "C105" (7025 # 100) in
  is_Some (usageEntry 2 items "id0" e) /\
  (forall tx, usageEntry 2 items "id0" e = Some tx ->
     type tx = OUT /\ amount tx == 2975 # 100).
Proof.
  intros items e.
  pose proof (C2_usage_posting (fun _ => "id0") 2 items) as (_ & Hentry & _).
  destruct (Hentry "id0" e) as (Hopen & _ & _ & Htx).
  split.
  - apply Hopen; [reflexivity|]. vm_compute. reflexivity.
  - intros tx H. destruct (Htx tx H) as (_ & Hout & _ & Hamount & _).
    split; [apply Hout; vm_compute; reflexivity|].
    rewrite Hamount. vm_compute. reflexivity.
Defined.

(** An audit of two entries against a ledger with IN 100 and OUT 30: a
    supplied balance of 70 matches, one of 69.9 does not. *)
Lemma C3_audit_flags_from_tolerance_witness :
  let items := [posting "C105" IN 100 1; posting "C105" OUT 30 2] in
  let imported := [importedEntry "C105" 70; importedEntry "C105" (699 # 10)] in
  exists r1 r2,
    handleImport (fun _ => "id0") 3 items imported AUDIT_SYSTEM = AuditGenerated [r1; r2] /\
    status r1 = MATCH /\ status r2 = MISMATCH.
Proof.
  intros items imported.
  destruct (C3_audit_flags_from_tolerance (fun _ => "id0") 3 items imported)
    as (results & Hrun & _ & Hall).
  destruct (Hall 0%nat (importedEntry "C105" 70) eq_refl)
    as (r1 & Hr1 & _ & _ & _ & _ & _ & _ & Hmatch).
  destruct (Hall 1%nat (importedEntry "C105" (699 # 10)) eq_refl)
    as (r2 & Hr2 & _ & _ & _ & _ & _ & Hmismatch & _).
  cbn [handleImport] in Hrun. injection Hrun as <-.
  cbn in Hr1, Hr2. injection Hr1 as <-. injection Hr2 as <-.
  eexists _, _. split; [reflexivity|]. split.
  - apply Hmatch. vm_compute. reflexivity.
  - apply Hmismatch. vm_compute. reflexivity.
Defined.

(** R101 has no postings and C105 was closed by an OUT: both get an IN
    transaction; C200, still OPEN, gets none, and neither does the entry
    "constructor", which has no postings either. *)
Lemma C5_add_stock_only_when_closed_witness :
  let items := [posting "C105" IN 100 1; posting "C105" OUT 100 2;
                posting "C200" IN 5 3] in
  addStockEntry 4 items "id0" (importedEntry "R101" 50)
    = Some (newItem (importedEntry "R101" 50) "id0" 4 50 IN) /\
  addStockEntry 4 items "id1" (importedEntry "C105" 20)
    = Some (newItem (importedEntry "C105" 20) "id1" 4 20 IN) /\
  addStockEntry 4 items "id2" (importedEntry "C200" 20) = None /\
  addStockEntry 4 items "id3" (importedEntry "constructor" 50) = None.
Proof.
  intros items.
  pose proof (C5_add_stock_only_when_closed (fun _ => "id0") 4 items)
    as (Hsome & Hnone & Hunknown & _ & Hproto & _).
  split; [|split; [|split]].
  - apply Hsome. split; [|repeat split]. apply Hunknown.
    + intros tx [<-|[<-|[<-|[]]]]; discriminate.
    + vm_compute. intros H. repeat (apply elem_of_cons in H as [H|H]; [discriminate|]).
      now apply elem_of_nil in H.
  - apply Hsome. split; [reflexivity|repeat split].
  - apply Hnone. reflexivity.
  - apply Hproto.
    + intros tx [<-|[<-|[<-|[]]]]; discriminate.
    + apply elem_of_cons. now left.
Defined.

(** A usage line with one field is skipped; an audit line whose last field
    is not a number is skipped; a blank line is skipped. *)
Lemma C6_manual_parse_skips_witness :
  parseLine "30-Nov-2025" CALCULATE_USAGE (String.list_ascii_of_string "C105") = None /\
  parseLine "30-Nov-2025" AUDIT_SYSTEM (String.list_ascii_of_string "1. C105- Celcom n/a") = None /\
  parseLine "30-Nov-2025" ADD_STOCK (String.list_ascii_of_string "   ") = None.
Proof.
  split; [|split].
  - pose proof (C6_manual_parse_skips "30-Nov-2025" CALCULATE_USAGE) as (_ & Hline & _).
    destruct (Hline (String.list_ascii_of_string "C105")) as (_ & Hnone & _); [discriminate|].
    apply Hnone. vm_compute. lia.
  - pose proof (C6_manual_parse_skips "30-Nov-2025" AUDIT_SYSTEM) as (_ & Hline & _).
    destruct (Hline (String.list_ascii_of_string "1. C105- Celcom n/a")) as (_ & Hnone);
      [discriminate|].
    apply Hnone. right. reflexivity.
  - pose proof (C6_manual_parse_skips "30-Nov-2025" ADD_STOCK) as (Hblank & _).
    apply Hblank. reflexivity.
Defined.

(** The default administrator logs in with any letter case of the username
    and the exact password. *)
Lemma C9_login_first_match_exact_password_witness :
  let gjweng := {| user_id := "u1"; username := "gjweng"; password := "123456@abc";
                   name := "Gjweng"; role := admin; permissions := None |} in
  let form := {| form_username := "GJWeng"; form_password := "123456@abc";
                 form_error := None |} in
  fst (handleLogin [gjweng] form) = Some gjweng /\
  snd (handleLogin [gjweng] form) = form.
Proof.
  intros gjweng form.
  pose proof (C9_login_first_match_exact_password [gjweng] form) as (Hin & _ & Hform).
  assert (fst (handleLogin [gjweng] form) = Some gjweng) as Hlogin.
  { apply Hin. exists [], []. repeat split. constructor. }
  split; [exact Hlogin|]. apply Hform. rewrite Hlogin. eauto.
Defined.

(** ** The model on small inputs *)

Example status_follows_latest_posting :
  accountStatusMap [posting "C105" IN 100 1; posting "C105" OUT 30 3;
                    posting "R101" IN 5 4; posting "C105" TEMP_USE 20 2] !! "C105"
  = Some CLOSED.
Proof. reflexivity. Qed.

(** Postings of one import batch share their timestamp; the later one in
    list order decides. *)
Example status_on_equal_timestamps :
  accountStatusMap [posting "C105" OUT 30 7; posting "C105" IN 100 7] !! "C105" = Some OPEN /\
  accountStatusMap [posting "C105" IN 100 7; posting "C105" OUT 30 7] !! "C105" = Some CLOSED.
Proof. split; reflexivity. Qed.

Example report_row_balances :
  snd (accountRun [posting "C105" IN 100 1; posting "C105" OUT 30 2;
                   posting "C105" TEMP_USE 20 3])
  = [{| rr_id := "tx3"; rr_date := "30-Nov-2025"; rr_orderNumber := "N/A";
        rr_code := "C105";
        rr_amount := 20; balanceBefore := 0 + 100 - 30;
        balanceAfter := 0 + 100 - 30 - 20; rr_createdAt := 3;
        rr_createdBy := "System" |}].
Proof. reflexivity. Qed.

(** [toFixed(2)] rounds the exact value of the binary64 number: 1.005 is
    held as a value just below it and prints 1.00, 0.125 is held exactly
    and prints 0.13. *)
Example toFixed2_rounds_the_binary_value :
  toFixed2 (toDouble (1234 # 1000)) == 123 # 100 /\
  toFixed2 (toDouble (1005 # 1000)) == 100 # 100 /\
  toFixed2 (toDouble (125 # 1000)) == 13 # 100 /\
  toFixed2 (toDouble (5 # 1000)) == 1 # 100.
Proof. vm_compute. repeat split. Qed.

(** Rounding decides next to a tolerance.  The audit of a balance 70.05
    against 70 computes a difference just below 0.05 and reports MATCH; the
    usage import of an ending balance 100 against a balance of 100.01
    computes a difference just above 0.01 and posts an OUT of 0.01. *)
Example tolerance_on_rounded_differences :
  status (auditEntry (officialInventoryMap64 [posting "C105" IN (7005 # 100) 1])
                     (importedEntry "C105" 70)) = MATCH /\
  (amount <$> usageEntry 2 [posting "C105" IN (10001 # 100) 1] "id0"
                (importedEntry "C105" 100)) = Some (1 # 100) /\
  (type <$> usageEntry 2 [posting "C105" IN (10001 # 100) 1] "id0"
              (importedEntry "C105" 100)) = Some OUT.
Proof. vm_compute. repeat split. Qed.

Example binary64_sums :
  fadd (toDouble (1 # 10)) (toDouble (2 # 10)) <> toDouble (3 # 10) /\
  toDouble (1 # 10) = SpecFloat.S754_finite false 7205759403792794 (-56) /\
  toDouble (inject_Z (2 ^ 53 + 1)) = toDouble (inject_Z (2 ^ 53)).
Proof. vm_compute. repeat split. discriminate. Qed.

Example toLowerCase_ascii : toLowerCase "GJWeng-01" = "gjweng-01".
Proof. reflexivity. Qed.

Example login_password_is_case_sensitive :
  let gjweng := {| user_id := "u1"; username := "gjweng"; password := "123456@abc";
                   name := "Gjweng"; role := admin; permissions := None |} in
  handleLogin [gjweng]
    {| form_username := "gjweng"; form_password := "123456@ABC"; form_error := None |}
  = (None, {| form_username := "gjweng"; form_password := "";
              form_error := Some "Invalid username or password." |}).
Proof. reflexivity. Qed.

Example splitWs_runs_of_blanks :
  str <$> splitWs false (String.list_ascii_of_string " a  b ") = [""; "a"; "b"; ""] /\
  str <$> fieldsOf (String.list_ascii_of_string " a  b ") = ["a"; "b"].
Proof. split; reflexivity. Qed.

Example parseFloat_prefixes :
  parseFloat (String.list_ascii_of_string "abc") = JsNaN /\
  parseFloat (String.list_ascii_of_string ".") = JsNaN /\
  parseFloat (String.list_ascii_of_string "-Infinity") = JsInfinity true /\
  (exists q, parseFloat (String.list_ascii_of_string "12.5abc") = JsFinite q /\ q == 125 # 10) /\
  (exists q, parseFloat (String.list_ascii_of_string "-.5e3") = JsFinite q /\ q == -500) /\
  (exists q, parseFloat (String.list_ascii_of_string "1e") = JsFinite q /\ q == 1).
Proof. repeat split; eexists; split; reflexivity. Qed.

Example audit_lines_of_the_placeholder :
  handleManualParse "30-Nov-2025" AUDIT_SYSTEM
    (String.list_ascii_of_string "1. R101- Temp01 20,000.00" ++ ["010"%char]
     ++ String.list_ascii_of_string "2. C315- 01119938648 Celcom 942.38" ++ ["010"%char]
     ++ String.list_ascii_of_string "total: n/a")
  = Imported
      [{| p_date := "30-Nov-2025"; p_code := "R101"; p_provider := "System";
          p_phoneNumber := Some "Temp01";
          p_amount := parseFloat (String.list_ascii_of_string "20000.00") |};
       {| p_date := "30-Nov-2025"; p_code := "C315"; p_provider := "Celcom";
          p_phoneNumber := Some "01119938648";
          p_amount := parseFloat (String.list_ascii_of_string "942.38") |}]
      AUDIT_SYSTEM.
Proof. reflexivity. Qed.

(** A restore of 450 records commits them in one batch. *)
Example restore_of_450_records :
  uploadCollection "inventory" (Some (backupRecord <$> seq 0 450)) emptyStore
  = (Ok tt,
     {| db := foldl applyOp ∅ (setOps "inventory" (backupRecord <$> seq 0 450));
        commits := [setOps "inventory" (backupRecord <$> seq 0 450)] |}).
Proof.
  apply (uploadCollection_upto_450 "inventory" _ emptyStore).
  - discriminate.
  - rewrite length_fmap, length_seq. lia.
  - apply Forall_fmap, Forall_forall. intros k _. simpl. eauto.
Qed.

(** * Properties of the further code *)

(** ** Status map: domain and order of the postings *)


Lemma ledger_Permutation c items items' :
  Permutation items items' -> Permutation (ledger c items) (ledger c items').
Proof.
  unfold ledger. induction 1 as [|x l l' _ IH|x y l|l l' l'' _ IH1 _ IH2]; simpl.
  - constructor.
  - destruct (bool_decide (code x = c)); [now constructor|exact IH].
  - destruct (bool_decide (code x = c)), (bool_decide (code y = c));
      try reflexivity. apply perm_swap.
  - now rewrite IH1.
Qed.

Lemma NoDup_map_inj {A B : Type} (f : A -> B) (l : list A) x y :
  NoDup (map f l) -> In x l -> In y l -> f x = f y -> x = y.
Proof.
  induction l as [|a l IH]; intros Hnd Hx Hy Hf; [contradiction|].
  simpl in Hnd. apply NoDup_cons in Hnd as [Hna Hnd].
  destruct Hx as [<-|Hx], Hy as [<-|Hy].
  - reflexivity.
  - exfalso. apply Hna. rewrite Hf. apply list_elem_of_In. now apply in_map.
  - exfalso. apply Hna. rewrite <- Hf. apply list_elem_of_In. now apply in_map.
  - now apply IH.
Qed.

(** X2. The derived status of a code does not depend on the order in which
    the store delivers the inventory, provided the postings of that code
    carry pairwise different creation times. *)
Theorem accountStatusMap_order_independent items items' c :
  Permutation items items' ->
  NoDup (map createdAt (ledger c items)) ->
  accountStatusMap items' !! c = accountStatusMap items !! c.
Proof.
  intros Hperm Hnd. rewrite !accountStatusMap_lookup. unfold statusOfGroup.
  pose proof (ledger_Permutation c items items' Hperm) as Hl.
  destruct (lastTx (ledger c items)) as [tx|] eqn:Htx.
  - destruct (lastTx_is_Some (ledger c items')) as [tx' Htx'].
    { intros Hnil. rewrite Hnil in Hl. apply Permutation_nil_r in Hl.
      unfold lastTx in Htx. now rewrite Hl in Htx. }
    rewrite Htx'. simpl.
    apply lastTx_newest in Htx as [Hin Hmax].
    apply lastTx_newest in Htx' as [Hin' Hmax'].
    apply (Permutation_in _ (Permutation_sym Hl)) in Hin'.
    assert (tx' = tx) as ->; [|reflexivity].
    apply (NoDup_map_inj createdAt (ledger c items)); try assumption.
    apply Z.le_antisymm.
    + apply Hmax, Hin'.
    + apply Hmax'. apply (Permutation_in _ Hl), Hin.
  - unfold lastTx in Htx. apply last_None in Htx.
    assert (ledger c items = []) as Hnil.
    { apply Permutation_nil. rewrite <- Htx. apply sortByCreatedAt_perm. }
    rewrite Hnil in Hl. apply Permutation_nil in Hl. now rewrite Hl.
Qed.

Lemma accountStatusMap_order_independent_witness :
  accountStatusMap [posting "C105" OUT 30 2; posting "C105" IN 100 1] !! "C105"
  = accountStatusMap [posting "C105" IN 100 1; posting "C105" OUT 30 2] !! "C105".
Proof.
  apply accountStatusMap_order_independent.
  - apply perm_swap.
  - apply NoDup_ListNoDup. vm_compute. repeat constructor; simpl; intuition discriminate.
Defined.

(** ** uniqueCodes *)

Lemma addCode_elem codes item c :
  c ∈ addCode codes item <-> c ∈ codes \/ c = code item.
Proof.
  unfold addCode. case_bool_decide as Hin.
  - split; [now left|]. intros [H| ->]; assumption.
  - rewrite elem_of_app, list_elem_of_singleton. reflexivity.
Qed.

Lemma addCode_NoDup codes item : NoDup codes -> NoDup (addCode codes item).
Proof.
  intros Hnd. unfold addCode. case_bool_decide as Hin; [exact Hnd|].
  apply NoDup_app. split; [exact Hnd|]. split.
  - intros x Hx Hx'. apply list_elem_of_singleton in Hx'. now subst.
  - apply NoDup_singleton.
Qed.

Lemma foldl_addCode items : forall codes,
  NoDup codes ->
  NoDup (foldl addCode codes items) /\
  forall c, c ∈ foldl addCode codes items <->
            c ∈ codes \/ exists tx, In tx items /\ code tx = c.
Proof.
  induction items as [|i items IH]; intros codes Hnd; simpl.
  - split; [exact Hnd|]. intros c. split; [now left|].
    intros [H|(tx & [] & _)]. exact H.
  - destruct (IH (addCode codes i) (addCode_NoDup codes i Hnd)) as [Hnd' Hmem].
    split; [exact Hnd'|]. intros c. rewrite Hmem, addCode_elem. split.
    + intros [[H| ->]|(tx & Hin & Hc)]; [now left| |]; right; eauto.
    + intros [H|(tx & [<-|Hin] & Hc)]; [now left; left|left; right; now symmetry|].
      right. eauto.
Qed.

Lemma insertCode_perm c l : Permutation (insertCode c l) (c :: l).
Proof.
  induction l as [|d l IH]; simpl; [reflexivity|].
  destruct (String.leb c d); [reflexivity|].
  rewrite IH. apply perm_swap.
Qed.

Lemma sortCodes_perm l : Permutation (sortCodes l) l.
Proof.
  induction l as [|c l IH]; simpl; [reflexivity|].
  rewrite insertCode_perm. now constructor.
Qed.

Lemma insertCode_sorted c l :
  Sorted (fun a b => String.leb a b = true) l ->
  Sorted (fun a b => String.leb a b = true) (insertCode c l).
Proof.
  induction 1 as [|d l Hs IH Hhd]; simpl.
  - repeat constructor.
  - destruct (String.leb c d) eqn:Hcd.
    + constructor; [now constructor|]. now constructor.
    + constructor; [exact IH|].
      assert (String.leb d c = true) as Hdc.
      { destruct (String.leb_total c d) as [H|H]; [congruence|exact H]. }
      destruct l as [|e l]; simpl.
      * now constructor.
      * destruct (String.leb c e); constructor; [exact Hdc|].
        now inversion Hhd.
Qed.

(** X3. The codes offered by the transaction form are exactly the codes that
    occur in the inventory, each once, in ascending order. *)
Theorem uniqueCodes_sorted_distinct items :
  NoDup (uniqueCodes items) /\
  Sorted (fun a b => String.leb a b = true) (uniqueCodes items) /\
  (forall c, In c (uniqueCodes items) <-> exists tx, In tx items /\ code tx = c).
Proof.
  unfold uniqueCodes, codesOf.
  destruct (foldl_addCode items [] (NoDup_nil_2 (A:=string))) as [Hnd Hmem].
  split; [|split].
  - apply (NoDup_Permutation_proper _ _ (sortCodes_perm _)), Hnd.
  - generalize (foldl addCode [] items). intros l.
    induction l as [|c l IH]; simpl; [constructor|now apply insertCode_sorted].
  - intros c. rewrite <- list_elem_of_In, (sortCodes_perm _), Hmem.
    split; [|now right]. intros [H|H]; [|exact H]. now apply elem_of_nil in H.
Qed.

(** ** Recording a pending order *)




(** A code's status follows a type [st] as soon as every posting of the code
    either has that status or is older than another posting of the code. *)
Lemma status_of_unsuperseded items c st :
  (exists tx, In tx items /\ code tx = c) ->
  (forall y, In y items -> code y = c ->
     statusOfType (type y) = st \/
     exists z, In z items /\ code z = c /\ (createdAt y < createdAt z)%Z) ->
  accountStatusMap items !! c = Some st.
Proof.
  intros (tx0 & Hin0 & Hc0) Hall.
  rewrite accountStatusMap_lookup. unfold statusOfGroup.
  destruct (lastTx_is_Some (ledger c items)) as [tx Htx].
  { now apply (ledger_nonempty c items tx0). }
  rewrite Htx. simpl. f_equal.
  apply lastTx_newest in Htx as [Hin Hmax]. apply ledger_In in Hin as [Hin Hc].
  destruct (Hall tx Hin Hc) as [Hst|(z & Hz & Hzc & Hlt)]; [exact Hst|].
  specialize (Hmax z (proj2 (ledger_In c items z) (conj Hz Hzc))). lia.
Qed.

(** X5. Recording a pending order at a time later than every earlier posting
    of its code makes that code OPEN, whatever its status was. *)
Theorem pending_order_opens_account newId now currentUser data pre post :
  (forall y, In y (pre ++ post) -> code y = td_code data -> (createdAt y < now)%Z) ->
  accountStatusMap (pre ++ handleTransactionSubmit newId now currentUser data :: post)
    !! td_code data = Some OPEN.
Proof.
  intros Hnew. set (tx := handleTransactionSubmit newId now currentUser data).
  apply status_of_unsuperseded.
  - exists tx. split; [apply in_elt|reflexivity].
  - intros y Hy Hyc. apply in_app_or in Hy as [Hy|[<-|Hy]].
    + right. exists tx. split; [apply in_elt|]. split; [reflexivity|].
      apply Hnew; [apply in_or_app; now left|exact Hyc].
    + now left.
    + right. exists tx. split; [apply in_elt|]. split; [reflexivity|].
      apply Hnew; [apply in_or_app; now right|exact Hyc].
Qed.

Lemma pending_order_opens_account_witness :
  let items := [posting "C105" IN 100 1; posting "C105" OUT 100 2] in
  let data := {| td_date := "01-Dec-2025"; td_code := "C105";
                 td_orderNumber := "ORD-9923"; td_amount := 20 |} in
  accountStatusMap items !! "C105" = Some CLOSED /\
  accountStatusMap (items ++ [handleTransactionSubmit "id9" 3 None data]) !! "C105"
    = Some OPEN.
Proof.
  intros items data. split; [reflexivity|].
  apply (pending_order_opens_account "id9" 3 None data items []).
  intros y Hy _. rewrite app_nil_r in Hy.
  destruct Hy as [<-|[<-|[]]]; reflexivity.
Defined.

(** ** Imports, run twice *)

Lemma ledger_app c l1 l2 : ledger c (l1 ++ l2) = ledger c l1 ++ ledger c l2.
Proof. unfold ledger. apply List.filter_app. Qed.

Lemma batchWrites_nil uuidv4 ts items mode (imported : list ImportedItem) k :
  (forall newId e, In e imported -> importEntry ts items mode newId e = None) ->
  batchWrites uuidv4 ts items mode k imported = [].
Proof.
  intros Hnone.
  destruct (batchWrites uuidv4 ts items mode k imported) as [|tx l] eqn:Hw; [reflexivity|].
  assert (In tx (batchWrites uuidv4 ts items mode k imported)) as Hin by (rewrite Hw; now left).
  apply batchWrites_In in Hin as (j & e & Hj & He).
  rewrite Hnone in He; [discriminate|].
  apply list_elem_of_In, list_elem_of_lookup. eauto.
Qed.

Lemma currentStatus_same_code items e e' :
  imp_code e = imp_code e' -> currentStatus items e = currentStatus items e'.
Proof. unfold currentStatus. now intros ->. Qed.

Lemma interleaving_Permutation {A : Type} (old new l : list A) :
  interleaving old new l -> Permutation l (old ++ new).
Proof.
  induction 1 as [|x old new l _ IH|x old new l _ IH]; [reflexivity| |].
  - simpl. now constructor.
  - rewrite IH. apply Permutation_middle.
Qed.

Lemma interleaving_filter {A : Type} (f : A -> bool) (old new l : list A) :
  interleaving old new l ->
  interleaving (List.filter f old) (List.filter f new) (List.filter f l).
Proof.
  induction 1 as [|x old new l _ IH|x old new l _ IH]; cbn [List.filter];
    [constructor|destruct (f x); [now constructor|exact IH]..].
Qed.

Lemma interleaving_no_new {A : Type} (old l : list A) :
  interleaving old [] l -> l = old.
Proof.
  intros H. remember [] as new eqn:Hnew.
  induction H as [|x old new l _ IH|x old new l _ IH];
    [reflexivity|f_equal; now apply IH|discriminate].
Qed.

(** A code none of whose postings is new keeps the postings it had, in
    their order. *)
Lemma ledger_interleaving c old new l :
  interleaving old new l -> (forall y, In y new -> code y <> c) ->
  ledger c l = ledger c old.
Proof.
  intros Hl Hnone. apply interleaving_no_new.
  rewrite <- (ledger_unknown c new Hnone). now apply interleaving_filter.
Qed.

(** X6. An ADD_STOCK import is not applied twice.  Once the records written
    by an import, stamped later than everything already in the inventory,
    have joined the inventory, in whatever positions the snapshot lists
    them, every imported code that is not the name of a member of
    [Object.prototype] is OPEN and importing the same entries again writes
    nothing. *)
Theorem add_stock_import_not_applied_twice uuidv4 uuidv4' ts ts' items imported
    written' inventory :
  (forall y, In y items -> (createdAt y < ts)%Z) ->
  Permutation written' (writtenBy (handleImport uuidv4 ts items imported ADD_STOCK)) ->
  interleaving items written' inventory ->
  (forall e, In e imported -> imp_code e ∉ objectPrototypeKeys ->
     currentStatus inventory e = Some OPEN) /\
  handleImport uuidv4' ts' inventory imported ADD_STOCK = NoNewRecords.
Proof.
  intros Hold Hperm Hinv.
  set (written := writtenBy (handleImport uuidv4 ts items imported ADD_STOCK)) in *.
  assert (forall tx, In tx written' ->
            type tx = IN /\ createdAt tx = ts /\
            exists e, In e imported /\ code tx = imp_code e /\
                      currentStatus items e = Some CLOSED) as Hwritten.
  { intros tx Htx. apply (Permutation_in _ Hperm) in Htx.
    apply handleImport_In in Htx as (j & e & Hj & He).
    cbn [importEntry] in He. unfold addStockEntry in He.
    destruct (currentStatus items e) as [[|]|] eqn:Hst; try discriminate.
    injection He as <-. split; [reflexivity|]. split; [reflexivity|].
    exists e. split; [|split; [reflexivity|exact Hst]].
    apply list_elem_of_In, list_elem_of_lookup. eauto. }
  assert (forall y, In y inventory <-> In y items \/ In y written') as Hmem.
  { intros y. rewrite <- in_app_iff. split; apply Permutation_in;
      [|symmetry]; now apply interleaving_Permutation. }
  (* a code that was not CLOSED got no record and reads as before *)
  assert (forall e, currentStatus items e <> Some CLOSED ->
            currentStatus inventory e = currentStatus items e) as Hsame.
  { intros e Hst. unfold currentStatus. rewrite !accountStatusMap_lookup.
    rewrite (ledger_interleaving (imp_code e) items written' inventory Hinv); [reflexivity|].
    intros tx Htx Hc. destruct (Hwritten tx Htx) as (_ & _ & e' & _ & Hc' & Hst').
    apply Hst. rewrite <- Hst'. apply currentStatus_same_code. congruence. }
  (* a code that was CLOSED got an IN record that is the latest of its code *)
  assert (forall e, In e imported -> currentStatus items e = Some CLOSED ->
            currentStatus inventory e = Some OPEN) as Hnew.
  { intros e He Hst. apply list_elem_of_In, list_elem_of_lookup in He as [j Hj].
    assert (In (newItem e (uuidv4 j) ts (imp_amount e) IN) written') as Hrec.
    { apply (Permutation_in _ (Permutation_sym Hperm)).
      apply handleImport_In. exists j, e. split; [exact Hj|].
      cbn [importEntry]. unfold addStockEntry. now rewrite Hst. }
    unfold currentStatus.
    rewrite (status_of_unsuperseded _ (imp_code e) OPEN); [reflexivity| |].
    - eexists. split; [apply Hmem; right; exact Hrec|reflexivity].
    - intros y Hy Hyc. apply Hmem in Hy as [Hy|Hy].
      + right. eexists. split; [apply Hmem; right; exact Hrec|].
        split; [reflexivity|]. simpl. now apply Hold.
      + left. destruct (Hwritten y Hy) as (-> & _). reflexivity. }
  split.
  - intros e He Hkey. destruct (currentStatus items e) as [[|]|] eqn:Hst.
    + rewrite Hsame; [exact Hst|]. rewrite Hst. discriminate.
    + now apply Hnew.
    + exfalso. unfold currentStatus in Hst.
      destruct (accountStatusMap items !! imp_code e); [discriminate|].
      now rewrite bool_decide_eq_false_2 in Hst.
  - cbn [handleImport]. rewrite batchWrites_nil; [reflexivity|].
    intros newId e He. cbn [importEntry]. unfold addStockEntry.
    destruct (currentStatus items e) as [[|]|] eqn:Hst.
    + rewrite Hsame; [now rewrite Hst|]. rewrite Hst. discriminate.
    + now rewrite (Hnew e He Hst).
    + rewrite Hsame; [now rewrite Hst|]. rewrite Hst. discriminate.
Qed.

Lemma add_stock_import_not_applied_twice_witness :
  let items := [posting "C105" IN 100 1; posting "C105" OUT 100 2] in
  let imported := [importedEntry "C105" 50; importedEntry "R101" 20;
                   importedEntry "toString" 5] in
  let c105 := newItem (importedEntry "C105" 50) "n0" 3 50 IN in
  let r101 := newItem (importedEntry "R101" 20) "n1" 3 20 IN in
  handleImport (fun k => "n" +:+ pretty k) 3 items imported ADD_STOCK
    = Synced [c105; r101] /\
  handleImport (fun k => "m" +:+ pretty k) 4
    [r101; posting "C105" IN 100 1; c105; posting "C105" OUT 100 2] imported ADD_STOCK
    = NoNewRecords.
Proof.
  intros items imported c105 r101. split; [reflexivity|].
  apply (add_stock_import_not_applied_twice (fun k => "n" +:+ pretty k) _ 3 4
           items imported [r101; c105]).
  - intros y [<-|[<-|[]]]; reflexivity.
  - apply perm_swap.
  - apply interleaving_new, interleaving_old, interleaving_new, interleaving_old.
    constructor.
Defined.

(** ** Usage and audit of a balance that is already in step *)

(** A number minus itself is 0, or NaN when the number is infinite or NaN. *)
Lemma fsub_diag x : fsub x x = zero \/ fsub x x = SpecFloat.S754_nan.
Proof.
  destruct x as [s|s| |s m e].
  - left. now destruct s.
  - right. now destruct s.
  - now right.
  - left. unfold fsub, SpecFloat.SFsub. cbv zeta. now rewrite Z.sub_diag.
Qed.

Lemma fsub_diag_finite x :
  fltb (fabs x) (SpecFloat.S754_infinity false) = true -> fsub x x = zero.
Proof.
  destruct x as [s|s| |s m e]; try discriminate; intros _.
  - now destruct s.
  - unfold fsub, SpecFloat.SFsub. cbv zeta. now rewrite Z.sub_diag.
Qed.

(** X7. A balance that is already in step yields nothing to do.  An imported
    ending balance that is, as a binary64 number, the current official
    balance of its code is never posted by a CALCULATE_USAGE import, whatever
    the status of the code; an audit of the same entry reports the difference
    0 and MATCH whenever the balance is finite. *)
Theorem usage_sync_skips_equal_balance uuidv4 ts items e :
  toDouble (imp_amount e) = currentBalance items e ->
  (forall newId, usageEntry ts items newId e = None) /\
  handleImport uuidv4 ts items [e] CALCULATE_USAGE = NoNewRecords /\
  (fltb (fabs (currentBalance items e)) (SpecFloat.S754_infinity false) = true ->
   exists r, handleImport uuidv4 ts items [e] AUDIT_SYSTEM = AuditGenerated [r] /\
             difference r = zero /\ status r = MATCH).
Proof.
  intros Hsame.
  assert (forall newId, usageEntry ts items newId e = None) as Hnone.
  { intros newId. unfold usageEntry. rewrite Hsame.
    destruct (currentStatus items e) as [[|]|]; try reflexivity.
    destruct (fsub_diag (currentBalance items e)) as [-> | ->]; reflexivity. }
  split; [exact Hnone|]. split.
  - cbn [handleImport batchWrites importEntry]. now rewrite Hnone.
  - intros Hfinite. eexists. split; [reflexivity|].
    cbn [auditEntry difference status]. rewrite Hsame.
    fold (currentBalance items e). rewrite (fsub_diag_finite _ Hfinite).
    split; reflexivity.
Qed.

Lemma usage_sync_skips_equal_balance_witness :
  let items := [posting "C105" IN (1 # 10) 1; posting "C105" IN (2 # 10) 2] in
  let e := importedEntry "C105" (30000000000000004 # 100000000000000000) in
  currentStatus items e = Some OPEN /\
  handleImport (fun _ => "id0") 3 items [e] CALCULATE_USAGE = NoNewRecords /\
  (type <$> usageEntry 3 items "id0" (importedEntry "C105" (3 # 10))) = None.
Proof.
  intros items e. split; [reflexivity|].
  destruct (usage_sync_skips_equal_balance (fun _ => "id0") 3 items e) as (_ & Hrun & _).
  - vm_compute. reflexivity.
  - split; [exact Hrun|]. vm_compute. reflexivity.
Defined.

(** ** Restore: what reaches the store *)

Lemma lastWithKey_cons k d data :
  lastWithKey k (d :: data) =
    match lastWithKey k data with
    | Some d' => Some d'
    | None => if bool_decide (docKey d = Some k) then Some d else None
    end.
Proof.
  unfold lastWithKey. simpl. destruct (bool_decide (docKey d = Some k)); [|now destruct (last _)].
  destruct (List.filter _ data) as [|d' l]; [reflexivity|].
  rewrite last_cons_cons. destruct (last (d' :: l)) eqn:Hl; [reflexivity|].
  apply last_None in Hl. discriminate.
Qed.

Lemma foldl_setOps_lookup c data : forall (m : gmap (string * string) Doc) c' k',
  foldl applyOp m (setOps c data) !! (c', k')
  = if bool_decide (c' = c) then
      match lastWithKey k' data with
      | Some d => Some d
      | None => m !! (c', k')
      end
    else m !! (c', k').
Proof.
  induction data as [|d data IH]; intros m c' k'.
  - simpl. now destruct (bool_decide (c' = c)).
  - rewrite lastWithKey_cons. unfold setOps. cbn [omap list_omap]. fold (setOps c data).
    destruct (docKey d) as [k|] eqn:Hk; cbn [fmap option_fmap option_map].
    + cbn [foldl applyOp]. rewrite IH.
      destruct (decide (c' = c)) as [->|Hc].
      * rewrite (bool_decide_eq_true_2 (c = c)) by reflexivity.
        destruct (lastWithKey k' data); [reflexivity|].
        destruct (decide (k = k')) as [->|Hkk].
        -- rewrite lookup_insert_eq. now rewrite bool_decide_eq_true_2.
        -- rewrite lookup_insert_ne by congruence.
           rewrite bool_decide_eq_false_2 by congruence. reflexivity.
      * rewrite (bool_decide_eq_false_2 (c' = c)) by exact Hc.
        apply lookup_insert_ne. congruence.
    + rewrite IH. destruct (bool_decide (c' = c)); [|reflexivity].
      destruct (lastWithKey k' data); [reflexivity|].
      now rewrite bool_decide_eq_false_2.
Qed.

Lemma lastWithKey_In k data d : lastWithKey k data = Some d -> In d data /\ docKey d = Some k.
Proof.
  unfold lastWithKey. intros H. apply last_Some_elem_of, list_elem_of_In in H.
  apply filter_In in H as [Hin Hk]. split; [exact Hin|]. now apply bool_decide_eq_true in Hk.
Qed.

Lemma lastWithKey_is_Some k data d :
  In d data -> docKey d = Some k -> is_Some (lastWithKey k data).
Proof.
  intros Hin Hk. unfold lastWithKey. apply last_is_Some. intros Hnil.
  assert (In d (List.filter (fun d => bool_decide (docKey d = Some k)) data)) as H.
  { apply filter_In. split; [exact Hin|]. now apply bool_decide_eq_true. }
  now rewrite Hnil in H.
Qed.

Lemma lastWithKey_unique k data d :
  NoDup (map docKey data) -> In d data -> docKey d = Some k -> lastWithKey k data = Some d.
Proof.
  intros Hnd Hin Hk. destruct (lastWithKey_is_Some k data d Hin Hk) as [d' Hd'].
  rewrite Hd'. f_equal. apply lastWithKey_In in Hd' as [Hin' Hk'].
  apply (NoDup_map_inj docKey data); congruence.
Qed.


Lemma Forall_isPlainKey data :
  Forall (fun d => isPlainKey d = true) data ->
  Forall (fun d => is_Some (docKey d)) data.
Proof.
  intros Hplain. eapply Forall_impl; [exact Hplain|].
  intros d. unfold isPlainKey. destruct (docKey d); [eauto|discriminate].
Qed.

(** X8. Restoring a collection of at most 450 records that all carry an id
    (or a day) without a slash succeeds with a single commit that holds one
    write per record, in order.  Afterwards each key of the file holds the
    last record of the file with that key, and every other document of the
    store, in this or any other collection, is what it was: a restore
    overwrites and adds, it never deletes. *)
Theorem restore_collection_overwrites_never_deletes c data s :
  data <> [] -> (length data <= 450)%nat ->
  Forall (fun d => isPlainKey d = true) data ->
  exists s',
    uploadCollection c (Some data) s = (Ok tt, s') /\
    commits s' = commits s ++ [setOps c data] /\
    length (setOps c data) = length data /\
    (forall d k, In d data -> docKey d = Some k ->
       exists d', lastWithKey k data = Some d' /\ db s' !! (c, k) = Some d') /\
    (NoDup (map docKey data) ->
       forall d k, In d data -> docKey d = Some k -> db s' !! (c, k) = Some d) /\
    (forall k, lastWithKey k data = None -> db s' !! (c, k) = db s !! (c, k)) /\
    (forall c' k, c' <> c -> db s' !! (c', k) = db s !! (c', k)).
Proof.
  intros Hne Hlen Hplain.
  pose proof (Forall_isPlainKey data Hplain) as Hkeys.
  rewrite uploadCollection_upto_450 by assumption.
  eexists. split; [reflexivity|]. cbn [db commits]. split; [reflexivity|].
  assert (forall d k, In d data -> docKey d = Some k ->
            exists d', lastWithKey k data = Some d' /\
                       foldl applyOp (db s) (setOps c data) !! (c, k) = Some d') as Hlast.
  { intros d k Hin Hk. destruct (lastWithKey_is_Some k data d Hin Hk) as [d' Hd'].
    exists d'. split; [exact Hd'|]. rewrite foldl_setOps_lookup.
    rewrite bool_decide_eq_true_2 by reflexivity. now rewrite Hd'. }
  split; [|split; [exact Hlast|split; [|split]]].
  - clear -Hkeys. induction Hkeys as [|d data [k Hk] _ IH]; [reflexivity|].
    unfold setOps in *. cbn [omap list_omap]. rewrite Hk. simpl. now f_equal.
  - intros Hnd d k Hin Hk. destruct (Hlast d k Hin Hk) as (d' & Hd' & ->).
    rewrite (lastWithKey_unique k data d Hnd Hin Hk) in Hd'. congruence.
  - intros k Hnone. rewrite foldl_setOps_lookup.
    rewrite bool_decide_eq_true_2 by reflexivity. now rewrite Hnone.
  - intros c' k Hc. rewrite foldl_setOps_lookup.
    now rewrite bool_decide_eq_false_2.
Qed.

Lemma restore_collection_overwrites_never_deletes_witness :
  let s := {| db := {[ ("inventory", "tx1") := StockDoc (posting "C105" IN 5 1);
                       ("inventory", "tx9") := StockDoc (posting "R101" IN 7 9) ]};
              commits := [] |} in
  let data := [StockDoc (posting "C105" IN 100 1); StockDoc (posting "C105" OUT 30 2)] in
  exists s',
    uploadCollection "inventory" (Some data) s = (Ok tt, s') /\
    db s' !! ("inventory", "tx1") = Some (StockDoc (posting "C105" IN 100 1)) /\
    db s' !! ("inventory", "tx2") = Some (StockDoc (posting "C105" OUT 30 2)) /\
    db s' !! ("inventory", "tx9") = Some (StockDoc (posting "R101" IN 7 9)).
Proof.
  intros s data.
  destruct (restore_collection_overwrites_never_deletes "inventory" data s)
    as (s' & Hrun & _ & _ & _ & Hset & Hkeep & _).
  - discriminate.
  - simpl. lia.
  - repeat constructor.
  - exists s'. split; [exact Hrun|].
    assert (NoDup (map docKey data)) as Hnd.
    { apply NoDup_ListNoDup. repeat constructor; simpl; intuition discriminate. }
    split; [apply (Hset Hnd); [now left|reflexivity]|].
    split; [apply (Hset Hnd); [right; now left|reflexivity]|].
    rewrite Hkeep; reflexivity.
Defined.

Lemma uploadLoop_app c pre rest : forall b n s,
  uploadLoop c (pre ++ rest) b n s
  = match uploadLoop c pre b n s with
    | (Ok (b', n'), s') => uploadLoop c rest b' n' s'
    | (Threw, s') => (Threw, s')
    end.
Proof.
  induction pre as [|item pre IH]; intros b n s; [reflexivity|].
  cbn [app uploadLoop]. fire_unfold.
  destruct (batchSet b c item s) as [[b1|] s1]; [|reflexivity].
  destruct (450 <=? S n)%nat; [|apply IH].
  destruct (batchCommit b1 s1) as [[b2|] s2]; [apply IH|reflexivity].
Qed.

(** X9. A record without id and day stops the restore before anything is
    written: when it sits among the first 450 records of the inventory
    collection, the upload throws at it, no batch is committed, not even for
    the well-keyed records in front of it, and the store is unchanged. *)
Theorem restore_aborts_on_keyless_record file pre bad post s :
  bk_items file = Some (pre ++ bad :: post) ->
  docKey bad = None ->
  (length pre < 450)%nat ->
  Forall (fun d => is_Some (docKey d)) pre ->
  uploadCollection "inventory" (bk_items file) s = (Threw, s) /\
  handleRestoreData (Some file) true s = (RestoreError, s).
Proof.
  intros Hitems Hbad Hlen Hkeys.
  assert (uploadCollection "inventory" (bk_items file) s = (Threw, s)) as Hup.
  { rewrite Hitems. unfold uploadCollection.
    destruct (pre ++ bad :: post) as [|d0 l0] eqn:Hdata; [now destruct pre|].
    rewrite <- Hdata. fire_unfold. rewrite uploadLoop_app.
    rewrite uploadLoop_below; [|reflexivity|assumption|simpl; lia].
    cbn [uploadLoop]. fire_unfold. unfold batchSet. now rewrite Hbad. }
  split; [exact Hup|].
  unfold handleRestoreData. fire_unfold. now rewrite Hup.
Qed.

Lemma restore_aborts_on_keyless_record_witness :
  let keyless := ScheduleDoc {| day := ""; assignments := [] |} in
  let file := {| bk_items := Some [StockDoc (posting "C105" IN 100 1); keyless];
                 bk_employees := None; bk_schedule := None; bk_notes := None;
                 bk_users := None |} in
  handleRestoreData (Some file) true emptyStore = (RestoreError, emptyStore).
Proof.
  intros keyless file.
  apply (restore_aborts_on_keyless_record file [StockDoc (posting "C105" IN 100 1)]
           keyless [] emptyStore).
  - reflexivity.
  - reflexivity.
  - simpl. lia.
  - repeat constructor. simpl. eauto.
Defined.

(** ** Backup, then restore *)






(** ** Reset: the batch of one collection *)

Lemma getDocs_docIds c s : getDocs c s = (Ok (docIds c (db s)), s).
Proof. reflexivity. Qed.

Lemma docIds_elem (c : string) (m : gmap (string * string) Doc) (k : string) :
  k ∈ docIds c m <-> is_Some (m !! (c, k)).
Proof.
  unfold docIds. rewrite list_elem_of_omap. split.
  - intros ([[c' k'] d] & Hin & Hf). apply elem_of_map_to_list in Hin.
    case_bool_decide as Hc; [|discriminate]. injection Hf as ->. subst c'. eauto.
  - intros [d Hd]. exists ((c, k), d). split; [now apply elem_of_map_to_list|].
    now rewrite bool_decide_eq_true_2.
Qed.

Lemma omap_ids_NoDup (c : string) (l : list ((string * string) * Doc)) :
  NoDup (l.*1) ->
  NoDup (omap (fun '((c', k), _) => if bool_decide (c' = c) then Some k else None) l).
Proof.
  induction l as [|[[c' k] d] l IH]; intros Hnd; [constructor|].
  simpl in Hnd. apply NoDup_cons in Hnd as [Hnotin Hnd].
  cbn [omap list_omap]. case_bool_decide as Hc; [|now apply IH].
  apply NoDup_cons. split; [|now apply IH].
  intros Hin. apply list_elem_of_omap in Hin as ([[c'' k''] d'] & Hin & Hf).
  case_bool_decide as Hc'; [|discriminate]. injection Hf as ->. subst c' c''.
  apply Hnotin. apply list_elem_of_fmap. exists ((c, k), d'). split; [reflexivity|exact Hin].
Qed.

(** X11. Clearing a collection commits exactly one batch, which holds one
    delete for each document of that collection, however many there are,
    and no other operation. *)
Theorem clearColl_commits_one_batch c s :
  exists s',
    clearColl c s = (Ok tt, s') /\
    commits s' = commits s ++ [OpDelete c <$> docIds c (db s)] /\
    NoDup (docIds c (db s)) /\
    (forall k, k ∈ docIds c (db s) <-> is_Some (db s !! (c, k))).
Proof.
  unfold clearColl. fire_unfold. rewrite getDocs_docIds.
  rewrite deleteAll_fresh by reflexivity.
  unfold batchCommit. cbn [committed mutations].
  change (mutations writeBatch) with (@nil WriteOp). rewrite app_nil_l.
  eexists. split; [reflexivity|]. cbn [commits]. split; [reflexivity|].
  split; [apply omap_ids_NoDup, NoDup_fst_map_to_list|].
  apply docIds_elem.
Qed.

(** ** Dashboard charts *)

Lemma foldl_providerStep_lookup (data : list StockItem) (m : gmap string double) p :
  p ∉ objectPrototypeKeys ->
  foldl providerStep m data !! p
  = foldl netStep (m !! p) (List.filter (fun i => bool_decide (providerKey i = p)) data).
Proof.
  intros Hp. revert m. induction data as [|i data IH]; intros m; [reflexivity|].
  cbn [foldl List.filter]. rewrite IH.
  assert (providerStep m i !! p
          = if bool_decide (providerKey i = p) then netStep (m !! p) i else m !! p)
    as ->.
  { unfold providerStep, netStep. cbv zeta.
    destruct (decide (providerKey i = p)) as [Hkey|Hkey].
    - rewrite (bool_decide_eq_true_2 _ Hkey), Hkey, (bool_decide_eq_false_2 _ Hp).
      now rewrite lookup_insert_eq.
    - rewrite (bool_decide_eq_false_2 _ Hkey).
      case_bool_decide; [reflexivity|]. now rewrite lookup_insert_ne. }
  now case_bool_decide.
Qed.

Lemma foldl_providerStep_inherited (data : list StockItem) (m : gmap string double) p :
  p ∈ objectPrototypeKeys -> foldl providerStep m data !! p = m !! p.
Proof.
  intros Hp. revert m. induction data as [|i data IH]; intros m; [reflexivity|].
  cbn [foldl]. rewrite IH. unfold providerStep. cbv zeta.
  destruct (decide (providerKey i ∈ objectPrototypeKeys)) as [Hkey|Hkey].
  - now rewrite (bool_decide_eq_true_2 _ Hkey).
  - rewrite (bool_decide_eq_false_2 _ Hkey).
    rewrite lookup_insert_ne; [reflexivity|]. intros Heq. now rewrite Heq in Hkey.
Qed.

Lemma fltb_zero_max0 value : fltb zero (max0 value) = fltb zero value.
Proof. destruct value as [s|s| |s m e]; try destruct s; reflexivity. Qed.

Lemma max0_positive value : fltb zero value = true -> max0 value = value.
Proof. destruct value as [s|s| |s m e]; try destruct s; try discriminate; reflexivity. Qed.

Lemma orZero_positive x : fltb zero x = true -> orZero (Some x) = x.
Proof. destruct x as [s|s| |s m e]; try discriminate; reflexivity. Qed.

Lemma fltb_zero_orZero x : fltb zero (orZero (Some x)) = fltb zero x.
Proof. destruct x as [s|s| |s m e]; try destruct s; reflexivity. Qed.

(** X12. The provider chart has a slice for a provider exactly when the
    provider's name is not the name of a member of [Object.prototype] and the
    net value of the postings filed under it, IN minus OUT minus TEMP_USE
    summed in binary64 in inventory order, is strictly positive; the slice
    then shows that sum.  Providers whose sum is zero, negative or no number
    are left out. *)
Theorem providerChartData_positive_net data p :
  (forall v, providerChartData data !! p = Some v <->
             (p ∉ objectPrototypeKeys) /\ v = netOfProvider p data /\
             fltb zero v = true) /\
  (is_Some (providerChartData data !! p) <->
   (p ∉ objectPrototypeKeys) /\ fltb zero (netOfProvider p data) = true).
Proof.
  assert (forall v, providerChartData data !! p = Some v <->
            (p ∉ objectPrototypeKeys) /\ v = netOfProvider p data /\
            fltb zero v = true)
    as Hslice.
  { intros v. unfold providerChartData, providerMap, netOfProvider. rewrite lookup_omap.
    destruct (decide (p ∈ objectPrototypeKeys)) as [Hin|Hnot].
    - rewrite foldl_providerStep_inherited, lookup_empty by exact Hin.
      split; [discriminate|]. intros [Hnot _]. contradiction.
    - rewrite foldl_providerStep_lookup, lookup_empty by exact Hnot.
      destruct (foldl netStep None _) as [x|]; cbn [mbind option_bind].
      + rewrite fltb_zero_max0. destruct (fltb zero x) eqn:Hx.
        * rewrite (max0_positive x Hx), (orZero_positive x Hx). split.
          -- intros [= <-]. now repeat split.
          -- intros (_ & -> & _). reflexivity.
        * split; [discriminate|]. intros (_ & -> & Hpos).
          rewrite fltb_zero_orZero in Hpos. congruence.
      + split; [discriminate|]. intros (_ & -> & Hpos). discriminate Hpos. }
  split; [exact Hslice|]. split.
  - intros [v Hv]. apply Hslice in Hv as (Hnot & -> & Hpos). now split.
  - intros [Hnot Hpos]. eexists. apply Hslice. now repeat split.
Qed.

(** Rounding and inherited members decide slices: 0.1 + 0.2 - 0.3 is a
    positive binary64 number, so Celcom has a slice although its postings
    cancel; a provider named constructor has none whatever its postings. *)
Example provider_chart_slices :
  let data := [posting "C105" IN (1 # 10) 1; posting "C105" IN (2 # 10) 2;
               posting "C105" OUT (3 # 10) 3] in
  (exists v, providerChartData data !! "Celcom" = Some v /\ valueOf v == 1 # 2 ^ 54) /\
  providerChartData
    [{| id := "tx1"; date := "30-Nov-2025"; code := "C105"; provider := "constructor";
        phoneNumber := "0138456954"; amount := 100; type := IN; orderNumber := None;
        createdAt := 1; createdBy := None |}] !! "constructor" = None.
Proof.
  split; [|vm_compute; reflexivity].
  eexists. split; [vm_compute; reflexivity|]. vm_compute. reflexivity.
Qed.













(** ** Transaction report rows *)



















(** ** Manual import: fields and numbers *)

Lemma trimStart_notBlank s : List.filter notBlank (trimStart s) = List.filter notBlank s.
Proof.
  induction s as [|c s IH]; simpl; [reflexivity|].
  unfold notBlank at 2. destruct (isWhiteSpace c) eqn:Hc; simpl; [exact IH|].
  unfold notBlank at 1. now rewrite Hc.
Qed.

Lemma trimEnd_notBlank s : List.filter notBlank (trimEnd s) = List.filter notBlank s.
Proof.
  induction s as [|c s IH]; simpl; [reflexivity|].
  destruct (trimEnd s) as [|k ks].
  - simpl in IH. rewrite <- IH. unfold notBlank.
    destruct (isWhiteSpace c) eqn:Hc; simpl; [reflexivity|]. now rewrite Hc.
  - cbn [List.filter] in *. now rewrite IH.
Qed.

Lemma trim_notBlank s : List.filter notBlank (trim s) = List.filter notBlank s.
Proof. unfold trim. now rewrite trimEnd_notBlank, trimStart_notBlank. Qed.

Lemma concat_consFirst c pieces : concat (consFirst c pieces) = c :: concat pieces.
Proof. now destruct pieces. Qed.

Lemma splitWs_concat s : forall b, concat (splitWs b s) = List.filter notBlank s.
Proof.
  induction s as [|c s IH]; intros b; simpl; [reflexivity|].
  unfold notBlank at 1. destruct (isWhiteSpace c); simpl.
  - destruct b; simpl; apply IH.
  - rewrite concat_consFirst. now rewrite IH.
Qed.

Lemma Forall_consFirst (P : ascii -> Prop) c pieces :
  P c -> Forall (Forall P) pieces -> Forall (Forall P) (consFirst c pieces).
Proof.
  intros Hc Hall. destruct pieces as [|p ps]; simpl.
  - repeat constructor. exact Hc.
  - apply Forall_cons in Hall as [Hp Hps]. constructor; [now constructor|exact Hps].
Qed.

Lemma splitWs_no_blank s : forall b,
  Forall (Forall (fun c => isWhiteSpace c = false)) (splitWs b s).
Proof.
  induction s as [|c s IH]; intros b; simpl; [repeat constructor|].
  destruct (isWhiteSpace c) eqn:Hc.
  - destruct b; [apply IH|]. constructor; [constructor|apply IH].
  - apply Forall_consFirst; [exact Hc|apply IH].
Qed.

(** X15. The fields of a line are its non-blank characters, cut at the
    blanks: no field contains a blank, the fields joined together are
    exactly the line with its blanks removed, and a line is treated as
    blank exactly when all its characters are blanks. *)
Theorem fields_are_the_nonblank_runs line :
  Forall (Forall (fun c => isWhiteSpace c = false)) (fieldsOf line) /\
  concat (fieldsOf line) = List.filter notBlank line /\
  (trim line = [] <-> Forall (fun c => isWhiteSpace c = true) line).
Proof.
  split; [apply splitWs_no_blank|]. split.
  - unfold fieldsOf. now rewrite splitWs_concat, trim_notBlank.
  - split.
    + intros Hnil. pose proof (trim_notBlank line) as H. rewrite Hnil in H. simpl in H.
      clear Hnil. induction line as [|c line IH]; [constructor|].
      simpl in H. unfold notBlank at 1 in H.
      destruct (isWhiteSpace c) eqn:Hc; simpl in H; [|discriminate].
      constructor; [exact Hc|now apply IH].
    + intros Hall. unfold trim.
      assert (trimStart line = []) as ->; [|reflexivity].
      induction Hall as [|c line Hc _ IH]; simpl; [reflexivity|]. now rewrite Hc.
Qed.

Lemma consFirst_join c pieces :
  pieces <> [] -> joinLines (consFirst c pieces) = c :: joinLines pieces.
Proof.
  destruct pieces as [|p [|q ps]]; [done|reflexivity..].
Qed.

Lemma splitLines_not_nil s : splitLines s <> [].
Proof.
  induction s as [|c s IH]; simpl; [done|].
  case_bool_decide; [done|]. unfold consFirst. now destruct (splitLines s).
Qed.

(** X16. Splitting the pasted text into lines loses nothing: no line
    contains a line feed, and the lines joined by line feeds are the text. *)
Theorem splitLines_round_trip s :
  joinLines (splitLines s) = s /\
  Forall (Forall (fun c => c <> "010"%char)) (splitLines s).
Proof.
  induction s as [|c s [IHjoin IHall]]; simpl; [split; repeat constructor|].
  case_bool_decide as Hc.
  - subst c. split.
    + destruct (splitLines s) as [|l ls] eqn:Hs; [now apply splitLines_not_nil in Hs|].
      change (joinLines ([] :: l :: ls)) with ("010"%char :: joinLines (l :: ls)).
      now rewrite IHjoin.
    + constructor; [constructor|exact IHall].
  - split.
    + rewrite consFirst_join by apply splitLines_not_nil. now rewrite IHjoin.
    + apply Forall_consFirst; assumption.
Qed.

Lemma parseFloat_unsigned s :
  parseFloat s = parseUnsigned (isNegative (trimStart s)) (afterSign (trimStart s)).
Proof.
  unfold parseFloat, parseUnsigned, isNegative, afterSign.
  destruct (trimStart s) as [|c rest]; [reflexivity|].
  destruct (bool_decide (c = "-"%char)); [reflexivity|].
  destruct (bool_decide (c = "+"%char)); reflexivity.
Qed.

Lemma parseUnsigned_NaN negative body :
  isNaN (parseUnsigned negative body) = negb (startsNumber body).
Proof.
  unfold parseUnsigned, startsNumber.
  destruct (startsWith (String.list_ascii_of_string "Infinity") body); [reflexivity|].
  cbn [orb]. destruct body as [|c rest]; [reflexivity|].
  cbn [spanDigits]. destruct (isDigit c) eqn:Hc.
  - destruct (spanDigits rest) as [ds r1]. cbn [orb negb].
    destruct r1 as [|d r1]; [reflexivity|].
    destruct (bool_decide (d = "."%char)); [|reflexivity].
    now destruct (spanDigits r1).
  - cbn [orb]. destruct (bool_decide (c = "."%char)); [|reflexivity].
    cbn [andb]. destruct rest as [|d rest]; [reflexivity|].
    cbn [spanDigits]. destruct (isDigit d); [|reflexivity].
    now destruct (spanDigits rest).
Qed.

(** X17. What the manual parser accepts as a number: [parseFloat] yields NaN
    exactly when the text, after leading blanks and one optional sign, does
    not start with a digit, with a dot followed by a digit, or with
    Infinity.  Whatever follows such a start is ignored. *)
Theorem parseFloat_NaN_iff s :
  parseFloat s = JsNaN <-> startsNumber (afterSign (trimStart s)) = false.
Proof.
  rewrite <- isNaN_true, parseFloat_unsigned, parseUnsigned_NaN.
  apply negb_true_iff.
Qed.

Lemma str_not_empty s : s <> [] -> str s <> "".
Proof. destruct s; [done|discriminate]. Qed.

Lemma field_not_empty (parts : list (list ascii)) i :
  Forall (fun f => f <> []) parts -> (i < length parts)%nat ->
  default [] (parts !! i) <> [].
Proof.
  intros Hall Hi. destruct (lookup_lt_is_Some_2 parts i Hi) as [f Hf].
  rewrite Hf. simpl. rewrite Forall_forall in Hall. apply Hall.
  apply list_elem_of_lookup. eauto.
Qed.

Lemma parseLine_item displayDate mode line item :
  parseLine displayDate mode line = Some item ->
  p_code item <> "" /\ p_provider item <> "" /\
  (mode <> ADD_STOCK -> isNaN (p_amount item) = false).
Proof.
  intros Hitem.
  destruct (trim line) as [|c0 t0] eqn:Htrim.
  { rewrite parseLine_blank in Hitem by exact Htrim. discriminate. }
  assert (trim line <> []) as Hne by (rewrite Htrim; discriminate).
  pose proof (fieldsOf_nonempty line Hne) as Hfields.
  rewrite (parseLine_fields displayDate mode line Hne) in Hitem.
  set (parts := fieldsOf line) in *. clearbody parts. destruct mode.
  - unfold parseStockLine in Hitem.
    destruct (Nat.ltb_spec (length parts) 5) as [|Hlen]; [discriminate|].
    injection Hitem as <-. cbn [p_code p_provider]. split; [|split; [|done]].
    + apply str_not_empty, field_not_empty; [exact Hfields|lia].
    + apply str_not_empty, field_not_empty; [exact Hfields|lia].
  - pose proof (parseUsageLine_amount displayDate parts item Hitem) as Hamt.
    unfold parseUsageLine in Hitem.
    destruct (parts !! 0%nat) as [[|c cs]|]; try discriminate.
    destruct (parts !! 1%nat) as [[|p ps]|]; try discriminate.
    split; [|split].
    + injection Hitem as <-. discriminate.
    + injection Hitem as <-. discriminate.
    + intros _. rewrite Hamt. destruct (4 <=? length parts)%nat; [|reflexivity].
      now destruct (parseFloat (default [] (last parts))).
  - unfold parseAuditLine in Hitem.
    destruct (Nat.ltb_spec (length parts) 3) as [|Hlen]; [discriminate|].
    destruct (isNaN (parseFloat (dropCommas (default [] (last parts))))) eqn:Hnan;
      [discriminate|].
    injection Hitem as <-. cbn [p_code p_provider p_amount].
    split; [|split; [|intros _; exact Hnan]].
    + apply str_not_empty.
      destruct (Nat.ltb_spec 2 (length parts)) as [_|]; [|lia].
      case_bool_decide as Hcode; cbn [andb].
      * apply field_not_empty; [exact Hfields|lia].
      * exact Hcode.
    + apply str_not_empty. destruct (Nat.ltb_spec 4 (length parts)).
      * apply field_not_empty; [exact Hfields|lia].
      * discriminate.
Qed.

(** X18. Every entry that a manual import hands over has a non-empty code
    and a non-empty provider; in the audit and usage formats its amount is
    never NaN.  There are never more entries than lines. *)
Theorem manual_import_entries_are_filled displayDate mode inputText :
  (forall item, In item (importedItems (handleManualParse displayDate mode inputText)) ->
     p_code item <> "" /\ p_provider item <> "" /\
     (mode <> ADD_STOCK -> isNaN (p_amount item) = false)) /\
  (length (importedItems (handleManualParse displayDate mode inputText))
   <= length (splitLines (trim inputText)))%nat.
Proof.
  assert (importedItems (handleManualParse displayDate mode inputText)
          = omap (parseLine displayDate mode) (splitLines (trim inputText))) as ->.
  { unfold handleManualParse. now destruct (omap _ _). }
  split.
  - intros item Hin. apply list_elem_of_In, list_elem_of_omap in Hin as (line & _ & Hline).
    now apply (parseLine_item displayDate mode line).
  - generalize (splitLines (trim inputText)). intros lines.
    induction lines as [|l lines IH]; [reflexivity|].
    cbn [omap list_omap]. destruct (parseLine displayDate mode l); cbn [length]; lia.
Qed.

(** ** The AI path *)

Lemma trimEnd_fixed s : noTrailingWs s -> trimEnd s = s.
Proof.
  induction s as [|c s IH]; intros Hlast; [reflexivity|].
  simpl. rewrite (IH (noTrailingWs_tail _ _ Hlast)).
  destruct s as [|d s]; [|reflexivity].
  unfold noTrailingWs in Hlast. simpl in Hlast. now rewrite Hlast.
Qed.

Lemma trim_idempotent s : trim (trim s) = trim s.
Proof.
  destruct (trim_shape s) as [->|(c & t & -> & Hc & Hlast)]; [reflexivity|].
  unfold trim. simpl trimStart. rewrite Hc. now apply trimEnd_fixed.
Qed.

(** X19. The AI import path hands over one entry per entry returned, and
    never a NaN amount: a null or NaN amount becomes 0 and every other amount
    is kept.  The code is the returned code without a hyphen at its very end,
    trimmed, so trimming it again changes nothing.  A date that is present
    and not empty is kept, and a missing or empty date is replaced by the
    selected date; provider and phone number pass through. *)
Theorem processParsedData_sanitizes displayDate data :
  length (processParsedData displayDate data) = length data /\
  (forall k raw, data !! k = Some raw ->
     exists item, processParsedData displayDate data !! k = Some item /\
       isNaN (pr_amount item) = false /\
       (forall a, raw_amount raw = Some a -> isNaN a = false -> pr_amount item = a) /\
       (raw_amount raw = None \/ raw_amount raw = Some JsNaN -> pr_amount item = JsFinite 0) /\
       pr_code item = trim (dropTrailingHyphen (raw_code raw)) /\
       trim (pr_code item) = pr_code item /\
       (forall d, raw_date raw = Some d -> d <> "" -> pr_date item = d) /\
       (raw_date raw = None \/ raw_date raw = Some "" -> pr_date item = displayDate) /\
       (displayDate <> "" -> pr_date item <> "") /\
       pr_provider item = raw_provider raw /\
       pr_phoneNumber item = raw_phoneNumber raw).
Proof.
  split; [apply length_map|].
  intros k raw Hk. exists (processItem displayDate raw).
  split; [unfold processParsedData; now rewrite list_lookup_fmap, Hk|].
  unfold processItem. cbn [pr_amount pr_code pr_date pr_provider pr_phoneNumber].
  split; [|split; [|split; [|split; [|split; [|split; [|split; [|split]]]]]]].
  - destruct (raw_amount raw) as [a|]; [|reflexivity].
    destruct (isNaN a) eqn:Ha; [reflexivity|exact Ha].
  - intros a -> Ha. now rewrite Ha.
  - intros [->| ->]; reflexivity.
  - reflexivity.
  - apply trim_idempotent.
  - intros d -> Hd. unfold orElse. now rewrite bool_decide_eq_false_2.
  - intros [->| ->]; reflexivity.
  - intros Hd. unfold orElse. destruct (raw_date raw) as [d|]; [|exact Hd].
    case_bool_decide; assumption.
  - split; reflexivity.
Qed.

(** ** User management *)

Lemma usernameTaken_false users entered :
  usernameTaken users entered = false <->
  Forall (fun u => toLowerCase (username u) <> toLowerCase (trimString entered)) users.
Proof.
  unfold usernameTaken. induction users as [|u users IH]; simpl.
  - split; [constructor|reflexivity].
  - rewrite orb_false_iff, IH, bool_decide_eq_false, Forall_cons. reflexivity.
Qed.

Lemma handleAddSubmit_Some newId users form u form' :
  handleAddSubmit newId users form = (Some u, form') ->
  trimString (newUsername form) <> "" /\
  trimString (newPassword form) <> "" /\
  trimString (newName form) <> "" /\
  usernameTaken users (newUsername form) = false /\
  u = {| user_id := newId;
         username := trimString (newUsername form);
         password := trimString (newPassword form);
         name := trimString (newName form);
         role := newRole form;
         permissions := if bool_decide (newRole form = admin) then None
                        else Some (selectedPermissions form) |}.
Proof.
  unfold handleAddSubmit.
  destruct (decide (trimString (newUsername form) = "")) as [H1|H1];
    [rewrite (bool_decide_eq_true_2 _ H1); discriminate|].
  destruct (decide (trimString (newPassword form) = "")) as [H2|H2];
    [rewrite (bool_decide_eq_true_2 _ H2), orb_true_r; discriminate|].
  destruct (decide (trimString (newName form) = "")) as [H3|H3];
    [rewrite (bool_decide_eq_true_2 _ H3), orb_true_r; discriminate|].
  rewrite !bool_decide_eq_false_2 by assumption. cbn [orb].
  destruct (usernameTaken users (newUsername form)); [discriminate|].
  intros [= <- _]. now repeat split.
Qed.

(** X20. Creating an account keeps usernames unique, letter case aside: an
    entry whose trimmed username equals an existing one up to case is
    rejected with "Username already exists." and nothing is created, and an
    accepted entry extends a list of pairwise different usernames to one. *)
Theorem handleAddSubmit_keeps_usernames_unique newId users form :
  ((exists v, In v users /\
              toLowerCase (username v) = toLowerCase (trimString (newUsername form))) ->
   fst (handleAddSubmit newId users form) = None) /\
  (forall u form', handleAddSubmit newId users form = (Some u, form') ->
     uniqueUsernames users -> uniqueUsernames (users ++ [u])).
Proof.
  split.
  - intros (v & Hv & Heq). unfold handleAddSubmit.
    destruct (_ || _ || _); [reflexivity|].
    destruct (usernameTaken users (newUsername form)) eqn:Htaken; [reflexivity|].
    apply usernameTaken_false in Htaken. rewrite Forall_forall in Htaken.
    exfalso. apply (Htaken v); [now apply list_elem_of_In|exact Heq].
  - intros u form' Hadd Huniq.
    apply handleAddSubmit_Some in Hadd as (_ & _ & _ & Hfree & ->).
    apply usernameTaken_false in Hfree. unfold uniqueUsernames.
    rewrite map_app. apply NoDup_app. split; [exact Huniq|]. split.
    + intros x Hx Hx'. simpl in Hx'. apply list_elem_of_singleton in Hx'. subst x.
      apply list_elem_of_In, in_map_iff in Hx as (v & Hv & Hin).
      rewrite Forall_forall in Hfree. apply (Hfree v); [now apply list_elem_of_In|exact Hv].
    + simpl. apply NoDup_singleton.
Qed.

Lemma handleAddSubmit_keeps_usernames_unique_witness :
  let gjweng := {| user_id := "u1"; username := "gjweng"; password := "123456@abc";
                   name := "Gjweng"; role := admin; permissions := None |} in
  let form name := {| newUsername := name; newPassword := "pw-1"; newName := "Ailsa";
                      newRole := staff; selectedPermissions := defaultPermissions;
                      nu_error := None |} in
  fst (handleAddSubmit "u2" [gjweng] (form " GJWeng ")) = None /\
  exists u form', handleAddSubmit "u2" [gjweng] (form " ailsa ") = (Some u, form') /\
                  username u = "ailsa" /\ uniqueUsernames [gjweng; u].
Proof.
  intros gjweng form.
  destruct (handleAddSubmit_keeps_usernames_unique "u2" [gjweng] (form " GJWeng "))
    as [Hreject _].
  destruct (handleAddSubmit_keeps_usernames_unique "u2" [gjweng] (form " ailsa "))
    as [_ Hkeep].
  split.
  - apply Hreject. exists gjweng. split; [now left|reflexivity].
  - eexists _, _. split; [reflexivity|]. split; [reflexivity|].
    apply (Hkeep _ _ eq_refl). unfold uniqueUsernames. simpl. apply NoDup_singleton.
Defined.

Lemma find_app_first {A : Type} (f : A -> bool) (l : list A) (x : A) :
  Forall (fun y => f y = false) l -> f x = true -> List.find f (l ++ [x]) = Some x.
Proof.
  intros Hl Hx. apply find_first. exists l, []. now repeat split.
Qed.

(** X21. An account that was just created can log in: with the new user
    appended to the list, entering the username in any letter case and the
    stored (trimmed) password hands that very user to [onLogin]. *)
Theorem new_user_can_log_in newId users form u form' entered :
  handleAddSubmit newId users form = (Some u, form') ->
  toLowerCase entered = toLowerCase (username u) ->
  handleLogin (users ++ [u])
    {| form_username := entered; form_password := password u; form_error := None |}
  = (Some u,
     {| form_username := entered; form_password := password u; form_error := None |}).
Proof.
  intros Hadd Hname.
  apply handleAddSubmit_Some in Hadd as (_ & _ & _ & Hfree & Hu).
  apply usernameTaken_false in Hfree.
  unfold handleLogin. cbn [form_username form_password].
  rewrite (find_app_first (sameUsername entered) users u).
  - now rewrite bool_decide_eq_true_2.
  - eapply Forall_impl; [exact Hfree|]. intros v Hv. unfold sameUsername.
    apply bool_decide_eq_false. rewrite Hname, Hu. exact Hv.
  - unfold sameUsername. apply bool_decide_eq_true. now symmetry.
Qed.

Lemma new_user_can_log_in_witness :
  let form := {| newUsername := " Ailsa "; newPassword := " pw-1 "; newName := "Ailsa";
                 newRole := staff; selectedPermissions := defaultPermissions;
                 nu_error := None |} in
  exists u form',
    handleAddSubmit "u2" [] form = (Some u, form') /\
    password u = "pw-1" /\
    fst (handleLogin [u] {| form_username := "AILSA"; form_password := "pw-1";
                            form_error := None |}) = Some u.
Proof.
  intros form. eexists _, _. split; [reflexivity|]. split; [reflexivity|].
  exact (f_equal fst (new_user_can_log_in "u2" [] form _ _ "AILSA" eq_refl eq_refl)).
Defined.

(** X22. Toggling a permission flips exactly that permission: afterwards it
    is selected if and only if it was not, every other permission is selected
    as before, and a selection without repetitions stays without. *)
Theorem togglePermission_flips_one viewId prev :
  (In viewId (togglePermission viewId prev) <-> ~ In viewId prev) /\
  (forall other, other <> viewId ->
     (In other (togglePermission viewId prev) <-> In other prev)) /\
  (NoDup prev -> NoDup (togglePermission viewId prev)).
Proof.
  unfold togglePermission. case_bool_decide as Hin.
  - apply list_elem_of_In in Hin. split; [|split].
    + rewrite filter_In, negb_true_iff, bool_decide_eq_false. tauto.
    + intros other Hne. rewrite filter_In, negb_true_iff, bool_decide_eq_false. tauto.
    + intros Hnd. apply NoDup_ListNoDup, List.NoDup_filter, NoDup_ListNoDup, Hnd.
  - rewrite list_elem_of_In in Hin. split; [|split].
    + rewrite in_app_iff. simpl. tauto.
    + intros other Hne. rewrite in_app_iff. simpl. split; [|tauto].
      intros [H|[H|[]]]; [exact H|congruence].
    + intros Hnd. apply NoDup_app. split; [exact Hnd|]. split; [|apply NoDup_singleton].
      intros x Hx Hx'. apply list_elem_of_singleton in Hx'. subst x.
      now apply list_elem_of_In in Hx.
Qed.

(** X23. The user table never deletes the account of the signed-in user,
    whatever the confirmation dialog answers; any other deletion removes at
    most the one requested user document and nothing is ever deleted when
    the dialog is declined. *)
Theorem handleDelete_spares_current_user currentUser confirmed userId s :
  exists s',
    handleDelete currentUser confirmed userId s = (Ok tt, s') /\
    (forall cu, currentUser = Some cu ->
       db s' !! ("users", user_id cu) = db s !! ("users", user_id cu)) /\
    (forall c k, (c, k) <> ("users", userId) -> db s' !! (c, k) = db s !! (c, k)) /\
    (confirmed = false -> s' = s).
Proof.
  unfold handleDelete. case_bool_decide as Hself.
  - exists s. now repeat split.
  - destruct confirmed.
    + eexists. split; [reflexivity|]. cbn [db]. split; [|split; [|discriminate]].
      * intros cu ->. apply lookup_delete_ne. intros [= Heq]. apply Hself.
        simpl. now rewrite Heq.
      * intros c k Hne. apply lookup_delete_ne. congruence.
    + exists s. now repeat split.
Qed.

(** ** Navigation and the permission check *)

(** X24. The sidebar and the permission check agree: a navigation entry that
    the sidebar shows to the signed-in user is never bounced back to the
    dashboard.  After the check a user who is not admin is on the dashboard
    or on a view listed in their permissions, running the check again
    changes nothing, and the user-management entry is shown to admins only. *)
Theorem sidebar_entries_pass_the_permission_check currentUser :
  (forall item adminOnly, In (item, adminOnly) navItems ->
     canAccess currentUser item adminOnly = true ->
     enforceView currentUser item = (item, None)) /\
  (forall u view, currentUser = Some u -> role u <> admin ->
     let shown := fst (enforceView currentUser view) in
     shown = view_dashboard \/ In shown (default [] (permissions u))) /\
  (forall view,
     fst (enforceView currentUser (fst (enforceView currentUser view)))
     = fst (enforceView currentUser view)) /\
  (canAccess currentUser view_users true = true ->
     exists u, currentUser = Some u /\ role u = admin).
Proof.
  split; [|split; [|split]].
  - intros item adminOnly _ Hcan. unfold canAccess, enforceView in *.
    destruct currentUser as [u|]; [|discriminate].
    destruct (bool_decide (role u = admin)); [reflexivity|].
    destruct adminOnly; [discriminate|]. rewrite Hcan.
    now destruct (negb _ && negb _).
  - intros u view -> Hrole. unfold enforceView.
    rewrite (bool_decide_eq_false_2 _ Hrole). cbn [negb andb].
    case_bool_decide as Hdash; cbn [negb]; [left; exact Hdash|].
    case_bool_decide as Hperm; cbn [fst]; [right; now apply list_elem_of_In|now left].
  - intros view. unfold enforceView. destruct currentUser as [u|]; [|reflexivity].
    destruct (bool_decide (role u = admin)); cbn [negb andb]; [reflexivity|].
    destruct (decide (view = view_dashboard)) as [Hdash|Hdash].
    + repeat first [rewrite (bool_decide_eq_true_2 _ Hdash) | progress cbn [negb andb fst]].
      reflexivity.
    + destruct (decide (view ∈ default [] (permissions u))) as [Hperm|Hperm].
      * repeat first [rewrite (bool_decide_eq_false_2 _ Hdash)
                     | rewrite (bool_decide_eq_true_2 _ Hperm)
                     | progress cbn [negb andb fst]].
        reflexivity.
      * repeat first [rewrite (bool_decide_eq_false_2 _ Hdash)
                     | rewrite (bool_decide_eq_false_2 _ Hperm)
                     | progress cbn [negb andb fst]].
        now rewrite bool_decide_eq_true_2.
  - unfold canAccess. destruct currentUser as [u|]; [|discriminate].
    case_bool_decide as Hrole; [eauto|discriminate].
Qed.

Lemma sidebar_entries_pass_the_permission_check_witness :
  let ailsa := {| user_id := "u2"; username := "ailsa"; password := "pw-1";
                  name := "Ailsa"; role := staff;
                  permissions := Some [view_list; view_notes] |} in
  enforceView (Some ailsa) view_notes = (view_notes, None) /\
  fst (enforceView (Some ailsa) view_reports) = view_dashboard.
Proof.
  intros ailsa.
  destruct (sidebar_entries_pass_the_permission_check (Some ailsa)) as (Hpass & _).
  split; [|reflexivity].
  apply (Hpass view_notes false); [|reflexivity].
  unfold navItems. simpl. tauto.
Defined.

(** ** The transaction form *)

Lemma upperAscii_not_lower a : isLowerLetter (upperAscii a) = false.
Proof.
  destruct a as [[] [] [] [] [] [] [] []]; reflexivity.
Qed.

Lemma toUpperCase_no_lower s :
  Forall (fun a => isLowerLetter a = false) (String.list_ascii_of_string (toUpperCase s)).
Proof.
  induction s as [|a s IH]; simpl; [constructor|].
  constructor; [apply upperAscii_not_lower|exact IH].
Qed.

(** X25. The transaction form submits only complete, positive entries: when
    [onSubmit] is called the code is the trimmed, upper-cased entry and is
    not empty and free of lower-case letters, the order number is not empty
    and the amount is a number greater than 0; the form is then cleared
    except for the date.  When the entry is rejected nothing is submitted,
    the fields stay as typed and an error is shown. *)
Theorem submitTransaction_only_positive formatDate form :
  (forall data form', submitTransaction formatDate form = (Some data, form') ->
     sub_code data = toUpperCase (trimString (tf_code form)) /\
     sub_code data <> "" /\
     Forall (fun a => isLowerLetter a = false) (String.list_ascii_of_string (sub_code data)) /\
     sub_orderNumber data = tf_orderNumber form /\ sub_orderNumber data <> "" /\
     sub_date data = formatDate (tf_date form) /\
     ((exists q, sub_amount data = JsFinite q /\ 0 < q) \/
      sub_amount data = JsInfinity false) /\
     form' = {| tf_code := ""; tf_orderNumber := ""; tf_amount := "";
                tf_date := tf_date form; tf_error := None |}) /\
  (forall form', submitTransaction formatDate form = (None, form') ->
     exists message, form' = txError form message).
Proof.
  unfold submitTransaction. split.
  - intros data form'.
    destruct (decide (toUpperCase (trimString (tf_code form)) = "")) as [H1|H1];
      [rewrite (bool_decide_eq_true_2 _ H1); discriminate|].
    destruct (decide (tf_orderNumber form = "")) as [H2|H2];
      [rewrite (bool_decide_eq_true_2 _ H2), orb_true_r; discriminate|].
    rewrite (bool_decide_eq_false_2 _ H1), (bool_decide_eq_false_2 _ H2). cbn [orb].
    destruct (bool_decide (tf_amount form = "")); [discriminate|].
    destruct (parseFloat (String.list_ascii_of_string (tf_amount form))) as [|neg|q] eqn:Hnum;
      cbn [isNaN leZero orb]; [discriminate| |].
    + destruct neg; [discriminate|]. intros [= <- <-]. cbn [sub_code sub_orderNumber
        sub_date sub_amount]. repeat split; try assumption; [apply toUpperCase_no_lower|].
      now right.
    + destruct (Qle_bool q 0) eqn:Hq; [discriminate|]. intros [= <- <-].
      cbn [sub_code sub_orderNumber sub_date sub_amount].
      repeat split; try assumption; [apply toUpperCase_no_lower|].
      left. exists q. split; [reflexivity|].
      apply Qnot_le_lt. intros Hle. apply Qle_bool_iff in Hle. congruence.
  - intros form'. destruct (_ || _ || _); [intros [= <-]; eauto|].
    destruct (isNaN _ || leZero _); [intros [= <-]; eauto|discriminate].
Qed.

Lemma submitTransaction_only_positive_witness :
  let form := {| tf_code := " c130 "; tf_orderNumber := "ORD-9923"; tf_amount := "12.50";
                 tf_date := "2025-12-01"; tf_error := None |} in
  exists data form',
    submitTransaction (fun d => d) form = (Some data, form') /\
    sub_code data = "C130" /\
    exists q, sub_amount data = JsFinite q /\ 0 < q.
Proof.
  intros form.
  destruct (submitTransaction (fun d => d) form) as [[data|] form'] eqn:Hrun;
    [|discriminate Hrun].
  destruct (submitTransaction_only_positive (fun d => d) form) as [Hok _].
  destruct (Hok data form' Hrun) as (Hcode & _ & _ & _ & _ & _ & Hamount & _).
  exists data, form'. split; [reflexivity|]. split; [rewrite Hcode; reflexivity|].
  destruct Hamount as [Hq|Hinf]; [exact Hq|].
  vm_compute in Hrun. injection Hrun as <- _. discriminate Hinf.
Defined.

(** ** The roster *)

Lemma findAssignment_map_same l empId newShift :
  findAssignment
    (map (fun a => if bool_decide (employeeId a = empId) then withShift a newShift else a) l)
    empId
  = (fun a => withShift a newShift) <$> findAssignment l empId.
Proof.
  unfold findAssignment. induction l as [|a l IH]; [reflexivity|].
  cbn [map List.find].
  destruct (decide (employeeId a = empId)) as [Ha|Ha].
  - rewrite !(bool_decide_eq_true_2 _ Ha). reflexivity.
  - rewrite !(bool_decide_eq_false_2 _ Ha). exact IH.
Qed.

Lemma findAssignment_map_other l empId other newShift :
  other <> empId ->
  findAssignment
    (map (fun a => if bool_decide (employeeId a = empId) then withShift a newShift else a) l)
    other
  = findAssignment l other.
Proof.
  intros Hne. unfold findAssignment. induction l as [|a l IH]; [reflexivity|].
  cbn [map List.find].
  destruct (decide (employeeId a = empId)) as [Ha|Ha].
  - rewrite !(bool_decide_eq_true_2 _ Ha). cbn [withShift employeeId].
    rewrite !(bool_decide_eq_false_2 (employeeId a = other)) by congruence. exact IH.
  - rewrite !(bool_decide_eq_false_2 _ Ha).
    destruct (bool_decide (employeeId a = other)); [reflexivity|exact IH].
Qed.

Lemma findAssignment_app l1 l2 empId :
  findAssignment (l1 ++ l2) empId =
    match findAssignment l1 empId with
    | Some a => Some a
    | None => findAssignment l2 empId
    end.
Proof.
  unfold findAssignment. induction l1 as [|a l1 IH]; simpl; [reflexivity|].
  destruct (bool_decide (employeeId a = empId)); [reflexivity|exact IH].
Qed.

Lemma findAssignment_None l empId :
  findAssignment l empId = None -> ~ In empId (map employeeId l).
Proof.
  unfold findAssignment. intros Hnone Hin. apply in_map_iff in Hin as (a & Ha & Hin).
  apply (find_none _ _ Hnone) in Hin. apply bool_decide_eq_false in Hin. contradiction.
Qed.

Lemma findDay_day schedule dateStr d : findDay schedule dateStr = Some d -> day d = dateStr.
Proof.
  unfold findDay. intros H. apply find_some in H as [_ H]. now apply bool_decide_eq_true in H.
Qed.

(** X26. Changing one cell of the roster sets exactly that cell: in the day
    handed to the store the employee has the new shift, every other
    employee has the shift the roster showed before, the day is the one
    that was clicked, and no employee is listed twice if none was. *)
Theorem handleShiftChange_sets_one_cell schedule employees dateStr empId newShift :
  let written := handleShiftChange schedule employees dateStr empId newShift in
  day written = dateStr /\
  shift <$> findAssignment (assignments written) empId = Some newShift /\
  (forall other, other <> empId ->
     shift <$> findAssignment (assignments written) other
     = getShiftFor schedule dateStr other) /\
  ((forall old, findDay schedule dateStr = Some old ->
      NoDup (map employeeId (assignments old))) ->
   NoDup (map employeeId (assignments written))).
Proof.
  intros written. unfold written, handleShiftChange, getShiftFor.
  destruct (findDay schedule dateStr) as [old|] eqn:Hday; cbn [mbind option_bind].
  - destruct (findAssignment (assignments old) empId) as [a|] eqn:Hfind;
      cbn [day assignments].
    + split; [now apply (findDay_day schedule)|]. split; [|split].
      * rewrite findAssignment_map_same, Hfind. reflexivity.
      * intros other Hne. now rewrite findAssignment_map_other.
      * intros Hnd. specialize (Hnd old eq_refl). rewrite map_map.
        erewrite map_ext; [exact Hnd|]. intros b. simpl.
        now destruct (bool_decide (employeeId b = empId)).
    + split; [now apply (findDay_day schedule)|]. split; [|split].
      * rewrite findAssignment_app, Hfind. unfold findAssignment. simpl.
        now rewrite bool_decide_eq_true_2.
      * intros other Hne. rewrite findAssignment_app.
        destruct (findAssignment (assignments old) other); [reflexivity|].
        unfold findAssignment. simpl. now rewrite bool_decide_eq_false_2 by congruence.
      * intros Hnd. specialize (Hnd old eq_refl). rewrite map_app.
        apply NoDup_app. split; [exact Hnd|]. split; [|apply NoDup_singleton].
        intros x Hx Hx'. simpl in Hx'. apply list_elem_of_singleton in Hx'. subst x.
        apply list_elem_of_In in Hx. now apply (findAssignment_None _ _ Hfind).
  - cbn [day assignments]. split; [reflexivity|]. split; [|split].
    + unfold findAssignment. simpl. now rewrite bool_decide_eq_true_2.
    + intros other Hne. unfold findAssignment. simpl.
      now rewrite bool_decide_eq_false_2 by congruence.
    + intros _. simpl. apply NoDup_singleton.
Qed.

Lemma handleShiftChange_sets_one_cell_witness :
  let monday := {| day := "2025-12-01";
                   assignments := [{| employeeId := "e1"; employeeName := "Weng";
                                      shift := Noon_2 |};
                                   {| employeeId := "e2"; employeeName := "Ailsa";
                                      shift := Morning |}] |} in
  let written := handleShiftChange [monday] [] "2025-12-01" "e2" OFF in
  map employeeId (assignments written) = ["e1"; "e2"] /\
  NoDup (map employeeId (assignments written)).
Proof.
  intros monday written. split; [reflexivity|].
  destruct (handleShiftChange_sets_one_cell [monday] [] "2025-12-01" "e2" OFF)
    as (_ & _ & _ & Hnd).
  apply Hnd. intros old [= <-]. simpl.
  apply NoDup_ListNoDup. repeat constructor; simpl; intuition discriminate.
Defined.

Lemma replaceFirst_find imp l e :
  findAssignment (mergeStep l imp) e
  = if bool_decide (e = employeeId imp) then Some imp else findAssignment l e.
Proof.
  unfold mergeStep, findAssignment.
  induction l as [|a l IH]; simpl.
  - destruct (decide (e = employeeId imp)) as [->|He].
    + now rewrite !bool_decide_eq_true_2.
    + rewrite (bool_decide_eq_false_2 (e = _)) by exact He.
      now rewrite bool_decide_eq_false_2 by congruence.
  - destruct (decide (employeeId a = employeeId imp)) as [Ha|Ha].
    + rewrite (bool_decide_eq_true_2 _ Ha). simpl.
      destruct (decide (e = employeeId imp)) as [->|He].
      * now rewrite !bool_decide_eq_true_2.
      * rewrite (bool_decide_eq_false_2 (e = _)) by exact He.
        rewrite !bool_decide_eq_false_2 by congruence. reflexivity.
    + rewrite (bool_decide_eq_false_2 _ Ha).
      destruct (replaceFirst imp l) as [replaced|]; simpl in *.
      * destruct (bool_decide (employeeId a = e)) eqn:Hae; [|exact IH].
        apply bool_decide_eq_true in Hae. subst e.
        now rewrite bool_decide_eq_false_2.
      * destruct (bool_decide (employeeId a = e)) eqn:Hae; [|exact IH].
        apply bool_decide_eq_true in Hae. subst e.
        now rewrite bool_decide_eq_false_2.
Qed.

Lemma replaceFirst_ids imp l replaced :
  replaceFirst imp l = Some replaced -> map employeeId replaced = map employeeId l.
Proof.
  revert replaced. induction l as [|a l IH]; intros replaced; simpl; [discriminate|].
  case_bool_decide as Ha.
  - intros [= <-]. simpl. now rewrite Ha.
  - destruct (replaceFirst imp l) as [r|]; [|discriminate].
    intros [= <-]. simpl. now rewrite (IH r eq_refl).
Qed.

Lemma replaceFirst_None imp l :
  replaceFirst imp l = None -> ~ In (employeeId imp) (map employeeId l).
Proof.
  induction l as [|a l IH]; simpl; [tauto|].
  case_bool_decide as Ha; [discriminate|].
  destruct (replaceFirst imp l); [discriminate|]. intros _ [H|H]; [contradiction|].
  now apply IH.
Qed.

(** X27. Merging the assignments read from a roster image into a day: every
    employee named in the import ends up with the last imported assignment
    for them, every other employee keeps the assignment they had, and no
    employee is listed twice if none was before. *)
Theorem mergeAssignments_last_import_wins existing imported :
  (forall e,
     findAssignment (mergeAssignments existing imported) e
     = match last (List.filter (fun a => bool_decide (employeeId a = e)) imported) with
       | Some imp => Some imp
       | None => findAssignment existing e
       end) /\
  (NoDup (map employeeId existing) ->
   NoDup (map employeeId (mergeAssignments existing imported))).
Proof.
  unfold mergeAssignments. revert existing.
  induction imported as [|imp imported IH]; intros existing.
  - split; [reflexivity|trivial].
  - destruct (IH (mergeStep existing imp)) as [IHfind IHnd]. cbn [foldl]. split.
    + intros e. rewrite IHfind, replaceFirst_find. cbn [List.filter].
      destruct (decide (employeeId imp = e)) as [He|He].
      * rewrite (bool_decide_eq_true_2 _ He).
        rewrite (bool_decide_eq_true_2 (e = employeeId imp)) by now symmetry.
        destruct (List.filter _ imported) as [|b l]; [reflexivity|].
        rewrite last_cons_cons. destruct (last (b :: l)) eqn:Hl; [reflexivity|].
        apply last_None in Hl. discriminate.
      * rewrite (bool_decide_eq_false_2 _ He).
        now rewrite (bool_decide_eq_false_2 (e = employeeId imp)) by congruence.
    + intros Hnd. apply IHnd. unfold mergeStep.
      destruct (replaceFirst imp existing) as [replaced|] eqn:Hr.
      * now rewrite (replaceFirst_ids imp existing replaced Hr).
      * rewrite map_app. apply NoDup_app. split; [exact Hnd|].
        split; [|apply NoDup_singleton].
        intros x Hx Hx'. simpl in Hx'. apply list_elem_of_singleton in Hx'. subst x.
        apply list_elem_of_In in Hx. now apply (replaceFirst_None imp existing).
Qed.

Lemma mergeAssignments_last_import_wins_witness :
  let weng s := {| employeeId := "e1"; employeeName := "Weng"; shift := s |} in
  let ailsa s := {| employeeId := "e2"; employeeName := "Ailsa"; shift := s |} in
  let merged := mergeAssignments [weng Morning; ailsa Noon_1] [weng OFF; weng AL] in
  merged = [weng AL; ailsa Noon_1] /\ NoDup (map employeeId merged).
Proof.
  intros weng ailsa merged. split; [reflexivity|].
  apply (mergeAssignments_last_import_wins [weng Morning; ailsa Noon_1] [weng OFF; weng AL]).
  apply NoDup_ListNoDup. repeat constructor; simpl; intuition discriminate.
Defined.

(** ** Restore of a large collection *)

Lemma first_without_key (l : list Doc) :
  ~ Forall (fun d => is_Some (docKey d)) l ->
  exists pre bad post,
    l = pre ++ bad :: post /\ Forall (fun d => is_Some (docKey d)) pre /\
    docKey bad = None.
Proof.
  induction l as [|d l IH]; intros Hnot; [destruct Hnot; constructor|].
  destruct (docKey d) as [k|] eqn:Hd.
  - destruct IH as (pre & bad & post & -> & Hpre & Hbad).
    { intros Hl. apply Hnot. constructor; [rewrite Hd; eauto|exact Hl]. }
    exists (d :: pre), bad, post. split; [reflexivity|]. split; [|exact Hbad].
    constructor; [rewrite Hd; eauto|exact Hpre].
  - exists [], d, l. split; [reflexivity|]. split; [constructor|exact Hd].
Qed.

Lemma uploadCollection_without_key c pre bad post s :
  docKey bad = None -> (length pre < 450)%nat ->
  Forall (fun d => is_Some (docKey d)) pre ->
  uploadCollection c (Some (pre ++ bad :: post)) s = (Threw, s).
Proof.
  intros Hbad Hlen Hkeys. unfold uploadCollection.
  destruct (pre ++ bad :: post) as [|d0 l0] eqn:Hdata; [now destruct pre|].
  rewrite <- Hdata. fire_unfold. rewrite uploadLoop_app.
  rewrite uploadLoop_below; [|reflexivity|assumption|simpl; lia].
  cbn [uploadLoop]. fire_unfold. unfold batchSet. now rewrite Hbad.
Qed.

(** X28. Restoring a collection of more than 450 records never completes,
    whatever the records are: the upload throws.  When the first 450 records
    carry keys without a slash, exactly they are committed, in one batch,
    before the write of the next record throws, and no key other than theirs
    is touched; when one of the first 450 records has no key, the upload
    throws at it and the store is left as it was. *)
Theorem restore_over_450_commits_first_batch_only c data s :
  (450 < length data)%nat ->
  exists s',
    uploadCollection c (Some data) s = (Threw, s') /\
    (Forall (fun d => isPlainKey d = true) (take 450 data) ->
       commits s' = commits s ++ [setOps c (take 450 data)] /\
       (forall k, lastWithKey k (take 450 data) = None ->
          db s' !! (c, k) = db s !! (c, k)) /\
       (forall c' k, c' <> c -> db s' !! (c', k) = db s !! (c', k))) /\
    (~ Forall (fun d => is_Some (docKey d)) (take 450 data) -> s' = s).
Proof.
  intros Hlen.
  destruct (decide (Forall (fun d => is_Some (docKey d)) (take 450 data)))
    as [Hkeys|Hnot].
  - rewrite uploadCollection_over_450 by assumption.
    eexists. split; [reflexivity|]. split; [|contradiction].
    intros _. cbn [db commits]. split; [reflexivity|]. split.
    + intros k Hnone. rewrite foldl_setOps_lookup.
      rewrite bool_decide_eq_true_2 by reflexivity. now rewrite Hnone.
    + intros c' k Hc. rewrite foldl_setOps_lookup. now rewrite bool_decide_eq_false_2.
  - destruct (first_without_key _ Hnot) as (pre & bad & post & Hsplit & Hpre & Hbad).
    exists s. split; [|split].
    + rewrite <- (take_drop 450 data), Hsplit, <- app_assoc. cbn [app].
      apply uploadCollection_without_key; [exact Hbad| |exact Hpre].
      apply (f_equal length) in Hsplit.
      rewrite length_take, length_app in Hsplit. cbn [length] in Hsplit. lia.
    + intros Hplain. exfalso. apply Hnot. now apply Forall_isPlainKey.
    + reflexivity.
Qed.

Lemma restore_over_450_commits_first_batch_only_witness :
  let data := backupRecord <$> seq 0 500 in
  exists s',
    uploadCollection "inventory" (Some data) emptyStore = (Threw, s') /\
    length (commits s') = 1%nat.
Proof.
  intros data.
  destruct (restore_over_450_commits_first_batch_only "inventory" data emptyStore)
    as (s' & Hrun & Hplain & _).
  - unfold data. rewrite length_fmap, length_seq. lia.
  - exists s'. split; [exact Hrun|].
    destruct Hplain as (Hcommits & _); [|now rewrite Hcommits].
    apply Forall_forall. intros d Hd. apply list_elem_of_In in Hd.
    revert d Hd. apply forallb_forall. vm_compute. reflexivity.
Defined.

(** ** The audit summary *)


(** ** Shift requests *)

Lemma filter_fresh_requests (l : list EmployeeRequest) (reqId : string) :
  Forall (fun r => req_id r <> reqId) l ->
  List.filter (fun r => negb (bool_decide (req_id r = reqId))) l = l.
Proof.
  induction 1 as [|r l Hr _ IH]; cbn [List.filter]; [reflexivity|].
  rewrite (bool_decide_eq_false_2 _ Hr). cbn [negb]. now f_equal.
Qed.

(** X30. Shift requests: a request is only recorded when its date is one of
    the dates that [monthDays] lists and the employee exists, and it is then
    appended to the employee's requests; removing a request drops exactly
    the requests with that id, so removing the request that was just added
    under a fresh id gives back the requests the employee had. *)
Theorem shift_request_add_then_remove monthDays newId employees reqDate reqType empId :
  (forall updated,
     handleAddRequest monthDays newId employees reqDate reqType empId = Some updated ->
     In reqDate monthDays /\
     exists emp, In emp employees /\ emp_id emp = empId /\
       emp_id updated = empId /\
       requests updated
       = Some (default [] (requests emp)
               ++ [{| req_id := newId; req_day := reqDate; req_shift := reqType |}]) /\
       (Forall (fun r => req_id r <> newId) (default [] (requests emp)) ->
        forall others after,
          handleRemoveRequest (updated :: others) empId newId = Some after ->
          requests after = Some (default [] (requests emp)))) /\
  (~ In reqDate monthDays ->
   handleAddRequest monthDays newId employees reqDate reqType empId = None).
Proof.
  unfold handleAddRequest. split.
  - intros updated. case_bool_decide as Hempty; [discriminate|].
    destruct (existsb _ monthDays) eqn:Hmonth; cbn [negb]; [|discriminate].
    apply existsb_exists in Hmonth as (d & Hd & Heq). apply bool_decide_eq_true in Heq.
    subst d.
    destruct (List.find _ employees) as [emp|] eqn:Hfind; [|discriminate].
    intros [= <-]. split; [exact Hd|].
    apply find_some in Hfind as [Hin Hid]. apply bool_decide_eq_true in Hid.
    exists emp. split; [exact Hin|]. split; [exact Hid|]. cbn [emp_id requests].
    split; [exact Hid|]. split; [reflexivity|].
    intros Hfresh others after. unfold handleRemoveRequest. cbn [List.find emp_id].
    rewrite (bool_decide_eq_true_2 _ Hid). cbn [fmap option_fmap option_map requests default].
    intros [= <-]. cbn [requests]. f_equal.
    rewrite List.filter_app. cbn [List.filter req_id].
    rewrite bool_decide_eq_true_2 by reflexivity. cbn [negb].
    rewrite app_nil_r. now apply filter_fresh_requests.
  - intros Hnot. case_bool_decide; [reflexivity|].
    destruct (existsb _ monthDays) eqn:Hmonth; [|reflexivity].
    apply existsb_exists in Hmonth as (d & Hd & Heq). apply bool_decide_eq_true in Heq.
    subst d. contradiction.
Qed.

Lemma shift_request_add_then_remove_witness :
  let weng := {| emp_id := "e1"; emp_name := "Weng GPC 0012";
                 primaryShift := Some "Noon 2";
                 requests := Some [{| req_id := "r1"; req_day := "2025-12-05";
                                      req_shift := "OFF" |}] |} in
  let monthDays := ["2025-12-24"; "2025-12-25"] in
  handleAddRequest monthDays "r2" [weng] "2026-01-01" "AL" "e1" = None /\
  exists updated after,
    handleAddRequest monthDays "r2" [weng] "2025-12-25" "AL" "e1" = Some updated /\
    handleRemoveRequest [updated] "e1" "r2" = Some after /\
    requests after = requests weng.
Proof.
  intros weng monthDays.
  destruct (shift_request_add_then_remove monthDays "r2" [weng] "2026-01-01" "AL" "e1")
    as [_ Hout].
  destruct (shift_request_add_then_remove monthDays "r2" [weng] "2025-12-25" "AL" "e1")
    as [Hin _].
  split.
  - apply Hout. simpl. intuition discriminate.
  - eexists _, _. split; [reflexivity|]. split; [reflexivity|]. reflexivity.
Defined.
